(** * The e-mail delivery queue of the job portal

    A shallow embedding of the notification/e-mail pipeline of the portal's
    backend:

    - [backend/models/notificationSchema.js]: the [EmailQueue] and
      [NotificationPreferences] collections,
    - [backend/services/emailService.js]: [EmailService.sendEmail] and the
      provider back ends,
    - [backend/services/emailQueueProcessor.js]: [processQueue],
      [processEmailJob], [shouldSkipEmail], the digest generators and the
      retention sweep,
    - the e-mail controller: the admin actions [retryFailedEmail] and
      [cancelEmail],
    - [backend/controllers/notificationController.js]: the notification
      requests and [queueEmailNotification].

    How the program is read:

    - A MongoDB collection is a finite map from document ids to documents.
      A document loaded by a query is a value in memory; [save()] writes the
      paths the code assigned back to the stored document of the same id.
      Database calls themselves do not fail.
    - What the program reads from outside is a field of an environment: the
      template directory (a template renders or throws), the provider SDK
      (a message id or a throw), the clock (the values of [new Date()]),
      the zone of the host.  Every function of the model is therefore total
      and can be evaluated.
    - A function that may throw returns a [Result]; [processEmailJob], whose
      handler can itself throw, reports how it ended.
    - A string is the UTF-8 bytes of its text; its [length] counts UTF-16
      code units.  The numbers the code handles are integers, which
      [parseInt] reads as the nearest Number. *)

From Stdlib Require Import ZArith Ascii String Lia.
From stdpp Require Import base option list sorting gmap strings pretty.

Local Open Scope Z_scope.

(** ** JavaScript values used by the code

    A string is kept as the UTF-8 bytes of its text. *)
Module Js.

(** The outcome of a call that may [throw]: the error carries its
    [message]. *)
Inductive Result (A : Type) : Type :=
| Ok (a : A)
| Throw (message : string).
Global Arguments Ok {A} a.
Global Arguments Throw {A} message.

(** Truthiness of a possibly [undefined] string: [undefined] and the empty
    string are falsy. *)
Definition truthy (v : option string) : bool :=
  match v with
  | Some (String _ _) => true
  | _ => false
  end.

(** A string inside a template literal: [`${undefined}`] prints as
    ["undefined"]. *)
Definition interpolate (v : option string) : string :=
  match v with
  | Some s => s
  | None => "undefined"
  end.

(** [a || b] on possibly undefined strings. *)
Definition orElse (a b : option string) : option string :=
  if truthy a then a else b.

Definition code (c : ascii) : N := N_of_ascii c.

(** The ASCII white space: tab, line feed, vertical tab, form feed,
    carriage return and space. *)
Definition isWhite (c : ascii) : bool :=
  let n := code c in
  ((9 <=? n) && (n <=? 13))%N || (n =? 32)%N.

Fixpoint skipWhite (s : string) : string :=
  match s with
  | String c r => if isWhite c then skipWhite r else s
  | EmptyString => s
  end.

(** White space as [parseInt] skips it ([StrWhiteSpaceChar]): the ASCII
    white space above and, in their UTF-8 bytes, U+00A0, U+1680, U+2000 to
    U+200A, U+2028, U+2029, U+202F, U+205F, U+3000 and U+FEFF. *)
Definition isWhite3 (a b c : N) : bool :=
  ((a =? 225) && (b =? 154) && (c =? 128)
   || (a =? 226) && (b =? 128)
      && ((128 <=? c) && (c <=? 138) || (c =? 168) || (c =? 169) || (c =? 175))
   || (a =? 226) && (b =? 129) && (c =? 159)
   || (a =? 227) && (b =? 128) && (c =? 128)
   || (a =? 239) && (b =? 187) && (c =? 191))%N.

Fixpoint skipStrWhite (s : string) : string :=
  match s with
  | String c r =>
      if isWhite c then skipStrWhite r
      else
        match r with
        | String c1 r1 =>
            if ((code c =? 194) && (code c1 =? 160))%N then skipStrWhite r1
            else
              match r1 with
              | String c2 r2 =>
                  if isWhite3 (code c) (code c1) (code c2) then skipStrWhite r2 else s
              | EmptyString => s
              end
        | EmptyString => s
        end
  | EmptyString => s
  end.

(** [s.length]: the number of UTF-16 code units of the text.  A
    continuation byte counts nothing, the first byte of a four-byte
    sequence counts two (a surrogate pair), any other byte one. *)
Fixpoint utf16Length (s : string) : nat :=
  match s with
  | String c r =>
      ((if (128 <=? code c)%N && (code c <? 192)%N then 0
        else if (240 <=? code c)%N then 2 else 1)
       + utf16Length r)%nat
  | EmptyString => 0%nat
  end.

(** The Number nearest to an integer, ties to even: every integer below
    [2^53] is a Number, a larger one keeps its leading 53 bits.  What lies
    beyond the finite Numbers becomes [Infinity], for which [2^1024],
    greater than each of them, stands: the code only compares. *)
Definition infinity : Z := 2 ^ 1024.

Definition toNumber (z : Z) : Z :=
  let a := Z.abs z in
  if a <? 2 ^ 53 then z
  else
    let e := Z.log2 a - 52 in
    let q := a / 2 ^ e in
    let r := a mod 2 ^ e in
    let half := 2 ^ (e - 1) in
    let q' :=
      if r <? half then q
      else if half <? r then q + 1
      else if Z.even q then q else q + 1 in
    Z.sgn z * Z.min (q' * 2 ^ e) infinity.

(** Value of a character as a digit in the given radix. *)
Definition digitVal (radix : Z) (c : ascii) : option Z :=
  let n := Z.of_N (code c) in
  let v :=
    if (48 <=? n) && (n <=? 57) then Some (n - 48)
    else if (97 <=? n) && (n <=? 122) then Some (n - 87)
    else if (65 <=? n) && (n <=? 90) then Some (n - 55)
    else None in
  match v with
  | Some d => if d <? radix then Some d else None
  | None => None
  end.

(** The longest prefix of digits; [None] when there is no digit at all. *)
Fixpoint digits (radix : Z) (s : string) (acc : option Z) : option Z :=
  match s with
  | String c r =>
      match digitVal radix c with
      | Some d => digits radix r (Some (radix * default 0 acc + d))
      | None => acc
      end
  | EmptyString => acc
  end.

(** [parseInt(s)] without a radix argument: leading white space, an
    optional sign, an optional [0x] prefix, then digits; anything after the
    digits is ignored.  The result is the Number nearest to the integer
    read; [None] is [NaN]. *)
Definition parseInt (s : string) : option Z :=
  let s := skipStrWhite s in
  let '(neg, s) :=
    match s with
    | String "-"%char r => (true, r)
    | String "+"%char r => (false, r)
    | _ => (false, s)
    end in
  let '(radix, s) :=
    match s with
    | String "0"%char (String "x"%char r) => (16, r)
    | String "0"%char (String "X"%char r) => (16, r)
    | _ => (10, s)
    end in
  (fun v : Z => toNumber (if neg : bool then - v else v)) <$> digits radix s None.

(** [s.split(':')[0]]: the part of [s] before the first colon. *)
Fixpoint splitColonHead (s : string) : string :=
  match s with
  | String c r => if (code c =? 58)%N then EmptyString else String c (splitColonHead r)
  | EmptyString => EmptyString
  end.

(** Comparisons of numbers that may be [NaN]: every comparison with [NaN]
    is false. *)
Definition gt (a b : option Z) : bool :=
  match a, b with Some x, Some y => y <? x | _, _ => false end.
Definition ge (a b : option Z) : bool :=
  match a, b with Some x, Some y => y <=? x | _, _ => false end.
Definition le (a b : option Z) : bool :=
  match a, b with Some x, Some y => x <=? y | _, _ => false end.

(** A [Date] is its time value, milliseconds since the epoch.
    [getHours()] is the hour of the day on the clock of the host process,
    whose zone is [hostOffset] minutes east of UTC. *)
Definition getHours (hostOffset : Z) (date : Z) : Z :=
  ((date + hostOffset * 60000) / 3600000) mod 24.

End Js.

Import Js.

(** ** The collections of [notificationSchema.js] *)

(** [emailQueueSchema.emailType] *)
Inductive EmailType : Set :=
| notification_immediate | daily_digest | weekly_digest
| welcome | password_reset | account_verification
| job_alert | application_confirmation | interview_reminder.

(** [emailQueueSchema.priority] *)
Inductive Priority : Set := low | medium | high.

(** [emailQueueSchema.status] *)
Inductive Status : Set := pending | processing | sent | failed | cancelled.

(** [preferences.email.frequency] *)
Inductive Frequency : Set := immediate | daily | weekly.

Global Instance EmailType_eq_dec : EqDecision EmailType.
Proof. solve_decision. Defined.
Global Instance Priority_eq_dec : EqDecision Priority.
Proof. solve_decision. Defined.
Global Instance Status_eq_dec : EqDecision Status.
Proof. solve_decision. Defined.
Global Instance Frequency_eq_dec : EqDecision Frequency.
Proof. solve_decision. Defined.

(** The priority is stored as its name: the field has [type: String]. *)
Definition priorityName (p : Priority) : string :=
  match p with
  | low => "low"
  | medium => "medium"
  | high => "high"
  end.

(** The fields of a user that [populate('recipient', 'name email')] loads. *)
Record User : Set := mkUser {
  name : string;
  userEmail : string
}.

(** [preferences.email] of the preferences schema. *)
Record EmailPrefs : Set := mkEmailPrefs {
  enabled : bool;
  jobMatches : bool;
  applicationUpdates : bool;
  connectionRequests : bool;
  endorsements : bool;
  recommendations : bool;
  assessmentInvitations : bool;
  weeklyDigest : bool;
  frequency : Frequency
}.

Record QuietHours : Set := mkQuietHours {
  quietEnabled : bool;
  startTime : string;
  endTime : string;
  timezone : string
}.

(** A [NotificationPreferences] document; the collection is keyed by [user]
    ([unique: true]).  The push and in-app blocks are not read by the e-mail
    path and are left out. *)
Record NotificationPreferences : Set := mkPreferences {
  email : EmailPrefs;
  quietHours : QuietHours
}.

(** The defaults of the preferences schema. *)
Definition defaultPreferences : NotificationPreferences :=
  {| email := {| enabled := true; jobMatches := true; applicationUpdates := true;
                 connectionRequests := true; endorsements := true;
                 recommendations := true; assessmentInvitations := true;
                 weeklyDigest := true; frequency := immediate |};
     quietHours := {| quietEnabled := false; startTime := "22:00";
                      endTime := "08:00"; timezone := "UTC" |} |}.

(** An [EmailQueue] document.  [templateData] (a [Mixed] payload that no
    operation below inspects) is left out; dates are time values in
    milliseconds. *)
Record EmailJob : Set := mkEmailJob {
  recipient : N;
  emailType : EmailType;
  subject : string;
  htmlContent : string;
  textContent : option string;
  priority : Priority;
  status : Status;
  scheduledFor : Z;
  attempts : Z;
  lastAttempt : option Z;
  sentAt : option Z;
  failureReason : option string;
  createdAt : Z
}.

(** Assignments to the paths of a document that the code modifies. *)
Definition setStatus (s : Status) (j : EmailJob) : EmailJob :=
  mkEmailJob (recipient j) (emailType j) (subject j) (htmlContent j) (textContent j)
    (priority j) s (scheduledFor j) (attempts j) (lastAttempt j) (sentAt j)
    (failureReason j) (createdAt j).
Definition setScheduledFor (t : Z) (j : EmailJob) : EmailJob :=
  mkEmailJob (recipient j) (emailType j) (subject j) (htmlContent j) (textContent j)
    (priority j) (status j) t (attempts j) (lastAttempt j) (sentAt j)
    (failureReason j) (createdAt j).
Definition setAttempts (n : Z) (j : EmailJob) : EmailJob :=
  mkEmailJob (recipient j) (emailType j) (subject j) (htmlContent j) (textContent j)
    (priority j) (status j) (scheduledFor j) n (lastAttempt j) (sentAt j)
    (failureReason j) (createdAt j).
Definition setLastAttempt (t : option Z) (j : EmailJob) : EmailJob :=
  mkEmailJob (recipient j) (emailType j) (subject j) (htmlContent j) (textContent j)
    (priority j) (status j) (scheduledFor j) (attempts j) t (sentAt j)
    (failureReason j) (createdAt j).
Definition setSentAt (t : option Z) (j : EmailJob) : EmailJob :=
  mkEmailJob (recipient j) (emailType j) (subject j) (htmlContent j) (textContent j)
    (priority j) (status j) (scheduledFor j) (attempts j) (lastAttempt j) t
    (failureReason j) (createdAt j).
Definition setFailureReason (r : option string) (j : EmailJob) : EmailJob :=
  mkEmailJob (recipient j) (emailType j) (subject j) (htmlContent j) (textContent j)
    (priority j) (status j) (scheduledFor j) (attempts j) (lastAttempt j) (sentAt j)
    r (createdAt j).

(** The arguments of [EmailQueue.create] as the producers pass them. *)
Record NewEmail : Set := mkNewEmail {
  newRecipient : N;
  newEmailType : EmailType;
  newSubject : string;
  newHtmlContent : string;
  newPriority : option Priority;
  newScheduledFor : option Z
}.

(** The database: the three collections the pipeline reads and writes. *)
Record Database : Type := mkDatabase {
  EmailQueue : gmap N EmailJob;
  Preferences : gmap N NotificationPreferences;
  Users : gmap N User
}.

(** [EmailQueue.create(doc)] at time [now]: the schema fills in the defaults
    ([priority: "medium"], [status: "pending"], [scheduledFor: Date.now],
    [attempts: 0], [createdAt: Date.now]); [subject] and [htmlContent] are
    [required], which rejects the empty string.  The new [_id] is an id the
    collection does not hold yet. *)
Definition create (now : Z) (d : NewEmail) (q : gmap N EmailJob)
  : Result (N * gmap N EmailJob) :=
  if bool_decide (newSubject d = "") then
    Throw "EmailQueue validation failed: subject: Path `subject` is required."
  else if bool_decide (newHtmlContent d = "") then
    Throw "EmailQueue validation failed: htmlContent: Path `htmlContent` is required."
  else
    let id := fresh (dom q) in
    Ok (id, <[id := {| recipient := newRecipient d;
                       emailType := newEmailType d;
                       subject := newSubject d;
                       htmlContent := newHtmlContent d;
                       textContent := None;
                       priority := default medium (newPriority d);
                       status := pending;
                       scheduledFor := default now (newScheduledFor d);
                       attempts := 0;
                       lastAttempt := None;
                       sentAt := None;
                       failureReason := None;
                       createdAt := now |}]> q).

(** ** [EmailService] *)
Module EmailService.

(** [process.env.EMAIL_PROVIDER || 'development']; any other value is kept
    as it is and rejected when a message is sent. *)
Inductive Provider : Set :=
| development
| sendgrid
| aws_ses
| unknownProvider (value : string).

(** The message handed to a provider back end, after the back end has
    shaped it: the transport invocation. *)
Record Outbound : Set := mkOutbound {
  via : Provider;
  outTo : option string;
  outFrom : option string;
  outSubject : option string;
  outHtml : option string;
  outText : option string;
  outTemplateId : option string
}.

(** The service object and its surroundings: the configured provider,
    [process.env.FROM_EMAIL], the template directory seen through
    [compileTemplate] (a template name renders or throws), the provider
    SDK call (a message id or a throw) and the decimal text of
    [Date.now()] used for development message ids. *)
Record Service : Type := mkService {
  provider : Provider;
  fromEmail : option string;
  compileTemplate : string -> Result string;
  sdkSend : Outbound -> Result string;
  nowText : string
}.

(** The named parameters of [sendEmail] that its body reads. *)
Record SendArgs : Set := mkSendArgs {
  to : option string;
  from : option string;
  argSubject : option string;
  template : option string;
  html : option string;
  text : option string;
  templateId : option string
}.

(** [emailData] as built by [sendEmail]. *)
Record EmailData : Set := mkEmailData {
  dataTo : option string;
  dataFrom : option string;
  dataSubject : option string;
  dataHtml : option string;
  dataText : option string;
  dataTemplateId : option string
}.

Record Receipt : Set := mkReceipt {
  messageId : string;
  receiptProvider : Provider
}.

(** [html.replace(/<[^>]*>/g, '')]: a ["<"] that is followed by a [">"]
    somewhere starts a tag that ends at the first such [">"]. *)
Fixpoint hasGt (s : string) : bool :=
  match s with
  | String c r => (code c =? 62)%N || hasGt r
  | EmptyString => false
  end.

Fixpoint stripTags (inTag : bool) (s : string) : string :=
  match s with
  | String c r =>
      if inTag then stripTags (negb (code c =? 62)%N) r
      else if (code c =? 60)%N && hasGt r then stripTags true r
      else String c (stripTags false r)
  | EmptyString => EmptyString
  end.

(** [.replace(/\s+/g, ' ')], on the ASCII white space ([\s] and [trim]
    take the white space outside ASCII as well). *)
Fixpoint collapseSpaces (inRun : bool) (s : string) : string :=
  match s with
  | String c r =>
      if isWhite c
      then (if inRun then collapseSpaces true r else String " "%char (collapseSpaces true r))
      else String c (collapseSpaces false r)
  | EmptyString => EmptyString
  end.

Definition trim (s : string) : string :=
  String.rev (skipWhite (String.rev (skipWhite s))).

Definition htmlToText (h : string) : string :=
  trim (collapseSpaces false (stripTags false h)).

Definition fallbackHtml (subject : option string) : string :=
  "<h1>" +:+ interpolate subject +:+ "</h1><p>Email content would be here.</p>".

Definition fallbackText (subject : option string) : string :=
  interpolate subject +:+ " - Email content would be here.".

Definition defaultFrom : string := "noreply@jobportal.com".

(** [sendWithSendGrid]: a dynamic template id removes subject and bodies
    from the message. *)
Definition sendWithSendGrid (svc : Service) (d : EmailData)
  : Result Receipt * list Outbound :=
  let sender := orElse (dataFrom d) (orElse (fromEmail svc) (Some defaultFrom)) in
  let msg :=
    if truthy (dataTemplateId d)
    then mkOutbound sendgrid (dataTo d) sender None None None (dataTemplateId d)
    else mkOutbound sendgrid (dataTo d) sender (dataSubject d) (dataHtml d)
           (dataText d) None in
  match sdkSend svc msg with
  | Ok mid => (Ok (mkReceipt mid sendgrid), [msg])
  | Throw e => (Throw e, [msg])
  end.

(** [sendWithAWSSES].  A service that exists under ['aws-ses'] has no
    [this.ses]: without the credentials [initializeAWSSES] returns before
    it sets the field, and with them it goes on to call
    [nodemailer.createTransporter], a function nodemailer does not have, so
    the constructor throws and the module exports no service at all.  The
    parameters are built, then [this.ses.sendEmail(params)] throws a
    [TypeError] on the missing client; the error is logged and thrown
    again, and nothing has been handed to SES. *)
Definition sesClientMissing : string :=
  "Cannot read properties of undefined (reading 'sendEmail')".

Definition sendWithAWSSES (svc : Service) (d : EmailData)
  : Result Receipt * list Outbound :=
  (Throw sesClientMissing, []).

(** [sendWithDevelopmentMode]: the message is logged, never refused. *)
Definition sendWithDevelopmentMode (svc : Service) (d : EmailData)
  : Result Receipt * list Outbound :=
  (Ok (mkReceipt ("dev_" +:+ nowText svc) development),
   [mkOutbound development (dataTo d) (dataFrom d) (dataSubject d) (dataHtml d)
      (dataText d) (dataTemplateId d)]).

(** The body of [sendEmail] after validation: template compilation with
    its fallback, then the dispatch on the provider. *)
Definition emailDataOf (svc : Service) (a : SendArgs) : EmailData :=
  let '(emailHtml, emailText) :=
    match template a with
    | Some (String _ _ as t) =>
        match compileTemplate svc t with
        | Ok h => (Some h, if truthy (text a) then text a else Some (htmlToText h))
        | Throw _ => (Some (fallbackHtml (argSubject a)),
                      Some (fallbackText (argSubject a)))
        end
    | _ => (html a, text a)
    end in
  mkEmailData (to a) (from a) (argSubject a) emailHtml emailText (templateId a).

Definition dispatch (svc : Service) (d : EmailData)
  : Result Receipt * list Outbound :=
  match provider svc with
  | development => sendWithDevelopmentMode svc d
  | sendgrid => sendWithSendGrid svc d
  | aws_ses =>
      if truthy (dataTemplateId d)
      then (Throw "Dynamic templates not supported with AWS SES. Use template parameter instead.", [])
      else sendWithAWSSES svc d
  | unknownProvider _ => (Throw "Invalid email provider configured", [])
  end.

(** [sendEmail]: the result of the call and the transport invocations it
    made (none or one). *)
Definition sendEmail (svc : Service) (a : SendArgs)
  : Result Receipt * list Outbound :=
  if negb (truthy (to a)) then (Throw "Recipient email is required", [])
  else if negb (truthy (argSubject a)) && negb (truthy (template a))
          && negb (truthy (templateId a))
  then (Throw "Subject or template is required", [])
  else dispatch svc (emailDataOf svc a).

End EmailService.

Import EmailService.

(** ** [EmailQueueProcessor] *)

(** The constants set by the constructor. *)
Definition batchSize : nat := 10.
Definition retryAttempts : Z := 3.
Definition retryDelay : Z := 5 * 60 * 1000.

(** The state the processor works on: the database, the transport
    invocations made so far (oldest first) and the processor's
    [isProcessing] flag. *)
Record World : Type := mkWorld {
  database : Database;
  outbox : list Outbound;
  isProcessing : bool
}.

Definition queue (w : World) : gmap N EmailJob := EmailQueue (database w).

Definition withQueue (q : gmap N EmailJob) (w : World) : World :=
  mkWorld (mkDatabase q (Preferences (database w)) (Users (database w)))
    (outbox w) (isProcessing w).

Definition withOutbox (o : list Outbound) (w : World) : World :=
  mkWorld (database w) o (isProcessing w).

Definition withProcessing (b : bool) (w : World) : World :=
  mkWorld (database w) (outbox w) b.

(** [doc.save()] of a loaded document: the modified paths are written to
    the stored document with the same [_id].  (In every run considered
    below that document exists; were it missing, the model writes
    nothing.) *)
Definition save (id : N) (paths : EmailJob -> EmailJob) (w : World) : World :=
  withQueue (alter paths id (queue w)) w.

(** A job as [find(...).populate('recipient', 'name email')] returns it:
    [loaded] is the document and [populated] the recipient's user, [None]
    when that user does not exist. *)
Record Doc : Set := mkDoc {
  docId : N;
  loaded : EmailJob;
  populated : option User
}.

(** The three times [new Date()] is read during one processing attempt:
    when the job is marked, when quiet hours are checked, and when the
    attempt ends (sent, or the retry is scheduled). *)
Record Clock : Set := mkClock {
  atMark : Z;
  atCheck : Z;
  atFinish : Z
}.

(** [typePreferenceMap]: the preference flag that governs an e-mail type. *)
Definition typePreferenceMap (t : EmailType) : option (EmailPrefs -> bool) :=
  match t with
  | job_alert => Some jobMatches
  | application_confirmation => Some applicationUpdates
  | notification_immediate => Some applicationUpdates
  | interview_reminder => Some applicationUpdates
  | daily_digest => Some weeklyDigest
  | weekly_digest => Some weeklyDigest
  | _ => None
  end.

(** [parseInt(time.split(':')[0])] *)
Definition hourOf (time : string) : option Z := parseInt (splitColonHead time).

(** [shouldSkipEmail(emailJob, preferences)], with the host's zone and the
    value [now] of [new Date()] made explicit. *)
Definition shouldSkipEmail (hostOffset now : Z) (emailJob : EmailJob)
    (preferences : option NotificationPreferences) : bool :=
  match preferences with
  | None => true
  | Some p =>
      if negb (enabled (email p)) then true
      else
        let emailPrefs := email p in
        let optedOut :=
          match typePreferenceMap (emailType emailJob) with
          | Some prefKey => negb (prefKey emailPrefs)
          | None => false
          end in
        if optedOut then true
        else if quietEnabled (quietHours p) then
          let currentHour := Some (getHours hostOffset now) in
          let startHour := hourOf (startTime (quietHours p)) in
          let endHour := hourOf (endTime (quietHours p)) in
          if gt startHour endHour
          then (if ge currentHour startHour || le currentHour endHour then true else false)
          else (if ge currentHour startHour && le currentHour endHour then true else false)
        else false
  end.

(** How a call of [processEmailJob] ends: it returns, or an exception
    escapes it. *)
Inductive Completion : Set := Returned | Escaped.

Definition optedOutReason : string := "User has opted out of this email type".

(** [processEmailJob(emailJob)].  When the recipient was not populated,
    [emailJob.recipient._id] throws, and so does the handler's own
    [emailJob.recipient.email]: the exception escapes with the job left as
    it was marked. *)
Definition processEmailJob (svc : Service) (hostOffset : Z) (clk : Clock)
    (emailJob : Doc) (w : World) : World * Completion :=
  let id := docId emailJob in
  let mark (j : EmailJob) :=
    setLastAttempt (Some (atMark clk))
      (setAttempts (attempts (loaded emailJob) + 1) (setStatus processing j)) in
  let job := mark (loaded emailJob) in
  let w := save id mark w in
  match populated emailJob with
  | None => (w, Escaped)
  | Some user =>
      let preferences := Preferences (database w) !! recipient job in
      if shouldSkipEmail hostOffset (atCheck clk) job preferences then
        (save id (fun j => setFailureReason (Some optedOutReason) (setStatus cancelled j)) w,
         Returned)
      else
        let '(result, calls) :=
          sendEmail svc
            {| to := Some (userEmail user); from := None;
               argSubject := Some (subject job); template := None;
               html := Some (htmlContent job); text := textContent job;
               templateId := None |} in
        let w := withOutbox (outbox w ++ calls) w in
        match result with
        | Ok _ =>
            (save id (fun j => setSentAt (Some (atFinish clk)) (setStatus sent j)) w,
             Returned)
        | Throw message =>
            if retryAttempts <=? attempts job then
              (save id (fun j => setFailureReason (Some message) (setStatus failed j)) w,
               Returned)
            else
              (save id (fun j => setScheduledFor (atFinish clk + retryDelay)
                                   (setStatus pending j)) w,
               Returned)
        end
  end.

(** The filter of [processQueue]'s query at time [now]. *)
Definition isDue (now : Z) (j : EmailJob) : bool :=
  bool_decide (status j = pending) && (scheduledFor j <=? now)
  && (attempts j <? retryAttempts).

(** [sort({ priority: -1, createdAt: 1 })].  [priority] is a string field,
    so the database compares the stored names; [-1] puts the greater name
    first, and equal names are ordered by ascending [createdAt]. *)
Definition comparePriority (a b : Priority) : comparison :=
  String.compare (priorityName a) (priorityName b).

Definition sortsBefore (a b : N * EmailJob) : Prop :=
  comparePriority (priority a.2) (priority b.2) = Gt
  \/ (comparePriority (priority a.2) (priority b.2) = Eq
      /\ createdAt a.2 <= createdAt b.2).

Global Instance sortsBefore_dec : RelDecision sortsBefore.
Proof. intros a b. unfold sortsBefore. apply _. Defined.

(** The query of [processQueue]: filter, sort, then [limit(batchSize)]. *)
Definition findPending (now : Z) (q : gmap N EmailJob) : list (N * EmailJob) :=
  take batchSize
    (merge_sort sortsBefore
       (filter (fun e => isDue now e.2 = true) (map_to_list q))).

Definition populate (users : gmap N User) (e : N * EmailJob) : Doc :=
  mkDoc e.1 e.2 (users !! recipient e.2).

(** What one run of [processQueue] reads from outside: the service, the
    host's zone, the time of the query and the clock readings of each
    job's attempt. *)
Record TickEnv : Type := mkTickEnv {
  service : Service;
  hostOffset : Z;
  queryTime : Z;
  clockOf : N -> Clock
}.

(** The [for] loop of [processQueue]: an exception that escapes
    [processEmailJob] ends the loop (it is caught around the loop). *)
Fixpoint processAll (env : TickEnv) (pendingEmails : list Doc) (w : World) : World :=
  match pendingEmails with
  | [] => w
  | emailJob :: rest =>
      match processEmailJob (service env) (hostOffset env)
              (clockOf env (docId emailJob)) emailJob w with
      | (w', Returned) => processAll env rest w'
      | (w', Escaped) => w'
      end
  end.

(** [processQueue()] *)
Definition processQueue (env : TickEnv) (w : World) : World :=
  if isProcessing w then w
  else
    let w := withProcessing true w in
    let pendingEmails :=
      populate (Users (database w)) <$> findPending (queryTime env) (queue w) in
    if bool_decide (length pendingEmails = 0%nat) then withProcessing false w
    else withProcessing false (processAll env pendingEmails w).

(** [cleanupOldEmails()] at time [now]: terminal jobs older than a week are
    deleted; a missing date matches no [$lt] condition. *)
Definition isExpired (now : Z) (j : EmailJob) : bool :=
  let oneWeekAgo := now - 7 * 24 * 60 * 60 * 1000 in
  match status j with
  | sent => match sentAt j with Some t => t <? oneWeekAgo | None => false end
  | failed => match lastAttempt j with Some t => t <? oneWeekAgo | None => false end
  | cancelled => createdAt j <? oneWeekAgo
  | _ => false
  end.

Definition cleanupOldEmails (now : Z) (w : World) : World :=
  withQueue (filter (fun e => isExpired now e.2 = false) (queue w)) w.

(** [createDailyDigestEmail(user)] at time [now]; [compileTemplate] may
    throw, and then nothing is created. *)
Definition createDailyDigestEmail (svc : Service) (now : Z) (user : N) (w : World)
  : Result World :=
  match compileTemplate svc "daily-digest" with
  | Throw e => Throw e
  | Ok htmlContent =>
      match create now (mkNewEmail user daily_digest "Your Daily JobPortal Digest"
                          htmlContent (Some low) (Some now)) (queue w) with
      | Ok (_, q) => Ok (withQueue q w)
      | Throw e => Throw e
      end
  end.

(** [createWeeklyDigestEmail(user)] *)
Definition createWeeklyDigestEmail (svc : Service) (now : Z) (user : N) (w : World)
  : Result World :=
  match compileTemplate svc "weekly-digest" with
  | Throw e => Throw e
  | Ok htmlContent =>
      match create now (mkNewEmail user weekly_digest "Your Weekly JobPortal Summary"
                          htmlContent (Some low) (Some now)) (queue w) with
      | Ok (_, q) => Ok (withQueue q w)
      | Throw e => Throw e
      end
  end.

(** The query of the digest generators,
    [User.find({}).populate('notificationPreferences').where(path).equals(value)],
    filters the [User] collection on [path].  A stored user has the paths
    of [userSchema], and [notificationPreferences] is not one of them: the
    preferences are a collection of their own, keyed by user.  The path is
    missing in every user, and a missing path equals no value.  (Where the
    library refuses to populate a path that the schema lacks, the query
    throws instead; the generator catches the error and likewise creates
    nothing.) *)
Inductive QueryValue : Set :=
| QueryString (s : string)
| QueryBool (b : bool).

Global Instance QueryValue_eq_dec : EqDecision QueryValue.
Proof. solve_decision. Defined.

(** The value of a path of [userSchema] in a stored user, for the paths
    the model carries. *)
Definition userPath (u : User) (path : string) : option QueryValue :=
  if bool_decide (path = "name") then Some (QueryString (name u))
  else if bool_decide (path = "email") then Some (QueryString (userEmail u))
  else None.

Definition findUsersWhere (path : string) (value : QueryValue) (users : gmap N User)
  : list N :=
  (filter (fun e => userPath e.2 path = Some value) (map_to_list users)).*1.

(** The loop of [generateDailyDigests()] over the users its query returned;
    the first exception ends the run (it is caught and logged). *)
Fixpoint generateDigests (createOne : N -> World -> Result World)
    (users : list N) (w : World) : World :=
  match users with
  | [] => w
  | user :: rest =>
      match createOne user w with
      | Ok w' => generateDigests createOne rest w'
      | Throw _ => w
      end
  end.

Definition generateDailyDigests (svc : Service) (now : Z) (w : World) : World :=
  let users :=
    findUsersWhere "notificationPreferences.preferences.email.frequency"
      (QueryString "daily") (Users (database w)) in
  generateDigests (createDailyDigestEmail svc now) users w.

Definition generateWeeklyDigests (svc : Service) (now : Z) (w : World) : World :=
  let users :=
    findUsersWhere "notificationPreferences.preferences.email.weeklyDigest"
      (QueryBool true) (Users (database w)) in
  generateDigests (createWeeklyDigestEmail svc now) users w.

(** ** The admin actions of the e-mail controller *)

(** [retryFailedEmail]: the outcome of the request and the new state. *)
Inductive Response : Set :=
| Success
| Denied          (* 403 Access denied. Admin only. *)
| NotFound        (* 404 Email job not found *)
| Rejected.       (* 400 the job is not in a state the action accepts *)

Definition retryFailedEmail (isAdmin : bool) (now : Z) (emailId : N) (w : World)
  : Response * World :=
  if negb isAdmin then (Denied, w)
  else
    match queue w !! emailId with
    | None => (NotFound, w)
    | Some emailJob =>
        if negb (bool_decide (status emailJob = failed)) then (Rejected, w)
        else
          (Success,
           save emailId
             (fun j => setFailureReason None
                         (setScheduledFor now (setAttempts 0 (setStatus pending j)))) w)
    end.

Definition cancelledByAdmin : string := "Cancelled by admin".

Definition cancelEmail (isAdmin : bool) (emailId : N) (w : World)
  : Response * World :=
  if negb isAdmin then (Denied, w)
  else
    match queue w !! emailId with
    | None => (NotFound, w)
    | Some emailJob =>
        if negb (bool_decide (status emailJob = pending)
                 || bool_decide (status emailJob = processing))
        then (Rejected, w)
        else
          (Success,
           save emailId
             (fun j => setFailureReason (Some cancelledByAdmin) (setStatus cancelled j)) w)
    end.

(** ** The life of a queue: operations and reachable states *)

(** What can happen to the queue: a producer enqueues a message, the
    scheduler runs the processor, the digest generators or the retention
    sweep, an admin retries or cancels a job, a user saves or deletes
    preferences. *)
Inductive Operation : Type :=
| Enqueue (now : Z) (d : NewEmail)
| Tick (env : TickEnv)
| DailyDigests (svc : Service) (now : Z)
| WeeklyDigests (svc : Service) (now : Z)
| AdminRetry (isAdmin : bool) (now : Z) (emailId : N)
| AdminCancel (isAdmin : bool) (emailId : N)
| Cleanup (now : Z)
| SetPreferences (user : N) (p : option NotificationPreferences).

Definition enqueue (now : Z) (d : NewEmail) (w : World) : World :=
  match create now d (queue w) with
  | Ok (_, q) => withQueue q w
  | Throw _ => w
  end.

Definition setPreferences (user : N) (p : option NotificationPreferences)
    (w : World) : World :=
  mkWorld
    (mkDatabase (EmailQueue (database w))
       (match p with
        | Some v => <[user := v]> (Preferences (database w))
        | None => delete user (Preferences (database w))
        end)
       (Users (database w)))
    (outbox w) (isProcessing w).

Definition perform (op : Operation) (w : World) : World :=
  match op with
  | Enqueue now d => enqueue now d w
  | Tick env => processQueue env w
  | DailyDigests svc now => generateDailyDigests svc now w
  | WeeklyDigests svc now => generateWeeklyDigests svc now w
  | AdminRetry isAdmin now emailId => (retryFailedEmail isAdmin now emailId w).2
  | AdminCancel isAdmin emailId => (cancelEmail isAdmin emailId w).2
  | Cleanup now => cleanupOldEmails now w
  | SetPreferences user p => setPreferences user p w
  end.

(** Operations handled one after the other, each from its first statement
    to its last.  Requests and scheduler calls that are handled while
    another one awaits are not of this form: see [markAttempt] and
    [completeAttempt] for an attempt cut at its await, and [play] for
    overlapping runs of the processor. *)
Definition run (ops : list Operation) (w : World) : World :=
  foldl (fun w op => perform op w) w ops.




(** The effect of one processing attempt on the stored job, by the way the
    attempt ends. *)
Section Attempt.
Variables (clk : Clock) (emailJob : Doc).

Definition marked (j : EmailJob) : EmailJob :=
  setLastAttempt (Some (atMark clk))
    (setAttempts (attempts (loaded emailJob) + 1) (setStatus processing j)).

Inductive AttemptEffect : (EmailJob -> EmailJob) -> list Outbound -> Prop :=
| effect_stuck :
    populated emailJob = None ->
    AttemptEffect marked []
| effect_cancelled :
    AttemptEffect
      (fun j => setFailureReason (Some optedOutReason) (setStatus cancelled (marked j))) []
| effect_sent calls :
    AttemptEffect
      (fun j => setSentAt (Some (atFinish clk)) (setStatus sent (marked j))) calls
| effect_failed message calls :
    retryAttempts <= attempts (loaded emailJob) + 1 ->
    AttemptEffect
      (fun j => setFailureReason (Some message) (setStatus failed (marked j))) calls
| effect_retry calls :
    attempts (loaded emailJob) + 1 < retryAttempts ->
    AttemptEffect
      (fun j => setScheduledFor (atFinish clk + retryDelay) (setStatus pending (marked j)))
      calls.
End Attempt.

(** ** Overlapping runs of [processQueue]

    JavaScript runs one piece of code at a time and switches between
    pending calls only where a call awaits.  A run of [processQueue] is cut
    at those points: the guard and the raising of the flag, the query, one
    job of the loop, the lowering of the flag.  (Cutting [processEmailJob]
    further, at its own awaits, would add schedules but change none of the
    steps that touch the flag.) *)
Inductive Phase : Type :=
| Scheduled
| Querying
| Working (pendingEmails : list Doc)
| Finished.

Definition advance (env : TickEnv) (p : Phase) (w : World) : Phase * World :=
  match p with
  | Scheduled =>
      if isProcessing w then (Finished, w)
      else (Querying, withProcessing true w)
  | Querying =>
      let pendingEmails :=
        populate (Users (database w)) <$> findPending (queryTime env) (queue w) in
      if bool_decide (length pendingEmails = 0%nat)
      then (Finished, withProcessing false w)
      else (Working pendingEmails, w)
  | Working [] => (Finished, withProcessing false w)
  | Working (emailJob :: rest) =>
      match processEmailJob (service env) (hostOffset env)
              (clockOf env (docId emailJob)) emailJob w with
      | (w', Returned) => (Working rest, w')
      | (w', Escaped) => (Finished, withProcessing false w')
      end
  | Finished => (Finished, w)
  end.

Definition active (p : Phase) : bool :=
  match p with
  | Querying | Working _ => true
  | _ => false
  end.

(** A call of [processQueue] made by the scheduler, with what it will read
    from outside. *)
Record Run : Type := mkRun {
  runEnv : TickEnv;
  phase : Phase
}.

(** A processor instance is the object the module exports: one per server
    process, with its own [isProcessing] flag and its own calls. *)
Record Instance : Type := mkInstance {
  flag : bool;
  runs : list Run
}.

(** Server processes share the database and the mail transport. *)
Record System : Type := mkSystem {
  shared : Database;
  transported : list Outbound;
  instances : list Instance
}.

(** Run [i] of instance [k] takes its next step. *)
Definition stepAt (k i : nat) (s : System) : System :=
  match instances s !! k with
  | None => s
  | Some inst =>
      match runs inst !! i with
      | None => s
      | Some r =>
          let '(p, w) :=
            advance (runEnv r) (phase r)
              (mkWorld (shared s) (transported s) (flag inst)) in
          mkSystem (database w) (outbox w)
            (<[k := mkInstance (isProcessing w)
                      (<[i := mkRun (runEnv r) p]> (runs inst))]> (instances s))
      end
  end.

(** A schedule names, step by step, the instance and the run that moves. *)
Definition play (schedule : list (nat * nat)) (s : System) : System :=
  foldl (fun s ki => stepAt ki.1 ki.2 s) s schedule.

Fixpoint activeCount (rs : list Run) : nat :=
  match rs with
  | [] => 0
  | r :: rest => (if active (phase r) then 1 else 0) + activeCount rest
  end.

(** The flag of an instance is up exactly while one of its runs is between
    the guard and the end. *)
Definition settled (inst : Instance) : Prop :=
  activeCount (runs inst) = if flag inst then 1%nat else 0%nat.

(** One run taken alone, stepped [n] times. *)
Fixpoint advanceN (n : nat) (env : TickEnv) (p : Phase) (w : World) : Phase * World :=
  match n with
  | O => (p, w)
  | S n => let '(p', w') := advance env p w in advanceN n env p' w'
  end.

(** A flag or an activity counted as 0 or 1. *)
Definition weight (b : bool) : nat := if b then 1 else 0.

(** An instance that has not begun any of its runs. *)
Definition idle (inst : Instance) : Prop :=
  flag inst = false /\ Forall (fun r => phase r = Scheduled) (runs inst).

(** The arguments [processEmailJob] passes to [sendEmail] for a job and its
    populated recipient. *)
Definition deliveryArgs (user : User) (job : EmailJob) : SendArgs :=
  {| to := Some (userEmail user); from := None;
     argSubject := Some (subject job); template := None;
     html := Some (htmlContent job); text := textContent job;
     templateId := None |}.

(** The stored job after an attempt that was skipped. *)
Definition skippedJob (clk : Clock) (j : EmailJob) : EmailJob :=
  setFailureReason (Some optedOutReason)
    (setStatus cancelled
       (setLastAttempt (Some (atMark clk))
          (setAttempts (attempts j + 1) (setStatus processing j)))).

(** ** An attempt cut at its first save

    [processEmailJob] awaits the database and the mail service; a request
    handled by the server (an admin action) can run at any of these awaits.
    [markAttempt] is the function up to its first save, [completeAttempt]
    everything after it, working on the document in memory as it was
    marked. *)
Definition markAttempt (clk : Clock) (emailJob : Doc) (w : World) : World :=
  save (docId emailJob) (marked clk emailJob) w.

Definition completeAttempt (svc : Service) (hostOffset : Z) (clk : Clock)
    (emailJob : Doc) (w : World) : World * Completion :=
  let id := docId emailJob in
  let job := marked clk emailJob (loaded emailJob) in
  match populated emailJob with
  | None => (w, Escaped)
  | Some user =>
      let preferences := Preferences (database w) !! recipient job in
      if shouldSkipEmail hostOffset (atCheck clk) job preferences then
        (save id (fun j => setFailureReason (Some optedOutReason) (setStatus cancelled j)) w,
         Returned)
      else
        let '(result, calls) := sendEmail svc (deliveryArgs user job) in
        let w := withOutbox (outbox w ++ calls) w in
        match result with
        | Ok _ =>
            (save id (fun j => setSentAt (Some (atFinish clk)) (setStatus sent j)) w,
             Returned)
        | Throw message =>
            if retryAttempts <=? attempts job then
              (save id (fun j => setFailureReason (Some message) (setStatus failed j)) w,
               Returned)
            else
              (save id (fun j => setScheduledFor (atFinish clk + retryDelay)
                                   (setStatus pending j)) w,
               Returned)
        end
  end.

(** No retention sweep among [ops] finds job [j] expired. *)
Definition keptBySweeps (j : EmailJob) (ops : list Operation) : Prop :=
  Forall (fun op => match op with
                    | Cleanup now => isExpired now j = false
                    | _ => True
                    end) ops.

(** A batch is coherent with the queue when every document in it is stored
    as loaded, due, and no id occurs twice. *)
Definition coherent (now : Z) (docs : list Doc) (q : gmap N EmailJob) : Prop :=
  NoDup (docId <$> docs)
  /\ forall d, d ∈ docs -> q !! docId d = Some (loaded d) /\ isDue now (loaded d) = true.

(** ** Counting digest jobs *)

(** The number of queued jobs of one e-mail type addressed to one user. *)
Definition digestJobs (kind : EmailType) (user : N) (q : gmap N EmailJob) : nat :=
  size (filter (fun e => recipient e.2 = user /\ emailType e.2 = kind) q).

(** ** The quiet-hours window in the words of the specification *)

(** Minutes east of UTC of a few zones that keep one offset all year. *)
Definition fixedZoneOffset (zone : string) : option Z :=
  if bool_decide (zone = "UTC") then Some 0
  else if bool_decide (zone = "Asia/Tokyo") then Some 540
  else if bool_decide (zone = "Asia/Kolkata") then Some 330
  else None.

(** Membership of an hour in the window: [hour >= start OR hour <= end]
    when the window wraps midnight, [start <= hour <= end] otherwise. *)
Definition specInWindow (hour startHour endHour : Z) : bool :=
  if endHour <? startHour
  then (startHour <=? hour) || (hour <=? endHour)
  else (startHour <=? hour) && (hour <=? endHour).

(** The specification's test: the current hour of [now] in the profile's
    own zone, against the profile's window.  [None] when the zone is not
    one of the fixed zones above or a time does not start with a number. *)
Definition specQuietNow (now : Z) (qh : QuietHours) : option bool :=
  offset ← fixedZoneOffset (timezone qh);
  startHour ← hourOf (startTime qh);
  endHour ← hourOf (endTime qh);
  Some (quietEnabled qh && specInWindow (getHours offset now) startHour endHour).

(** ** Sample data *)
Module Sample.

Definition hour : Z := 3600000.

Definition ann : User := mkUser "Ann" "ann@example.com".

Definition users : gmap N User := {[ 7%N := ann ]}.

Definition job (ty : EmailType) (subj : string) (p : Priority) (created : Z)
  : EmailJob :=
  {| recipient := 7; emailType := ty; subject := subj;
     htmlContent := "<p>Hello</p>"; textContent := None; priority := p;
     status := pending; scheduledFor := created; attempts := 0;
     lastAttempt := None; sentAt := None; failureReason := None;
     createdAt := created |}.

(** A service in development mode whose template directory is empty. *)
Definition devService : Service :=
  mkService development None (fun _ => Throw "ENOENT: no such file or directory")
    (fun _ => Ok "unused") "1700000000000".

(** A SendGrid service whose templates render and whose SDK call fails. *)
Definition failingService : Service :=
  mkService sendgrid None (fun _ => Ok "<p>digest</p>")
    (fun _ => Throw "connect ETIMEDOUT") "1700000000000".

(** A development service whose templates render. *)
Definition renderingService : Service :=
  mkService development None (fun _ => Ok "<p>digest</p>")
    (fun _ => Ok "unused") "1700000000000".

Definition quietFrom22To8 (zone : string) : NotificationPreferences :=
  {| email := email defaultPreferences;
     quietHours := {| quietEnabled := true; startTime := "22:00";
                      endTime := "08:00"; timezone := zone |} |}.

Definition emailDisabled : NotificationPreferences :=
  {| email := mkEmailPrefs false true true true true true true true immediate;
     quietHours := quietHours defaultPreferences |}.

Definition world (q : gmap N EmailJob) (prefs : gmap N NotificationPreferences)
  : World :=
  mkWorld (mkDatabase q prefs users) [] false.

(** A run on a host on UTC at 23:00 of the first day. *)
Definition at23 (svc : Service) : TickEnv :=
  mkTickEnv svc 0 (23 * hour)
    (fun _ => mkClock (23 * hour) (23 * hour + 1) (23 * hour + 2)).

(** A run on a host on UTC at 14:00 of the first day. *)
Definition at14 (svc : Service) : TickEnv :=
  mkTickEnv svc 0 (14 * hour)
    (fun _ => mkClock (14 * hour) (14 * hour + 1) (14 * hour + 2)).

Definition oneJob : gmap N EmailJob :=
  {[ 1%N := job job_alert "New matches" medium 0 ]}.

Definition threePriorities : gmap N EmailJob :=
  {[ 1%N := job welcome "high job" high 10;
     2%N := job job_alert "medium job" medium 20;
     3%N := job daily_digest "low job" low 30 ]}.

End Sample.

(** More sample data: the loaded form of job 1 of [Sample.oneJob] and the
    clock of an attempt at 23:00 and at 14:00. *)
Module SampleAttempt.
Import Sample.

Definition doc1 : Doc := mkDoc 1 (job job_alert "New matches" medium 0) (Some ann).


Definition clock14 : Clock := mkClock (14 * hour) (14 * hour + 1) (14 * hour + 2).


Definition disabledWorld : World := world oneJob {[ 7%N := emailDisabled ]}.

Definition defaultWorld : World := world oneJob {[ 7%N := defaultPreferences ]}.

Definition noPreferencesWorld : World := world oneJob ∅.

End SampleAttempt.

(** Sample calls of [sendEmail] with a template. *)
Module SampleSend.

(** [sendEmail({ to, subject, template })] *)
Definition welcomeCall : SendArgs :=
  {| to := Some "ann@example.com"; from := None;
     argSubject := Some "Welcome to JobPortal!"; template := Some "welcome";
     html := None; text := None; templateId := None |}.

End SampleSend.

(** Two server processes, each about to run [processQueue] once at 14:00,
    over a queue that holds one pending job. *)
Module SampleRace.

Definition twoProcesses : System :=
  mkSystem (database SampleAttempt.defaultWorld) []
    [ mkInstance false [mkRun (Sample.at14 Sample.devService) Scheduled];
      mkInstance false [mkRun (Sample.at14 Sample.devService) Scheduled] ].

(** Both pass their guard and load the batch before either works on it. *)
Definition bothLoadFirst : list (nat * nat) :=
  [ (0, 0); (0, 0); (1, 0); (1, 0); (0, 0); (1, 0); (0, 0); (1, 0) ]%nat.

(** One process whose scheduler fires twice. *)
Definition oneProcess : System :=
  mkSystem (database SampleAttempt.defaultWorld) []
    [ mkInstance false [mkRun (Sample.at14 Sample.devService) Scheduled;
                        mkRun (Sample.at14 Sample.devService) Scheduled] ].

(** The second call arrives while the first is still working. *)
Definition secondArrivesEarly : list (nat * nat) :=
  [ (0, 0); (0, 0); (0, 1); (0, 0); (0, 0) ]%nat.

End SampleRace.

(** A job whose transport fails on every attempt: enqueued at time 0,
    attempted at 01:00, 02:00 and 03:00. *)
Module SampleLife.

Definition atHour (n : Z) (svc : Service) : TickEnv :=
  mkTickEnv svc 0 (n * Sample.hour)
    (fun _ => mkClock (n * Sample.hour) (n * Sample.hour + 1) (n * Sample.hour + 2)).

Definition start : World := Sample.world ∅ {[ 7%N := defaultPreferences ]}.

Definition threeFailures : list Operation :=
  [ Enqueue 0 (mkNewEmail 7 job_alert "New matches" "<p>Hello</p>" None None);
    Tick (atHour 1 Sample.failingService);
    Tick (atHour 2 Sample.failingService);
    Tick (atHour 3 Sample.failingService) ].

Definition exhausted : EmailJob :=
  {| recipient := 7; emailType := job_alert; subject := "New matches";
     htmlContent := "<p>Hello</p>"; textContent := None; priority := medium;
     status := failed; scheduledFor := 7500002; attempts := 3;
     lastAttempt := Some 10800000; sentAt := None;
     failureReason := Some "connect ETIMEDOUT"; createdAt := 0 |}.

End SampleLife.

(** ** [getQueueStats] *)

Definition allStatuses : list Status := [pending; processing; sent; failed; cancelled].

Definition countStatus (s : Status) (q : gmap N EmailJob) : nat :=
  length (filter (fun e => status e.2 = s) (map_to_list q)).

(** The [$group] stage of the aggregation: one group, with its count, for
    each status that occurs in the collection. *)
Definition groupByStatus (q : gmap N EmailJob) : list (Status * nat) :=
  filter (fun g => g.2 <> 0%nat) ((fun s => (s, countStatus s q)) <$> allStatuses).

Record QueueStats : Set := mkQueueStats {
  statPending : nat;
  statProcessing : nat;
  statSent : nat;
  statFailed : nat;
  statCancelled : nat
}.

(** [result[stat._id] = stat.count] *)
Definition assignStat (result : QueueStats) (stat : Status * nat) : QueueStats :=
  match stat.1 with
  | pending => mkQueueStats stat.2 (statProcessing result) (statSent result)
                 (statFailed result) (statCancelled result)
  | processing => mkQueueStats (statPending result) stat.2 (statSent result)
                    (statFailed result) (statCancelled result)
  | sent => mkQueueStats (statPending result) (statProcessing result) stat.2
              (statFailed result) (statCancelled result)
  | failed => mkQueueStats (statPending result) (statProcessing result)
                (statSent result) stat.2 (statCancelled result)
  | cancelled => mkQueueStats (statPending result) (statProcessing result)
                   (statSent result) (statFailed result) stat.2
  end.

Definition getQueueStats (w : World) : QueueStats :=
  foldl assignStat (mkQueueStats 0 0 0 0 0) (groupByStatus (queue w)).

(** ** [sendTransactionalEmail] *)

(** The own keys of the [templates] table: subject and template name. *)
Definition transactionalTemplates (type : string) : option (string * string) :=
  if bool_decide (type = "welcome") then Some ("Welcome to JobPortal!", "welcome")
  else if bool_decide (type = "passwordReset")
       then Some ("Password Reset Request", "password-reset")
  else if bool_decide (type = "emailVerification")
       then Some ("Verify Your Email Address", "email-verification")
  else if bool_decide (type = "jobAlert")
       then Some ("New Job Matches Found!", "job-alert")
  else if bool_decide (type = "applicationReceived")
       then Some ("Application Received", "application-received")
  else if bool_decide (type = "applicationStatusUpdate")
       then Some ("Application Status Update", "application-status-update")
  else if bool_decide (type = "interviewScheduled")
       then Some ("Interview Scheduled", "interview-scheduled")
  else if bool_decide (type = "connectionRequest")
       then Some ("New Connection Request", "connection-request")
  else if bool_decide (type = "skillEndorsement")
       then Some ("Skill Endorsed", "skill-endorsement")
  else if bool_decide (type = "weeklyDigest")
       then Some ("Your Weekly Job Portal Digest", "weekly-digest")
  else None.

(** The table is an object literal: a key it does not own is still found
    when [Object.prototype] has it, and the value found there (a function
    or an object) is truthy and has neither [subject] nor [template]. *)
Definition objectPrototypeKeys : list string :=
  [ "constructor"; "__defineGetter__"; "__defineSetter__"; "hasOwnProperty";
    "__lookupGetter__"; "__lookupSetter__"; "isPrototypeOf";
    "propertyIsEnumerable"; "toString"; "valueOf"; "__proto__";
    "toLocaleString" ].

Definition sendTransactionalEmail (svc : Service) (type : string)
    (recipientEmail : option string) : Result Receipt * list Outbound :=
  match transactionalTemplates type with
  | Some (subject, template) =>
      sendEmail svc
        {| to := recipientEmail; from := None; argSubject := Some subject;
           template := Some template; html := None; text := None;
           templateId := None |}
  | None =>
      if bool_decide (type ∈ objectPrototypeKeys) then
        sendEmail svc
          {| to := recipientEmail; from := None; argSubject := None;
             template := None; html := None; text := None; templateId := None |}
      else (Throw ("Unknown email template type: " +:+ type), [])
  end.

(** ** Notifications *)

(** [notificationSchema.type] *)
Inductive NotificationType : Set :=
| job_match | job_application | application_status_change | interview_scheduled
| connection_request | connection_accepted | skill_endorsed
| recommendation_request | recommendation_received
| assessment_invitation | assessment_completed | skill_verified
| profile_viewed | message_received | system_announcement
| activity_liked | activity_commented | new_follower.

(** [notificationSchema.priority] *)
Inductive NotificationPriority : Set :=
| priorityLow | priorityMedium | priorityHigh | priorityUrgent.

(** [notificationSchema.category] *)
Inductive Category : Set :=
| categoryJob | categoryNetwork | categoryAssessment | categorySystem
| categoryActivity.

Global Instance NotificationType_eq_dec : EqDecision NotificationType.
Proof. solve_decision. Defined.
Global Instance NotificationPriority_eq_dec : EqDecision NotificationPriority.
Proof. solve_decision. Defined.

(** A [Notification] document ([data] is left out: nothing below reads
    it). *)
Record Notification : Set := mkNotification {
  notifRecipient : N;
  sender : option N;
  notifType : NotificationType;
  title : string;
  message : string;
  notifPriority : NotificationPriority;
  category : Category;
  isRead : bool;
  isArchived : bool;
  readAt : option Z;
  notifCreatedAt : Z;
  expiresAt : option Z
}.

(** A [NotificationTemplate] document, as far as the e-mail path reads
    it.  [type] is [unique]: the collection is keyed by it. *)
Record NotificationTemplate : Set := mkNotificationTemplate {
  emailSubject : option string;
  emailTemplate : option string;
  isActive : bool
}.

(** [getEmailTypeForNotification] *)
Definition getEmailTypeForNotification (notificationType : NotificationType)
  : EmailType :=
  match notificationType with
  | job_match => job_alert
  | job_application => application_confirmation
  | interview_scheduled => interview_reminder
  | _ => notification_immediate
  end.

(** [shouldSendEmailForType] *)
Definition shouldSendEmailForType (preferences : NotificationPreferences)
    (notificationType : NotificationType) : bool :=
  let emailPrefs := email preferences in
  let typeMap : option (EmailPrefs -> bool) :=
    match notificationType with
    | job_match => Some jobMatches
    | job_application => Some applicationUpdates
    | application_status_change => Some applicationUpdates
    | connection_request => Some connectionRequests
    | connection_accepted => Some connectionRequests
    | skill_endorsed => Some endorsements
    | recommendation_request => Some recommendations
    | recommendation_received => Some recommendations
    | assessment_invitation => Some assessmentInvitations
    | assessment_completed => Some assessmentInvitations
    | _ => None
    end in
  match typeMap with
  | Some prefKey => prefKey emailPrefs
  | None => true
  end.

(** [queueEmailNotification(notification)] at time [now]; every error is
    caught and logged. *)
Definition queueEmailNotification
    (templates : NotificationType -> option NotificationTemplate) (now : Z)
    (notification : Notification) (w : World) : World :=
  match Preferences (database w) !! notifRecipient notification with
  | None => w
  | Some preferences =>
      if negb (enabled (email preferences)) then w
      else
        let emailType := getEmailTypeForNotification (notifType notification) in
        if negb (shouldSendEmailForType preferences (notifType notification)) then w
        else
          match templates (notifType notification) with
          | None => w
          | Some template =>
              if negb (isActive template) then w
              else
                match emailTemplate template with
                | Some (String _ _ as htmlContent) =>
                    match create now
                            {| newRecipient := notifRecipient notification;
                               newEmailType := emailType;
                               newSubject :=
                                 if truthy (emailSubject template)
                                 then default "" (emailSubject template)
                                 else title notification;
                               newHtmlContent := htmlContent;
                               newPriority :=
                                 Some (if bool_decide
                                            (notifPriority notification = priorityUrgent)
                                       then high else medium);
                               newScheduledFor := None |} (queue w) with
                    | Ok (_, q) => withQueue q w
                    | Throw _ => w
                    end
                | _ => w
                end
          end
  end.

(** The arguments of [Notification.create] as the producers pass them. *)
Record NewNotification : Set := mkNewNotification {
  newNotifRecipient : N;
  newSender : option N;
  newNotifType : NotificationType;
  newTitle : string;
  newMessage : string;
  newCategory : Category;
  newNotifPriority : option NotificationPriority;
  newExpiresAt : option Z
}.

(** [Notification.create(doc)] at time [now]: [title] and [message] are
    required and bounded ([maxLength] 200 and 500); the schema fills in
    [priority: "medium"], [isRead: false], [isArchived: false] and
    [createdAt]. *)
Definition createNotificationDoc (now : Z) (d : NewNotification)
    (ns : gmap N Notification) : Result (N * Notification * gmap N Notification) :=
  if bool_decide (newTitle d = "") then
    Throw "Notification validation failed: title: Path `title` is required."
  else if bool_decide (200 < utf16Length (newTitle d))%nat then
    Throw "Notification validation failed: title is longer than the maximum allowed length (200)."
  else if bool_decide (newMessage d = "") then
    Throw "Notification validation failed: message: Path `message` is required."
  else if bool_decide (500 < utf16Length (newMessage d))%nat then
    Throw "Notification validation failed: message is longer than the maximum allowed length (500)."
  else
    let id := fresh (dom ns) in
    let n :=
      {| notifRecipient := newNotifRecipient d; sender := newSender d;
         notifType := newNotifType d; title := newTitle d; message := newMessage d;
         notifPriority := default priorityMedium (newNotifPriority d);
         category := newCategory d; isRead := false; isArchived := false;
         readAt := None; notifCreatedAt := now; expiresAt := newExpiresAt d |} in
    Ok (id, n, <[id := n]> ns).

(** The notification side of the portal next to the e-mail side. *)
Record Portal : Type := mkPortal {
  notifications : gmap N Notification;
  mail : World
}.

(** [createNotification(notificationData)]: the notification is stored,
    then the e-mail is queued; only the first step can make the call throw.
    (The push to open sockets, whose errors are caught as well, is left
    out.) *)
Definition createNotification
    (templates : NotificationType -> option NotificationTemplate) (now : Z)
    (notificationData : NewNotification) (p : Portal) : Result (N * Portal) :=
  match createNotificationDoc now notificationData (notifications p) with
  | Throw e => Throw e
  | Ok (id, notification, ns) =>
      Ok (id, mkPortal ns (queueEmailNotification templates now notification (mail p)))
  end.

(** [notificationSchema.methods.markAsRead] *)
Definition markAsRead (now : Z) (n : Notification) : Notification :=
  mkNotification (notifRecipient n) (sender n) (notifType n) (title n) (message n)
    (notifPriority n) (category n) true (isArchived n) (Some now)
    (notifCreatedAt n) (expiresAt n).

(** [notificationSchema.methods.archive] *)
Definition archive (n : Notification) : Notification :=
  mkNotification (notifRecipient n) (sender n) (notifType n) (title n) (message n)
    (notifPriority n) (category n) (isRead n) true (readAt n)
    (notifCreatedAt n) (expiresAt n).

(** [findOne({ _id: notificationId, recipient: userId })] *)
Definition findOwn (userId notificationId : N) (ns : gmap N Notification)
  : option Notification :=
  match ns !! notificationId with
  | Some n => if bool_decide (notifRecipient n = userId) then Some n else None
  | None => None
  end.

(** [markNotificationAsRead] *)
Definition markNotificationAsRead (userId notificationId : N) (now : Z)
    (ns : gmap N Notification) : Response * gmap N Notification :=
  match findOwn userId notificationId ns with
  | None => (NotFound, ns)
  | Some notification => (Success, <[notificationId := markAsRead now notification]> ns)
  end.

(** [markAllAsRead]: [updateMany({ recipient, isRead: false }, ...)] *)
Definition markAllAsRead (userId : N) (now : Z) (ns : gmap N Notification)
  : gmap N Notification :=
  (fun n => if bool_decide (notifRecipient n = userId) && negb (isRead n)
            then markAsRead now n else n) <$> ns.

(** [archiveNotification] *)
Definition archiveNotification (userId notificationId : N)
    (ns : gmap N Notification) : Response * gmap N Notification :=
  match findOwn userId notificationId ns with
  | None => (NotFound, ns)
  | Some notification => (Success, <[notificationId := archive notification]> ns)
  end.

(** [deleteNotification]: [findOneAndDelete] with the same filter. *)
Definition deleteNotification (userId notificationId : N)
    (ns : gmap N Notification) : Response * gmap N Notification :=
  match findOwn userId notificationId ns with
  | None => (NotFound, ns)
  | Some _ => (Success, delete notificationId ns)
  end.

(** The socket handler of [mark_notification_read]:
    [findByIdAndUpdate(notificationId, { isRead: true, readAt })]. *)
Definition socketMarkRead (notificationId : N) (now : Z)
    (ns : gmap N Notification) : gmap N Notification :=
  alter (markAsRead now) notificationId ns.

(** The unread count the handlers report:
    [countDocuments({ recipient, isRead: false, isArchived: false })]. *)
Definition unreadCount (userId : N) (ns : gmap N Notification) : nat :=
  size (filter (fun e => notifRecipient e.2 = userId /\ isRead e.2 = false
                         /\ isArchived e.2 = false) ns).

(** What users and producers do to the notifications. *)
Inductive NotificationOp : Set :=
| CreateNotification (now : Z) (d : NewNotification)
| MarkRead (userId notificationId : N) (now : Z)
| MarkAllRead (userId : N) (now : Z)
| Archive (userId notificationId : N)
| Delete (userId notificationId : N)
| SocketMarkRead (notificationId : N) (now : Z).

Definition performNotificationOp (op : NotificationOp) (ns : gmap N Notification)
  : gmap N Notification :=
  match op with
  | CreateNotification now d =>
      match createNotificationDoc now d ns with
      | Ok (_, _, ns') => ns'
      | Throw _ => ns
      end
  | MarkRead userId notificationId now =>
      (markNotificationAsRead userId notificationId now ns).2
  | MarkAllRead userId now => markAllAsRead userId now ns
  | Archive userId notificationId => (archiveNotification userId notificationId ns).2
  | Delete userId notificationId => (deleteNotification userId notificationId ns).2
  | SocketMarkRead notificationId now => socketMarkRead notificationId now ns
  end.

Definition runNotificationOps (ops : list NotificationOp) (ns : gmap N Notification)
  : gmap N Notification :=
  foldl (fun ns op => performNotificationOp op ns) ns ops.

(** No admin cancel among [ops] names job [id]. *)
Definition notCancelling (id : N) (ops : list Operation) : Prop :=
  Forall (fun op => match op with
                    | AdminCancel true emailId => emailId <> id
                    | _ => True
                    end) ops.

(** A queue whose first job is addressed to a user that was deleted. *)
Module SampleOrphan.

Definition orphan : EmailJob :=
  {| recipient := 9; emailType := job_alert; subject := "New matches";
     htmlContent := "<p>Hello</p>"; textContent := None; priority := medium;
     status := pending; scheduledFor := 0; attempts := 0;
     lastAttempt := None; sentAt := None; failureReason := None;
     createdAt := 0 |}.

Definition orphanDoc : Doc := mkDoc 1 orphan None.

Definition nextDoc : Doc :=
  mkDoc 2 (Sample.job welcome "Welcome" high 5) (Some Sample.ann).

Definition start : World :=
  Sample.world {[ 1%N := orphan; 2%N := Sample.job welcome "Welcome" high 5 ]}
    {[ 7%N := defaultPreferences ]}.

Definition later : list Operation :=
  [ Tick (Sample.at23 Sample.devService); AdminRetry true (23 * Sample.hour) 1;
    Cleanup (400 * Sample.hour); AdminCancel true 2 ].

End SampleOrphan.

(** What the dates and the attempt counter of a stored job say about its
    status. *)
Definition jobTimed (j : EmailJob) : Prop :=
  0 <= attempts j
  /\ (status j = pending -> attempts j < retryAttempts)
  /\ (status j = processing -> 1 <= attempts j /\ is_Some (lastAttempt j))
  /\ (status j = failed -> is_Some (lastAttempt j))
  /\ (status j = sent -> is_Some (sentAt j)).

(** The date the retention sweep compares with for a job, by its status. *)
Definition retentionDate (j : EmailJob) : option Z :=
  match status j with
  | sent => sentAt j
  | failed => lastAttempt j
  | cancelled => Some (createdAt j)
  | _ => None
  end.

Definition oneWeek : Z := 7 * 24 * 60 * 60 * 1000.

(** ** What [htmlToText] leaves *)

(** A string holds a complete tag, a match of [<[^>]*>], when some ["<"]
    is followed, anywhere later, by a [">"]. *)
Fixpoint hasTag (s : string) : bool :=
  match s with
  | String c r => ((code c =? 60)%N && hasGt r) || hasTag r
  | EmptyString => false
  end.

Definition startsWhite (s : string) : bool :=
  match s with
  | String c _ => isWhite c
  | EmptyString => false
  end.

Definition endsWhite (s : string) : bool := startsWhite (String.rev s).

(** The job [queueEmailNotification] asks [EmailQueue.create] to store. *)
Definition notificationEmail (now : Z) (notification : Notification)
    (template : NotificationTemplate) (htmlContent : string) : EmailJob :=
  {| recipient := notifRecipient notification;
     emailType := getEmailTypeForNotification (notifType notification);
     subject := if truthy (emailSubject template)
                then default "" (emailSubject template)
                else title notification;
     htmlContent := htmlContent;
     textContent := None;
     priority := if bool_decide (notifPriority notification = priorityUrgent)
                 then high else medium;
     status := pending;
     scheduledFor := now;
     attempts := 0;
     lastAttempt := None;
     sentAt := None;
     failureReason := None;
     createdAt := now |}.

(** Sample notifications and templates. *)
Module SampleNotify.

Definition request : Notification :=
  {| notifRecipient := 7; sender := Some 8%N; notifType := connection_request;
     title := "New connection request"; message := "Bob wants to connect";
     notifPriority := priorityUrgent; category := categoryNetwork;
     isRead := false; isArchived := false; readAt := None;
     notifCreatedAt := 0; expiresAt := None |}.

Definition templates (t : NotificationType) : option NotificationTemplate :=
  match t with
  | connection_request =>
      Some (mkNotificationTemplate None (Some "<p>{{name}} wants to connect</p>") true)
  | _ => None
  end.

Definition newRequest : NewNotification :=
  {| newNotifRecipient := 7; newSender := Some 8%N;
     newNotifType := connection_request; newTitle := "New connection request";
     newMessage := "Bob wants to connect"; newCategory := categoryNetwork;
     newNotifPriority := None; newExpiresAt := None |}.

(** A notification whose title is 101 times the letter e with an acute
    accent: 101 UTF-16 code units, 202 bytes in UTF-8. *)
Definition accented : NewNotification :=
  {| newNotifRecipient := 7; newSender := None;
     newNotifType := system_announcement;
     newTitle := String.concat "" (replicate 101 "é");
     newMessage := "Bienvenue"; newCategory := categorySystem;
     newNotifPriority := None; newExpiresAt := None |}.

(** Application updates switched off, everything else on. *)
Definition noApplicationUpdates : NotificationPreferences :=
  {| email := mkEmailPrefs true true false true true true true true immediate;
     quietHours := quietHours defaultPreferences |}.

End SampleNotify.

(** ** The queueing helpers of the processor

    [queueWelcomeEmail], [queuePasswordResetEmail] and [queueJobAlertEmail]
    render their template and create one job, scheduled for the time of
    the call; a template that throws, or renders to an empty body, makes
    the helper throw with nothing created. *)
Definition queueRendered (svc : Service) (now : Z) (templateName : string)
    (d : string -> NewEmail) (w : World) : Result World :=
  match compileTemplate svc templateName with
  | Throw e => Throw e
  | Ok htmlContent =>
      match create now (d htmlContent) (queue w) with
      | Ok (_, q) => Ok (withQueue q w)
      | Throw e => Throw e
      end
  end.

(** [queueWelcomeEmail(user)] *)
Definition queueWelcomeEmail (svc : Service) (now : Z) (user : N) (w : World)
  : Result World :=
  queueRendered svc now "welcome"
    (fun htmlContent =>
       mkNewEmail user welcome "Welcome to JobPortal!" htmlContent (Some high) (Some now)) w.

(** [queuePasswordResetEmail(user, resetToken)] *)
Definition queuePasswordResetEmail (svc : Service) (now : Z) (user : N) (w : World)
  : Result World :=
  queueRendered svc now "password-reset"
    (fun htmlContent =>
       mkNewEmail user password_reset "Password Reset Request - JobPortal" htmlContent
         (Some high) (Some now)) w.

(** [queueJobAlertEmail(user, jobs)]; the subject counts the jobs. *)
Definition jobAlertSubject (jobCount : nat) : string :=
  "🎯 " +:+ pretty jobCount +:+ " New Job Matches Found!".

Definition queueJobAlertEmail (svc : Service) (now : Z) (user : N) (jobCount : nat)
    (w : World) : Result World :=
  queueRendered svc now "job-alert"
    (fun htmlContent =>
       mkNewEmail user job_alert (jobAlertSubject jobCount) htmlContent
         (Some medium) (Some now)) w.

(** A read notification carries the time it was read. *)
Definition readStamped (n : Notification) : Prop :=
  isRead n = true -> is_Some (readAt n).

(** A user who has asked for a daily digest (and the weekly one), in a
    portal whose queue is empty. *)
Module SampleDigest.

Definition dailySubscriber : NotificationPreferences :=
  {| email := mkEmailPrefs true true true true true true true true daily;
     quietHours := quietHours defaultPreferences |}.

Definition subscribed : World := Sample.world ∅ {[ 7%N := dailySubscriber ]}.

End SampleDigest.

(** Services for the other providers: SendGrid with a template directory
    that is empty and an SDK that accepts every message, and SES. *)
Module SampleFallback.

Definition sendgridService : Service :=
  mkService sendgrid None (fun _ => Throw "ENOENT: no such file or directory")
    (fun _ => Ok "sg-1") "1700000000000".

(** A service configured for SES, with templates that render. *)
Definition sesService : Service :=
  mkService aws_ses None (fun _ => Ok "<p>Welcome</p>")
    (fun _ => Ok "ses-1") "1700000000000".

End SampleFallback.

(** One processor instance whose scheduler has fired twice: the first call
    is in phase [p] over the world [w], the second call in phase [p']. *)
Definition twoRuns (env env' : TickEnv) (p : Phase) (w : World) (p' : Phase)
  : System :=
  mkSystem (database w) (outbox w)
    [mkInstance (isProcessing w) [mkRun env p; mkRun env' p']].

(** The number of steps that a schedule gives to the first run of the
    first instance. *)
Definition stepsOfFirst (schedule : list (nat * nat)) : nat :=
  length (filter (fun ki => ki = (0%nat, 0%nat)) schedule).

(** Two server processes at the third attempt of one job: the mail
    service fails for the first process and accepts for the second. *)
Module SampleStale.

Definition twice : EmailJob :=
  setAttempts 2 (Sample.job job_alert "New matches" medium 0).

Definition twoProcesses : System :=
  mkSystem
    (mkDatabase {[ 1%N := twice ]} {[ 7%N := defaultPreferences ]} Sample.users) []
    [ mkInstance false [mkRun (Sample.at14 Sample.failingService) Scheduled];
      mkInstance false [mkRun (Sample.at14 Sample.devService) Scheduled] ].

End SampleStale.

(** A queue with a job sent in the first hour and a job that has been
    pending since the start; and preferences whose quiet hours do not
    start with a number. *)
Module SampleSweep.

Definition sentEarly : EmailJob :=
  setSentAt (Some Sample.hour)
    (setStatus sent (Sample.job welcome "Welcome" high 0)).

Definition waiting : EmailJob := Sample.job job_alert "New matches" medium 0.

Definition start : World :=
  Sample.world {[ 1%N := sentEarly; 2%N := waiting ]} {[ 7%N := defaultPreferences ]}.

Definition quietFromTenPm : NotificationPreferences :=
  {| email := email defaultPreferences;
     quietHours := {| quietEnabled := true; startTime := "ten pm";
                      endTime := "08:00"; timezone := "UTC" |} |}.

End SampleSweep.

(** * Verified properties *)

Lemma save_save id f g w : save id g (save id f w) = save id (g ∘ f) w.
Proof.
  unfold save, withQueue, queue; simpl. by rewrite alter_alter_eq.
Qed.

Lemma save_withOutbox id f o w : save id f (withOutbox o w) = withOutbox o (save id f w).
Proof. reflexivity. Qed.

(** Every attempt is one of the five effects, applied to the stored job
    with the document's id; nothing else in the world changes but the
    outbox, which grows by the calls made. *)
Lemma processEmailJob_effect svc h clk d w :
  exists f calls,
    AttemptEffect clk d f calls
    /\ (processEmailJob svc h clk d w).1
       = withOutbox (outbox w ++ calls) (save (docId d) f w).
Proof.
  unfold processEmailJob. fold (marked clk d).
  destruct (populated d) as [u|] eqn:Hu; simpl.
  2:{ exists (marked clk d), []. split; [by constructor|].
      rewrite app_nil_r. by destruct w. }
  destruct (shouldSkipEmail _ _ _ _); simpl.
  { eexists _, []. split; [apply effect_cancelled|].
    rewrite save_save, app_nil_r. by destruct w. }
  destruct (sendEmail _ _) as [[r|msg] calls]; simpl.
  { eexists _, calls. split; [apply effect_sent|].
    by rewrite save_withOutbox, save_save. }
  destruct (Z.leb_spec retryAttempts (attempts (loaded d) + 1)); simpl.
  - eexists _, calls. split; [by apply effect_failed|].
    by rewrite save_withOutbox, save_save.
  - eexists _, calls. split; [by apply effect_retry|].
    by rewrite save_withOutbox, save_save.
Qed.

Ltac unfold_setters :=
  unfold marked, setStatus, setScheduledFor, setAttempts, setLastAttempt,
    setSentAt, setFailureReason in *; simpl in *.



Lemma queue_save id f w : queue (save id f w) = alter f id (queue w).
Proof. reflexivity. Qed.

Lemma queue_withOutbox o w : queue (withOutbox o w) = queue w.
Proof. reflexivity. Qed.

Lemma queue_withProcessing b w : queue (withProcessing b w) = queue w.
Proof. reflexivity. Qed.

Lemma queue_withQueue q w : queue (withQueue q w) = q.
Proof. reflexivity. Qed.

(** The jobs [findPending] returns are stored, due, and pairwise distinct. *)
Lemma findPending_submseteq now q :
  findPending now q ⊆+ map_to_list q.
Proof.
  unfold findPending.
  etrans; [apply submseteq_take|].
  etrans; [apply Permutation_submseteq, merge_sort_Permutation|].
  apply sublist_submseteq, sublist_filter.
Qed.

Lemma findPending_stored now q e :
  e ∈ findPending now q -> q !! e.1 = Some e.2 /\ isDue now e.2 = true.
Proof.
  intros He. split.
  - apply elem_of_map_to_list'.
    eapply elem_of_submseteq; [exact He | apply findPending_submseteq].
  - unfold findPending in He.
    apply elem_of_take in He as (i & Hi & _).
    apply list_elem_of_lookup_2 in Hi.
    rewrite merge_sort_Permutation in Hi.
    by apply list_elem_of_filter in Hi as [? _].
Qed.

Lemma findPending_NoDup now q : NoDup (findPending now q).*1.
Proof.
  unfold findPending.
  eapply sublist_NoDup; [|apply fmap_sublist, sublist_take].
  rewrite merge_sort_Permutation.
  eapply sublist_NoDup; [apply (NoDup_fst_map_to_list q)|].
  apply fmap_sublist, sublist_filter.
Qed.

Lemma findPending_length now q : (length (findPending now q) <= batchSize)%nat.
Proof. unfold findPending. rewrite length_take. lia. Qed.

Lemma populate_coherent now users q :
  coherent now (populate users <$> findPending now q) q.
Proof.
  split.
  - rewrite <- list_fmap_compose.
    replace (docId ∘ populate users) with (@fst N EmailJob) by done.
    apply findPending_NoDup.
  - intros d (e & -> & He)%list_elem_of_fmap. simpl.
    by apply findPending_stored.
Qed.

Lemma isDue_spec now j :
  isDue now j = true <->
  status j = pending /\ scheduledFor j <= now /\ attempts j < retryAttempts.
Proof.
  unfold isDue. rewrite !andb_true_iff, bool_decide_eq_true.
  rewrite Z.leb_le, Z.ltb_lt. tauto.
Qed.













Lemma run_snoc ops op w : run (ops ++ [op]) w = perform op (run ops w).
Proof. unfold run. by rewrite foldl_app. Qed.




(** ** One processing attempt *)

Lemma shouldSkipEmail_marked h now clk d j p :
  shouldSkipEmail h now (marked clk d j) p = shouldSkipEmail h now j p.
Proof. reflexivity. Qed.

(** The test [processEmailJob] makes reads the type and recipient of the
    job, which marking does not change, and the preferences, which saving
    the job does not change. *)
Ltac skip_condition h clk d w :=
  match goal with
  | |- context [shouldSkipEmail ?a ?b ?c ?e] =>
      change (shouldSkipEmail a b c e)
        with (shouldSkipEmail h (atCheck clk) (loaded d)
                (Preferences (database w) !! recipient (loaded d)))
  end.

Lemma lookup_save id f w j :
  queue w !! id = Some j -> queue (save id f w) !! id = Some (f j).
Proof. intros H. by rewrite queue_save, lookup_alter_eq, H. Qed.

(** A skipped attempt cancels the job and calls no transport. *)
Lemma processEmailJob_skipped svc h clk d w u :
  populated d = Some u ->
  shouldSkipEmail h (atCheck clk) (loaded d)
    (Preferences (database w) !! recipient (loaded d)) = true ->
  processEmailJob svc h clk d w
  = (save (docId d)
       (fun j => setFailureReason (Some optedOutReason)
                   (setStatus cancelled (marked clk d j))) w,
     Returned).
Proof.
  intros Hu Hskip. unfold processEmailJob. rewrite Hu. skip_condition h clk d w.
  rewrite Hskip. fold (marked clk d). by rewrite save_save.
Qed.

Lemma processEmailJob_skipped_stored svc h clk d w u :
  populated d = Some u ->
  queue w !! docId d = Some (loaded d) ->
  shouldSkipEmail h (atCheck clk) (loaded d)
    (Preferences (database w) !! recipient (loaded d)) = true ->
  queue (processEmailJob svc h clk d w).1 !! docId d = Some (skippedJob clk (loaded d))
  /\ outbox (processEmailJob svc h clk d w).1 = outbox w.
Proof.
  intros Hu Hd Hskip. rewrite (processEmailJob_skipped _ _ _ _ _ u) by done.
  simpl. split; [|done].
  by rewrite (lookup_save _ _ _ _ Hd).
Qed.

(** An attempt that is not skipped calls [sendEmail] once, with the job's
    own subject and bodies. *)
Lemma processEmailJob_delivered svc h clk d w u :
  populated d = Some u ->
  shouldSkipEmail h (atCheck clk) (loaded d)
    (Preferences (database w) !! recipient (loaded d)) = false ->
  processEmailJob svc h clk d w
  = let '(result, calls) := sendEmail svc (deliveryArgs u (loaded d)) in
    let w' := withOutbox (outbox w ++ calls) w in
    match result with
    | Ok _ =>
        (save (docId d)
           (fun j => setSentAt (Some (atFinish clk)) (setStatus sent (marked clk d j))) w',
         Returned)
    | Throw message =>
        if retryAttempts <=? attempts (loaded d) + 1 then
          (save (docId d)
             (fun j => setFailureReason (Some message) (setStatus failed (marked clk d j))) w',
           Returned)
        else
          (save (docId d)
             (fun j => setScheduledFor (atFinish clk + retryDelay)
                         (setStatus pending (marked clk d j))) w',
           Returned)
    end.
Proof.
  intros Hu Hskip. unfold processEmailJob. rewrite Hu. skip_condition h clk d w.
  rewrite Hskip. fold (marked clk d).
  change (sendEmail svc _) with (sendEmail svc (deliveryArgs u (loaded d))).
  destruct (sendEmail svc (deliveryArgs u (loaded d))) as [[r|msg] calls]; simpl.
  - by rewrite save_withOutbox, save_save.
  - destruct (retryAttempts <=? attempts (loaded d) + 1);
      by rewrite save_withOutbox, save_save.
Qed.

(** ** Terminal jobs *)

Lemma create_lookup now d q id q' k j :
  create now d q = Ok (id, q') -> q !! k = Some j -> q' !! k = Some j.
Proof.
  unfold create. repeat case_bool_decide; try discriminate.
  intros [= <- <-] Hk. rewrite lookup_insert_ne; [done|].
  intros Heq. apply (is_fresh (dom q)). rewrite Heq.
  apply elem_of_dom. by eexists.
Qed.

Lemma generateDigests_lookup createOne users w k j :
  (forall u w w', createOne u w = Ok w' ->
                  queue w !! k = Some j -> queue w' !! k = Some j) ->
  queue w !! k = Some j ->
  queue (generateDigests createOne users w) !! k = Some j.
Proof.
  intros Hone. revert w. induction users as [|u users IH]; intros w Hk; [done|].
  simpl. destruct (createOne u w) eqn:E; [|done].
  apply IH. by eapply Hone.
Qed.

Lemma createDailyDigestEmail_lookup svc now u w w' k j :
  createDailyDigestEmail svc now u w = Ok w' ->
  queue w !! k = Some j -> queue w' !! k = Some j.
Proof.
  unfold createDailyDigestEmail.
  destruct (compileTemplate svc _); [|discriminate].
  destruct (create _ _ _) as [[id q]|] eqn:E; [|discriminate].
  intros [= <-] Hk. rewrite queue_withQueue. by eapply create_lookup.
Qed.

Lemma createWeeklyDigestEmail_lookup svc now u w w' k j :
  createWeeklyDigestEmail svc now u w = Ok w' ->
  queue w !! k = Some j -> queue w' !! k = Some j.
Proof.
  unfold createWeeklyDigestEmail.
  destruct (compileTemplate svc _); [|discriminate].
  destruct (create _ _ _) as [[id q]|] eqn:E; [|discriminate].
  intros [= <-] Hk. rewrite queue_withQueue. by eapply create_lookup.
Qed.

(** The loop of [processQueue] writes only to the jobs of its batch. *)
Lemma processAll_other env docs w k :
  k ∉ docId <$> docs ->
  queue (processAll env docs w) !! k = queue w !! k.
Proof.
  revert w. induction docs as [|d docs IH]; intros w Hk; [done|].
  simpl in *. apply not_elem_of_cons in Hk as [Hne Hk].
  destruct (processEmailJob_effect (service env) (hostOffset env)
              (clockOf env (docId d)) d w) as (f & calls & _ & Hw).
  destruct (processEmailJob _ _ _ d w) as [w' c]. simpl in Hw. subst w'.
  assert (queue (withOutbox (outbox w ++ calls) (save (docId d) f w)) !! k
          = queue w !! k) as Hsame.
  { rewrite queue_withOutbox, queue_save. by rewrite lookup_alter_ne. }
  destruct c; [|done]. by rewrite IH.
Qed.

Lemma processQueue_not_due env w k j :
  queue w !! k = Some j ->
  status j <> pending ->
  queue (processQueue env w) !! k = Some j.
Proof.
  intros Hk Hst. unfold processQueue.
  destruct (isProcessing w); [done|].
  case_bool_decide; [done|].
  rewrite queue_withProcessing, processAll_other; [done|].
  rewrite <- list_fmap_compose.
  intros (e & Hid & He)%list_elem_of_fmap. simpl in Hid. subst k.
  apply findPending_stored in He as [Hst' Hdue].
  rewrite queue_withProcessing in Hst'.
  rewrite Hk in Hst'. injection Hst' as ->.
  apply isDue_spec in Hdue as [? _]. done.
Qed.

(** A cancelled or sent job is changed by no operation; only a retention
    sweep that finds it expired removes it. *)
Lemma terminal_perform op w k j :
  status j = cancelled \/ status j = sent ->
  queue w !! k = Some j ->
  match op with Cleanup now => isExpired now j = false | _ => True end ->
  queue (perform op w) !! k = Some j.
Proof.
  intros Hst Hk Hop. destruct op; simpl.
  - unfold enqueue. destruct (create _ _ _) as [[id q]|] eqn:E; [|done].
    rewrite queue_withQueue. by eapply create_lookup.
  - apply processQueue_not_due; [done|]. destruct Hst; congruence.
  - apply generateDigests_lookup; [|done].
    intros; by eapply createDailyDigestEmail_lookup.
  - apply generateDigests_lookup; [|done].
    intros; by eapply createWeeklyDigestEmail_lookup.
  - unfold retryFailedEmail. destruct isAdmin; [|done]. simpl.
    destruct (queue w !! emailId) as [j'|] eqn:E; [|done].
    case_bool_decide as Hf; [|done]. simpl.
    rewrite queue_save, lookup_alter_ne; [done|].
    intros ->. rewrite Hk in E. injection E as ->. destruct Hst; congruence.
  - unfold cancelEmail. destruct isAdmin; [|done]. simpl.
    destruct (queue w !! emailId) as [j'|] eqn:E; [|done].
    destruct (_ || _) eqn:Hc; [|done]. simpl.
    rewrite queue_save, lookup_alter_ne; [done|].
    intros ->. rewrite Hk in E. injection E as ->.
    apply orb_true_iff in Hc as [Hc|Hc]; apply bool_decide_eq_true in Hc;
      destruct Hst; congruence.
  - unfold cleanupOldEmails. rewrite queue_withQueue.
    by apply map_lookup_filter_Some_2.
  - done.
Qed.

Lemma terminal_run ops w k j :
  status j = cancelled \/ status j = sent ->
  queue w !! k = Some j ->
  keptBySweeps j ops ->
  queue (run ops w) !! k = Some j.
Proof.
  intros Hst Hk. unfold keptBySweeps.
  induction ops as [|op ops IH] using rev_ind; [done|].
  intros [Hops Hop]%Forall_app. rewrite Forall_singleton in Hop.
  rewrite run_snoc. apply terminal_perform; auto.
Qed.

(** ** The eligibility filter *)

(** With e-mail enabled and the type not opted out, the filter's answer is
    the window test on the hour of the host's clock. *)
Lemma shouldSkipEmail_window h now job p s e :
  enabled (email p) = true ->
  (forall key, typePreferenceMap (emailType job) = Some key -> key (email p) = true) ->
  quietEnabled (quietHours p) = true ->
  hourOf (startTime (quietHours p)) = Some s ->
  hourOf (endTime (quietHours p)) = Some e ->
  shouldSkipEmail h now job (Some p) = specInWindow (getHours h now) s e.
Proof.
  intros Hen Hkey Hq Hs He. unfold shouldSkipEmail.
  rewrite Hen, Hq, Hs, He. simpl.
  destruct (typePreferenceMap (emailType job)) as [key|] eqn:Hk.
  - rewrite (Hkey key eq_refl). simpl. unfold specInWindow.
    destruct (e <? s); [by destruct (_ || _)|by destruct (_ && _)].
  - unfold specInWindow.
    destruct (e <? s); [by destruct (_ || _)|by destruct (_ && _)].
Qed.

(** Inside the window the filter skips, whatever the other settings. *)
Lemma shouldSkipEmail_inside h now job p s e :
  quietEnabled (quietHours p) = true ->
  hourOf (startTime (quietHours p)) = Some s ->
  hourOf (endTime (quietHours p)) = Some e ->
  specInWindow (getHours h now) s e = true ->
  shouldSkipEmail h now job (Some p) = true.
Proof.
  intros Hq Hs He Hin. unfold shouldSkipEmail.
  destruct (enabled (email p)); [|done]. simpl.
  destruct (match typePreferenceMap (emailType job) with
            | Some prefKey => negb (prefKey (email p))
            | None => false
            end); [done|].
  rewrite Hq, Hs, He. simpl. unfold specInWindow in Hin.
  destruct (e <? s); by rewrite Hin.
Qed.

Lemma shouldSkipEmail_opted_out h now job p :
  enabled (email p) = false
  \/ (exists key, typePreferenceMap (emailType job) = Some key /\ key (email p) = false) ->
  shouldSkipEmail h now job (Some p) = true.
Proof.
  intros [Hen|(key & Hk & Hv)]; unfold shouldSkipEmail.
  - by rewrite Hen.
  - destruct (enabled (email p)); [|done]. simpl. by rewrite Hk, Hv.
Qed.

(** The filter never reads the profile's time zone. *)
Lemma shouldSkipEmail_zone h now job p zone :
  shouldSkipEmail h now job
    (Some (mkPreferences (email p)
             (mkQuietHours (quietEnabled (quietHours p)) (startTime (quietHours p))
                (endTime (quietHours p)) zone)))
  = shouldSkipEmail h now job (Some p).
Proof. reflexivity. Qed.

Lemma shouldSkipEmail_defaults h now job :
  shouldSkipEmail h now job (Some defaultPreferences) = false.
Proof. by destruct job as [? [] ? ? ? ? ? ? ? ? ? ? ?]. Qed.

(** ** The claims about one attempt *)




(** C6. When the call of [sendEmail] for a job throws, the attempt (which
    has counted itself in [attempts]) leaves the job failed, with the
    error's message as [failureReason], if [attempts] has reached
    [maxAttempts] (3); otherwise it leaves the job pending with
    [scheduledFor] five minutes after the time of the failure and without a
    failure reason of its own. *)
Theorem transport_failure_retries_then_fails svc h clk d w u message calls :
  populated d = Some u ->
  queue w !! docId d = Some (loaded d) ->
  shouldSkipEmail h (atCheck clk) (loaded d)
    (Preferences (database w) !! recipient (loaded d)) = false ->
  sendEmail svc (deliveryArgs u (loaded d)) = (Throw message, calls) ->
  exists j',
    queue (processEmailJob svc h clk d w).1 !! docId d = Some j'
    /\ attempts j' = attempts (loaded d) + 1
    /\ (3 <= attempts j' -> status j' = failed /\ failureReason j' = Some message)
    /\ (attempts j' < 3 ->
        status j' = pending
        /\ scheduledFor j' = atFinish clk + 5 * 60 * 1000
        /\ failureReason j' = failureReason (loaded d)).
Proof.
  intros Hu Hd Hskip Hsend.
  rewrite (processEmailJob_delivered svc h clk d w u Hu Hskip), Hsend.
  destruct (Z.leb_spec retryAttempts (attempts (loaded d) + 1)) as [Hge|Hlt];
    unfold retryAttempts in *; simpl.
  - eexists. split; [by apply lookup_save|].
    unfold_setters. repeat split; try done; lia.
  - eexists. split; [by apply lookup_save|].
    unfold_setters. repeat split; try done; lia.
Qed.

Lemma transport_failure_retries_then_fails_witness :
  exists j',
    queue (processEmailJob Sample.failingService 0 SampleAttempt.clock14 SampleAttempt.doc1
             SampleAttempt.defaultWorld).1 !! 1%N = Some j'
    /\ attempts j' = 0 + 1
    /\ (3 <= attempts j' ->
        status j' = failed /\ failureReason j' = Some "connect ETIMEDOUT")
    /\ (attempts j' < 3 ->
        status j' = pending
        /\ scheduledFor j' = (14 * Sample.hour + 2) + 5 * 60 * 1000
        /\ failureReason j' = None).
Proof.
  apply (transport_failure_retries_then_fails Sample.failingService 0 SampleAttempt.clock14
           SampleAttempt.doc1 SampleAttempt.defaultWorld Sample.ann "connect ETIMEDOUT"
           [mkOutbound sendgrid (Some "ann@example.com") (Some defaultFrom)
              (Some "New matches") (Some "<p>Hello</p>") None None]);
    reflexivity.
Defined.

(** C8 (amended). When the recipient's e-mail channel is disabled, or the
    job's type maps to a preference flag that is false, the filter answers
    [true] (it gives no reason) and the processor cancels the job with the
    fixed reason "User has opted out of this email type", without calling a
    transport.  The cancelled job is terminal: it stays as it is through any
    later operations, until a retention sweep finds it expired. *)
Theorem opt_out_cancels_for_good svc h clk d w u p ops :
  populated d = Some u ->
  queue w !! docId d = Some (loaded d) ->
  Preferences (database w) !! recipient (loaded d) = Some p ->
  (enabled (email p) = false
   \/ exists key, typePreferenceMap (emailType (loaded d)) = Some key
                  /\ key (email p) = false) ->
  keptBySweeps (skippedJob clk (loaded d)) ops ->
  shouldSkipEmail h (atCheck clk) (loaded d) (Some p) = true
  /\ queue (processEmailJob svc h clk d w).1 !! docId d = Some (skippedJob clk (loaded d))
  /\ status (skippedJob clk (loaded d)) = cancelled
  /\ failureReason (skippedJob clk (loaded d))
     = Some "User has opted out of this email type"
  /\ outbox (processEmailJob svc h clk d w).1 = outbox w
  /\ queue (run ops (processEmailJob svc h clk d w).1) !! docId d
     = Some (skippedJob clk (loaded d)).
Proof.
  intros Hu Hd Hp Hout Hkept.
  assert (shouldSkipEmail h (atCheck clk) (loaded d) (Some p) = true) as Hskip
    by by apply shouldSkipEmail_opted_out.
  destruct (processEmailJob_skipped_stored svc h clk d w u Hu Hd) as [Hj Ho].
  { by rewrite Hp. }
  repeat split; try done.
  apply terminal_run; [by left|done|done].
Qed.

Lemma opt_out_cancels_for_good_witness :
  shouldSkipEmail 0 (atCheck SampleAttempt.clock14) (loaded SampleAttempt.doc1)
    (Some Sample.emailDisabled) = true
  /\ queue (processEmailJob Sample.devService 0 SampleAttempt.clock14 SampleAttempt.doc1
              SampleAttempt.disabledWorld).1 !! 1%N
     = Some (skippedJob SampleAttempt.clock14 (loaded SampleAttempt.doc1))
  /\ status (skippedJob SampleAttempt.clock14 (loaded SampleAttempt.doc1)) = cancelled
  /\ failureReason (skippedJob SampleAttempt.clock14 (loaded SampleAttempt.doc1))
     = Some "User has opted out of this email type"
  /\ outbox (processEmailJob Sample.devService 0 SampleAttempt.clock14 SampleAttempt.doc1
               SampleAttempt.disabledWorld).1 = []
  /\ queue (run [Tick (Sample.at23 Sample.devService); AdminRetry true 0 1;
                 AdminCancel true 1; Cleanup (24 * Sample.hour)]
              (processEmailJob Sample.devService 0 SampleAttempt.clock14 SampleAttempt.doc1
                 SampleAttempt.disabledWorld).1) !! 1%N
     = Some (skippedJob SampleAttempt.clock14 (loaded SampleAttempt.doc1)).
Proof.
  apply (opt_out_cancels_for_good Sample.devService 0 SampleAttempt.clock14 SampleAttempt.doc1
           SampleAttempt.disabledWorld Sample.ann Sample.emailDisabled).
  - reflexivity.
  - reflexivity.
  - reflexivity.
  - left. reflexivity.
  - repeat constructor.
Defined.

(** C8 fails as stated: with the e-mail channel disabled, the cancelled job
    does not carry the reason "channel disabled". *)
Lemma opt_out_reason_counterexample :
  ~ exists j',
      queue (processQueue (Sample.at14 Sample.devService) SampleAttempt.disabledWorld) !! 1%N
      = Some j'
      /\ status j' = cancelled
      /\ failureReason j' = Some "channel disabled".
Proof.
  intros (j' & Hj & _ & Hr). vm_compute in Hj. injection Hj as <-. discriminate.
Qed.

(** C10. A job whose recipient exists but has no preferences document is
    cancelled by its processing attempt, because the filter answers [true]
    for missing preferences; no transport is called.  The defaults of the
    preferences schema, had a document existed, enable e-mail and would not
    have been skipped. *)
Theorem missing_preferences_cancel svc h clk d w u :
  populated d = Some u ->
  queue w !! docId d = Some (loaded d) ->
  Preferences (database w) !! recipient (loaded d) = None ->
  shouldSkipEmail h (atCheck clk) (loaded d) None = true
  /\ (exists j',
        queue (processEmailJob svc h clk d w).1 !! docId d = Some j'
        /\ status j' = cancelled)
  /\ outbox (processEmailJob svc h clk d w).1 = outbox w
  /\ enabled (email defaultPreferences) = true
  /\ shouldSkipEmail h (atCheck clk) (loaded d) (Some defaultPreferences) = false.
Proof.
  intros Hu Hd Hp.
  destruct (processEmailJob_skipped_stored svc h clk d w u Hu Hd) as [Hj Ho].
  { by rewrite Hp. }
  repeat split; try done.
  - by exists (skippedJob clk (loaded d)).
  - apply shouldSkipEmail_defaults.
Qed.

Lemma missing_preferences_cancel_witness :
  shouldSkipEmail 0 (atCheck SampleAttempt.clock14) (loaded SampleAttempt.doc1) None = true
  /\ (exists j',
        queue (processEmailJob Sample.devService 0 SampleAttempt.clock14 SampleAttempt.doc1
                 SampleAttempt.noPreferencesWorld).1 !! 1%N = Some j'
        /\ status j' = cancelled)
  /\ outbox (processEmailJob Sample.devService 0 SampleAttempt.clock14 SampleAttempt.doc1
               SampleAttempt.noPreferencesWorld).1 = []
  /\ enabled (email defaultPreferences) = true
  /\ shouldSkipEmail 0 (atCheck SampleAttempt.clock14) (loaded SampleAttempt.doc1)
       (Some defaultPreferences) = false.
Proof.
  apply (missing_preferences_cancel Sample.devService 0 SampleAttempt.clock14 SampleAttempt.doc1
           SampleAttempt.noPreferencesWorld Sample.ann); reflexivity.
Defined.

(** The window as the filter evaluates it: when quiet hours are enabled
    (and the job is not already skipped for an opt-out), the filter skips
    exactly when the hour on the clock of the host process is inside the
    window: [hour >= start] or [hour <= end] when [start > end], and
    [start <= hour <= end] otherwise.  Replacing the profile's time zone
    changes nothing. *)
Lemma quiet_hours_window_on_host_clock h now job p s e zone :
  enabled (email p) = true ->
  (forall key, typePreferenceMap (emailType job) = Some key -> key (email p) = true) ->
  quietEnabled (quietHours p) = true ->
  hourOf (startTime (quietHours p)) = Some s ->
  hourOf (endTime (quietHours p)) = Some e ->
  (shouldSkipEmail h now job (Some p) = true <->
     (e < s /\ (s <= getHours h now \/ getHours h now <= e))
     \/ (s <= e /\ s <= getHours h now <= e))
  /\ shouldSkipEmail h now job
       (Some (mkPreferences (email p)
                (mkQuietHours true (startTime (quietHours p))
                   (endTime (quietHours p)) zone)))
     = shouldSkipEmail h now job (Some p).
Proof.
  intros Hen Hkey Hq Hs He. split.
  - rewrite (shouldSkipEmail_window h now job p s e) by done.
    unfold specInWindow.
    destruct (Z.ltb_spec e s).
    + rewrite orb_true_iff, !Z.leb_le. lia.
    + rewrite andb_true_iff, !Z.leb_le. lia.
  - rewrite <- Hq. apply shouldSkipEmail_zone.
Qed.

(** C9. The filter applies the window rule of the claim, but to the hour
    on the clock of the host process: [quietHours.timezone], which the
    schema stores, is never read.  Whenever the current hour in the
    profile's zone is inside the window and the hour of the host is not,
    the claim's test answers "quiet" and the filter does not skip. *)
Theorem quiet_hours_timezone_is_ignored h now job p s e offset :
  enabled (email p) = true ->
  (forall key, typePreferenceMap (emailType job) = Some key -> key (email p) = true) ->
  quietEnabled (quietHours p) = true ->
  hourOf (startTime (quietHours p)) = Some s ->
  hourOf (endTime (quietHours p)) = Some e ->
  fixedZoneOffset (timezone (quietHours p)) = Some offset ->
  specInWindow (getHours offset now) s e = true ->
  specInWindow (getHours h now) s e = false ->
  specQuietNow now (quietHours p) = Some true
  /\ shouldSkipEmail h now job (Some p) = false.
Proof.
  intros Hen Hkey Hq Hs He Hz Hin Hout. split.
  - unfold specQuietNow. rewrite Hz, Hs, He. simpl. by rewrite Hq, Hin.
  - by rewrite (shouldSkipEmail_window h now job p s e).
Qed.

(** At 14:00 UTC it is 23:00 in Tokyo, inside the window from 22:00 to
    08:00 of a profile whose zone is Asia/Tokyo; on a host on UTC the
    filter does not skip. *)
Lemma quiet_hours_timezone_is_ignored_witness :
  specQuietNow (14 * Sample.hour) (quietHours (Sample.quietFrom22To8 "Asia/Tokyo"))
  = Some true
  /\ shouldSkipEmail 0 (14 * Sample.hour) (loaded SampleAttempt.doc1)
       (Some (Sample.quietFrom22To8 "Asia/Tokyo")) = false.
Proof.
  apply (quiet_hours_timezone_is_ignored 0 (14 * Sample.hour)
           (loaded SampleAttempt.doc1) (Sample.quietFrom22To8 "Asia/Tokyo")
           22 8 540); try reflexivity.
  intros key [= <-]. reflexivity.
Defined.

(** ** The batch of a run *)

Global Instance sortsBefore_total : Total sortsBefore.
Proof.
  intros [i a] [k b]. unfold sortsBefore, comparePriority. simpl.
  destruct (priority a), (priority b); simpl;
    try (left; left; reflexivity); try (right; left; reflexivity);
    destruct (Z.le_gt_cases (createdAt a) (createdAt b));
    solve [ left; right; split; [reflexivity|lia]
          | right; right; split; [reflexivity|lia] ].
Qed.

(** The batch is ordered by the comparison the query asks for. *)
Lemma findPending_sorted now q : Sorted sortsBefore (findPending now q).
Proof.
  unfold findPending.
  assert (forall (l : list (N * EmailJob)) n,
             Sorted sortsBefore l -> Sorted sortsBefore (take n l)) as Htake.
  { intros l n Hl. revert n. induction Hl as [|x l Hl IH Hx]; intros [|n]; simpl;
      try constructor; auto.
    destruct Hx as [|y l' Hxy]; destruct n; simpl; by constructor. }
  apply Htake, Sorted_merge_sort, _.
Qed.

(** When no more than [batchSize] jobs are due, the batch holds them all. *)
Lemma findPending_complete now q id j :
  (length (filter (fun e => isDue now e.2 = true) (map_to_list q)) <= batchSize)%nat ->
  q !! id = Some j ->
  isDue now j = true ->
  (id, j) ∈ findPending now q.
Proof.
  intros Hlen Hj Hdue. unfold findPending.
  rewrite take_ge by (by rewrite merge_sort_Permutation).
  rewrite merge_sort_Permutation.
  apply list_elem_of_filter. split; [done|].
  by apply elem_of_map_to_list.
Qed.

(** Whatever their age, a medium and a low job both come before a high
    job, and a medium job before a low one: the names compare as
    ["medium" > "low" > "high"]. *)
Lemma sortsBefore_by_name a b :
  (priority a.2 = medium /\ priority b.2 = high)
  \/ (priority a.2 = low /\ priority b.2 = high)
  \/ (priority a.2 = medium /\ priority b.2 = low) ->
  sortsBefore a b /\ ~ sortsBefore b a.
Proof.
  unfold sortsBefore, comparePriority.
  intros [[-> ->]|[[-> ->]|[-> ->]]]; simpl;
    (split; [by left|intros [?|[? _]]; discriminate]).
Qed.

(** C3 (the code departs from the claim). Three due jobs of priority high,
    medium and low, the high one the oldest: the batch is the medium job,
    then the low one, then the high one, and they are sent in that order. *)
Theorem high_priority_is_processed_last :
  (findPending (14 * Sample.hour) Sample.threePriorities).*1 = [2%N; 3%N; 1%N]
  /\ outSubject <$>
       outbox (processQueue (Sample.at14 Sample.devService)
                 (Sample.world Sample.threePriorities {[ 7%N := defaultPreferences ]}))
     = [Some "medium job"; Some "low job"; Some "high job"].
Proof. split; vm_compute; reflexivity. Qed.

(** ** The digest generator *)

Lemma digestJobs_create now d q id q' kind user :
  create now d q = Ok (id, q') ->
  newRecipient d = user -> newEmailType d = kind ->
  digestJobs kind user q' = S (digestJobs kind user q).
Proof.
  unfold create. repeat case_bool_decide; try discriminate.
  intros [= <- <-] Hu Hk. unfold digestJobs.
  assert (q !! fresh (dom q) = None) as Hfresh
    by (apply not_elem_of_dom, is_fresh).
  rewrite map_filter_insert_True by done.
  rewrite map_size_insert_None; [done|].
  by apply map_lookup_filter_None_2; left.
Qed.

Lemma createDailyDigestEmail_adds svc now user w h :
  compileTemplate svc "daily-digest" = Ok h -> h <> "" ->
  exists w',
    createDailyDigestEmail svc now user w = Ok w'
    /\ digestJobs daily_digest user (queue w')
       = S (digestJobs daily_digest user (queue w)).
Proof.
  intros Hc Hh. unfold createDailyDigestEmail. rewrite Hc.
  destruct (create _ _ _) as [[id q]|e] eqn:E.
  - eexists. split; [done|]. rewrite queue_withQueue.
    by eapply digestJobs_create.
  - unfold create in E. repeat case_bool_decide; simplify_eq.
Qed.

Lemma createWeeklyDigestEmail_adds svc now user w h :
  compileTemplate svc "weekly-digest" = Ok h -> h <> "" ->
  exists w',
    createWeeklyDigestEmail svc now user w = Ok w'
    /\ digestJobs weekly_digest user (queue w')
       = S (digestJobs weekly_digest user (queue w)).
Proof.
  intros Hc Hh. unfold createWeeklyDigestEmail. rewrite Hc.
  destruct (create _ _ _) as [[id q]|e] eqn:E.
  - eexists. split; [done|]. rewrite queue_withQueue.
    by eapply digestJobs_create.
  - unfold create in E. repeat case_bool_decide; simplify_eq.
Qed.

(** The path the generators filter on is not a path of a stored user. *)
Lemma findUsersWhere_missing_path path value users :
  path <> "name" -> path <> "email" ->
  findUsersWhere path value users = [].
Proof.
  intros Hn He. unfold findUsersWhere.
  assert (filter (fun e : N * User => userPath e.2 path = Some value)
            (map_to_list users) = []) as ->; [|done].
  apply elem_of_nil_inv. intros [id u] [Hv _]%list_elem_of_filter.
  unfold userPath in Hv. simpl in Hv.
  rewrite !bool_decide_eq_false_2 in Hv by done. discriminate.
Qed.

Lemma generateDailyDigests_id svc now w : generateDailyDigests svc now w = w.
Proof.
  unfold generateDailyDigests.
  by rewrite findUsersWhere_missing_path by discriminate.
Qed.

Lemma generateWeeklyDigests_id svc now w : generateWeeklyDigests svc now w = w.
Proof.
  unfold generateWeeklyDigests.
  by rewrite findUsersWhere_missing_path by discriminate.
Qed.

(** C4. The digest generators create no job at all.  Their query looks
    for the frequency (or the weekly flag) under [notificationPreferences]
    in the users, where no user has it, so it selects nobody and the loop
    over the selected users never runs: whatever users and preferences are
    stored, a run leaves everything as it was.  For user 7, who has asked
    for the daily digest, two runs of the daily generator in the same
    morning leave no digest job, not one; the same holds for the weekly
    generator. *)
Theorem digest_generators_create_no_job :
  (forall svc now w,
     generateDailyDigests svc now w = w /\ generateWeeklyDigests svc now w = w)
  /\ frequency (email SampleDigest.dailySubscriber) = daily
  /\ weeklyDigest (email SampleDigest.dailySubscriber) = true
  /\ digestJobs daily_digest 7
       (queue (generateDailyDigests Sample.renderingService (8 * Sample.hour + 1)
                 (generateDailyDigests Sample.renderingService (8 * Sample.hour)
                    SampleDigest.subscribed)))
     = 0%nat
  /\ digestJobs weekly_digest 7
       (queue (generateWeeklyDigests Sample.renderingService (9 * Sample.hour + 1)
                 (generateWeeklyDigests Sample.renderingService (9 * Sample.hour)
                    SampleDigest.subscribed)))
     = 0%nat.
Proof.
  split; [|split; [|split; [|split]]].
  - intros svc now w. split.
    + apply generateDailyDigests_id.
    + apply generateWeeklyDigests_id.
  - reflexivity.
  - reflexivity.
  - by rewrite !generateDailyDigests_id.
  - by rewrite !generateWeeklyDigests_id.
Qed.

(** The step the loop would take for a selected user has no guard of its
    own against a second digest: each call that renders adds a job. *)
Lemma createDailyDigestEmail_twice svc now1 now2 user w h :
  compileTemplate svc "daily-digest" = Ok h -> h <> "" ->
  exists w1 w2,
    createDailyDigestEmail svc now1 user w = Ok w1
    /\ createDailyDigestEmail svc now2 user w1 = Ok w2
    /\ digestJobs daily_digest user (queue w2)
       = S (S (digestJobs daily_digest user (queue w))).
Proof.
  intros Hc Hh.
  destruct (createDailyDigestEmail_adds svc now1 user w h Hc Hh) as (w1 & E1 & H1).
  destruct (createDailyDigestEmail_adds svc now2 user w1 h Hc Hh) as (w2 & E2 & H2).
  exists w1, w2. by rewrite H2, H1.
Qed.

(** ** Sending with a template that does not render *)









(** ** Overlapping runs *)

Lemma processEmailJob_isProcessing svc h clk d w :
  isProcessing (processEmailJob svc h clk d w).1 = isProcessing w.
Proof.
  destruct (processEmailJob_effect svc h clk d w) as (f & calls & _ & ->). done.
Qed.

(** A step moves the flag together with the phase. *)
Lemma advance_balance env p w :
  (active p = true -> isProcessing w = true) ->
  (weight (active (advance env p w).1) + weight (isProcessing w)
   = weight (active p) + weight (isProcessing (advance env p w).2))%nat.
Proof.
  intros Hact. destruct p as [| |docs|]; simpl.
  - destruct (isProcessing w) eqn:E; simpl; by rewrite ?E.
  - assert (isProcessing w = true) as E by auto.
    case_bool_decide; simpl; by rewrite ?E.
  - assert (isProcessing w = true) as E by auto.
    destruct docs as [|d docs]; simpl; [by rewrite E|].
    pose proof (processEmailJob_isProcessing (service env) (hostOffset env)
                  (clockOf env (docId d)) d w) as Hflag.
    destruct (processEmailJob _ _ _ d w) as [w' []]; simpl in *;
      by rewrite ?Hflag, ?E.
  - done.
Qed.

Lemma activeCount_insert rs i r r' :
  rs !! i = Some r ->
  (activeCount (<[i := r']> rs) + weight (active (phase r))
   = activeCount rs + weight (active (phase r')))%nat.
Proof.
  revert i. induction rs as [|x rs IH]; intros [|i] Hi; simplify_eq/=.
  - unfold weight. lia.
  - specialize (IH i Hi). lia.
Qed.

Lemma activeCount_lookup rs i r :
  rs !! i = Some r -> active (phase r) = true -> (1 <= activeCount rs)%nat.
Proof.
  revert i. induction rs as [|x rs IH]; intros [|i] Hi Ha; simplify_eq/=.
  - rewrite Ha. lia.
  - specialize (IH i Hi Ha). lia.
Qed.

Lemma stepAt_settled k i s :
  Forall settled (instances s) -> Forall settled (instances (stepAt k i s)).
Proof.
  intros Hs. unfold stepAt.
  destruct (instances s !! k) as [inst|] eqn:Hk; [|done].
  destruct (runs inst !! i) as [r|] eqn:Hi; [|done].
  pose proof (Forall_lookup_1 _ _ _ _ Hs Hk) as Hinst. unfold settled in Hinst.
  pose proof (advance_balance (runEnv r) (phase r)
                (mkWorld (shared s) (transported s) (flag inst))) as Hbal.
  destruct (advance _ _ _) as [p w]. simpl in *.
  apply Forall_insert; [done|]. unfold settled. simpl.
  pose proof (activeCount_insert (runs inst) i r (mkRun (runEnv r) p) Hi) as Hins.
  simpl in Hins.
  assert (active (phase r) = true -> flag inst = true) as Hact.
  { intros Ha. pose proof (activeCount_lookup _ _ _ Hi Ha).
    destruct (flag inst); [done|lia]. }
  specialize (Hbal Hact). unfold weight in *.
  destruct (flag inst), (isProcessing w), (active p), (active (phase r)); lia.
Qed.

Lemma play_snoc schedule ki s :
  play (schedule ++ [ki]) s = stepAt ki.1 ki.2 (play schedule s).
Proof. unfold play. by rewrite foldl_app. Qed.

Lemma play_settled schedule s :
  Forall settled (instances s) -> Forall settled (instances (play schedule s)).
Proof.
  intros Hs. induction schedule as [|ki schedule IH] using rev_ind; [done|].
  rewrite play_snoc. by apply stepAt_settled.
Qed.

Lemma idle_settled inst : idle inst -> settled inst.
Proof.
  intros [Hf Hr]. unfold settled. rewrite Hf.
  induction Hr as [|r rs Hr _ IH]; [done|]. simpl. by rewrite Hr, IH.
Qed.

(** A run that finds the flag up ends at once and touches nothing. *)
Lemma advance_guard env w :
  isProcessing w = true -> advance env Scheduled w = (Finished, w).
Proof. intros H. simpl. by rewrite H. Qed.

(** A run taken alone is [processQueue]. *)
Lemma advanceN_Finished n env w : advanceN n env Finished w = (Finished, w).
Proof. induction n; [done|]. simpl. apply IHn. Qed.

Lemma advanceN_Working env docs w n :
  (length docs < n)%nat ->
  advanceN n env (Working docs) w
  = (Finished, withProcessing false (processAll env docs w)).
Proof.
  revert docs w. induction n as [|n IH]; intros docs w Hn; [lia|].
  destruct docs as [|d docs]; simpl.
  - apply advanceN_Finished.
  - destruct (processEmailJob _ _ _ d w) as [w' []].
    + apply IH. simpl in Hn. lia.
    + apply advanceN_Finished.
Qed.

Lemma advance_Querying env w :
  advance env Querying w
  = let pendingEmails :=
      populate (Users (database w)) <$> findPending (queryTime env) (queue w) in
    if bool_decide (length pendingEmails = 0%nat)
    then (Finished, withProcessing false w)
    else (Working pendingEmails, w).
Proof. reflexivity. Qed.

Lemma advanceN_processQueue env w :
  advanceN (3 + batchSize) env Scheduled w = (Finished, processQueue env w).
Proof.
  unfold processQueue. change (3 + batchSize)%nat with (S (S (S batchSize))).
  destruct (isProcessing w) eqn:E.
  - cbn [advanceN]. rewrite (advance_guard env w E). apply advanceN_Finished.
  - cbn [advanceN].
    assert (advance env Scheduled w = (Querying, withProcessing true w)) as ->
      by (simpl; by rewrite E).
    rewrite advance_Querying. cbv zeta.
    case_bool_decide.
    + exact (advanceN_Finished (S batchSize) env _).
    + apply (advanceN_Working env _ _ (S batchSize)).
      rewrite length_fmap.
      pose proof (findPending_length (queryTime env) (queue (withProcessing true w))).
      lia.
Qed.

(** *** Two calls in one process *)

Lemma world_eta w : mkWorld (database w) (outbox w) (isProcessing w) = w.
Proof. by destruct w. Qed.

Lemma stepAt_first env env' p w p' :
  stepAt 0 0 (twoRuns env env' p w p')
  = twoRuns env env' (advance env p w).1 (advance env p w).2 p'.
Proof.
  unfold stepAt, twoRuns. simpl. rewrite world_eta.
  by destruct (advance env p w).
Qed.

Lemma stepAt_second_guard env env' p w :
  isProcessing w = true ->
  stepAt 0 1 (twoRuns env env' p w Scheduled) = twoRuns env env' p w Finished.
Proof. intros Hflag. unfold stepAt, twoRuns. simpl. by rewrite Hflag. Qed.

Lemma stepAt_second_done env env' p w :
  stepAt 0 1 (twoRuns env env' p w Finished) = twoRuns env env' p w Finished.
Proof. reflexivity. Qed.

Lemma stepAt_elsewhere env env' p w p' k i :
  (k, i) <> (0%nat, 0%nat) -> (k, i) <> (0%nat, 1%nat) ->
  stepAt k i (twoRuns env env' p w p') = twoRuns env env' p w p'.
Proof. intros H0 H1. by destruct k as [|k], i as [|[|i]]. Qed.

Lemma advanceN_add n m env p w :
  advanceN (n + m) env p w
  = advanceN m env (advanceN n env p w).1 (advanceN n env p w).2.
Proof.
  revert p w. induction n as [|n IH]; intros p w; simpl; [done|].
  destruct (advance env p w) as [p1 w1]. apply IH.
Qed.

Lemma advanceN_S n env p w :
  advanceN (S n) env p w
  = advanceN n env (advance env p w).1 (advance env p w).2.
Proof. simpl. by destruct (advance env p w). Qed.

(** A run taken alone has the flag up exactly while it is active. *)
Lemma advanceN_flag n env w :
  isProcessing w = false ->
  active (advanceN n env Scheduled w).1 = isProcessing (advanceN n env Scheduled w).2.
Proof.
  intros Hflag.
  assert (forall n p w,
             active p = isProcessing w ->
             active (advanceN n env p w).1 = isProcessing (advanceN n env p w).2) as Hgen.
  { clear. induction n as [|n IH]; intros p w Hpw; [done|].
    rewrite advanceN_S. apply IH.
    pose proof (advance_balance env p w) as Hbal. rewrite Hpw in Hbal.
    specialize (Hbal (fun H => H)). unfold weight in Hbal.
    destruct (active (advance env p w).1), (isProcessing (advance env p w).2),
      (isProcessing w); simpl in Hbal; try done; lia. }
  apply Hgen. simpl. by rewrite Hflag.
Qed.

(** Once a run taken alone has ended, it has done what [processQueue]
    does. *)
Lemma advanceN_done n env w :
  (advanceN n env Scheduled w).1 = Finished ->
  (advanceN n env Scheduled w).2 = processQueue env w.
Proof.
  intros Hfin. destruct (Nat.le_ge_cases n (3 + batchSize)) as [Hle|Hge].
  - pose proof (advanceN_processQueue env w) as Hpq.
    replace (3 + batchSize)%nat with (n + (3 + batchSize - n))%nat in Hpq by lia.
    rewrite advanceN_add, Hfin, advanceN_Finished in Hpq. by injection Hpq.
  - replace n with ((3 + batchSize) + (n - (3 + batchSize)))%nat by lia.
    rewrite advanceN_add, advanceN_processQueue. simpl fst. simpl snd.
    by rewrite advanceN_Finished.
Qed.

Lemma play_first_steps k env env' p w p' :
  play (replicate k (0%nat, 0%nat)) (twoRuns env env' p w p')
  = twoRuns env env' (advanceN k env p w).1 (advanceN k env p w).2 p'.
Proof.
  revert p w. induction k as [|k IH]; intros p w; [done|].
  rewrite advanceN_S. simpl. rewrite stepAt_first. apply IH.
Qed.

(** After the second call has ended at its guard, every schedule only
    moves the first call. *)
Lemma play_after_guard rest env env' p w :
  play rest (twoRuns env env' p w Finished)
  = twoRuns env env' (advanceN (stepsOfFirst rest) env p w).1
      (advanceN (stepsOfFirst rest) env p w).2 Finished.
Proof.
  revert p w. induction rest as [|[k i] rest IH]; intros p w; [done|].
  change (play ((k, i) :: rest) ?x) with (play rest (stepAt k i x)).
  unfold stepsOfFirst. rewrite filter_cons.
  destruct (decide ((k, i) = (0%nat, 0%nat))) as [Hki|Hki].
  - injection Hki as -> ->. rewrite stepAt_first.
    change (length ((0%nat, 0%nat) :: ?l)) with (S (length l)).
    rewrite advanceN_S. apply IH.
  - destruct (decide ((k, i) = (0%nat, 1%nat))) as [Hsnd|Hsnd].
    + injection Hsnd as -> ->. rewrite stepAt_second_done. apply IH.
    + rewrite stepAt_elsewhere by done. apply IH.
Qed.

(** Two calls of [processQueue] in one process, the second made while the
    first is in processing, do together what the first does alone. *)
Lemma overlapping_runs env env' w k rest :
  isProcessing w = false ->
  active (advanceN k env Scheduled w).1 = true ->
  (advanceN (k + stepsOfFirst rest) env Scheduled w).1 = Finished ->
  play (replicate k (0%nat, 0%nat) ++ (0%nat, 1%nat) :: rest)
    (twoRuns env env' Scheduled w Scheduled)
  = twoRuns env env' Finished (processQueue env w) Finished.
Proof.
  intros Hflag Hact Hfin. unfold play. rewrite foldl_app. fold (play (replicate k (0%nat, 0%nat))
    (twoRuns env env' Scheduled w Scheduled)).
  rewrite play_first_steps. simpl foldl.
  rewrite stepAt_second_guard
    by (rewrite <- advanceN_flag by done; exact Hact).
  fold (play rest (twoRuns env env' (advanceN k env Scheduled w).1
                     (advanceN k env Scheduled w).2 Finished)).
  rewrite play_after_guard, <- advanceN_add, Hfin.
  by rewrite (advanceN_done _ _ _ Hfin).
Qed.

(** A call of [sendEmail] that names a recipient and a subject invokes the
    transport once under the development and the SendGrid provider. *)
Lemma sendEmail_invokes_transport svc a :
  truthy (to a) = true -> truthy (argSubject a) = true ->
  provider svc = development \/ provider svc = sendgrid ->
  exists m, (sendEmail svc a).2 = [m] /\ outTo m = to a.
Proof.
  intros Hto Hsubj Hprov. unfold sendEmail. rewrite Hto, Hsubj. simpl.
  unfold dispatch. destruct Hprov as [-> | ->].
  - eexists. split; [reflexivity|]. unfold emailDataOf.
    by destruct (match template a with Some (String _ _ as t) => _ | _ => _ end).
  - unfold sendWithSendGrid.
    assert (dataTo (emailDataOf svc a) = to a) as Hd.
    { unfold emailDataOf.
      by destruct (match template a with Some (String _ _ as t) => _ | _ => _ end). }
    destruct (truthy (dataTemplateId _)); destruct (sdkSend svc _);
      eexists; (split; [reflexivity|]); exact Hd.
Qed.

(** A run over a queue whose batch is one job, not skipped, hands one
    message to the transport, addressed to the recipient. *)
Lemma processQueue_single_job env w id j u :
  isProcessing w = false ->
  findPending (queryTime env) (queue w) = [(id, j)] ->
  Users (database w) !! recipient j = Some u ->
  shouldSkipEmail (hostOffset env) (atCheck (clockOf env id)) j
    (Preferences (database w) !! recipient j) = false ->
  userEmail u <> "" -> subject j <> "" ->
  provider (service env) = development \/ provider (service env) = sendgrid ->
  exists m,
    outbox (processQueue env w) = outbox w ++ [m]
    /\ outTo m = Some (userEmail u).
Proof.
  intros Hflag Hbatch Hu Hskip Hmail Hsubj Hprov.
  destruct (sendEmail_invokes_transport (service env) (deliveryArgs u j))
    as (m & Hm & Hto).
  { simpl. destruct (userEmail u); [by destruct Hmail|done]. }
  { simpl. destruct (subject j); [by destruct Hsubj|done]. }
  { done. }
  exists m. split; [|exact Hto].
  unfold processQueue. rewrite Hflag, queue_withProcessing, Hbatch. simpl.
  assert (populate (Users (database w)) (id, j) = mkDoc id j (Some u)) as ->
    by (unfold populate; simpl; by rewrite Hu).
  rewrite (processEmailJob_delivered _ _ _ (mkDoc id j (Some u)) _ u) by done.
  simpl. destruct (sendEmail (service env) (deliveryArgs u j)) as [[r|msg] calls].
  - simpl in Hm. by rewrite Hm.
  - simpl in Hm. rewrite Hm. by destruct (retryAttempts <=? attempts j + 1).
Qed.

(** C5 (amended). Within one processor instance at most one run of
    [processQueue] is in processing at a time, in every interleaving of
    its runs with each other and with the runs of other instances; and a
    run that begins while another run of its instance is still in
    processing is a no-op: it ends at once, and the database, the transport
    and the flag are as they were.  Two calls in one process, the second
    made while the first is in processing, therefore do together what the
    first does alone, however their steps are interleaved afterwards; when
    they race on one pending job that is not skipped, the transport is
    invoked exactly once. *)
Theorem one_run_in_processing_per_instance schedule s :
  Forall idle (instances s) ->
  Forall (fun inst => (activeCount (runs inst) <= 1)%nat) (instances (play schedule s))
  /\ (forall k i inst r,
        instances (play schedule s) !! k = Some inst ->
        runs inst !! i = Some r ->
        phase r = Scheduled ->
        (1 <= activeCount (runs inst))%nat ->
        shared (stepAt k i (play schedule s)) = shared (play schedule s)
        /\ transported (stepAt k i (play schedule s)) = transported (play schedule s)
        /\ instances (stepAt k i (play schedule s))
           = <[k := mkInstance (flag inst)
                      (<[i := mkRun (runEnv r) Finished]> (runs inst))]>
               (instances (play schedule s)))
  /\ (forall env env' w k rest,
        isProcessing w = false ->
        active (advanceN k env Scheduled w).1 = true ->
        (advanceN (k + stepsOfFirst rest) env Scheduled w).1 = Finished ->
        play (replicate k (0%nat, 0%nat) ++ (0%nat, 1%nat) :: rest)
          (twoRuns env env' Scheduled w Scheduled)
        = twoRuns env env' Finished (processQueue env w) Finished)
  /\ (forall env w id j u,
        isProcessing w = false ->
        findPending (queryTime env) (queue w) = [(id, j)] ->
        Users (database w) !! recipient j = Some u ->
        shouldSkipEmail (hostOffset env) (atCheck (clockOf env id)) j
          (Preferences (database w) !! recipient j) = false ->
        userEmail u <> "" -> subject j <> "" ->
        provider (service env) = development \/ provider (service env) = sendgrid ->
        exists m,
          outbox (processQueue env w) = outbox w ++ [m]
          /\ outTo m = Some (userEmail u)).
Proof.
  intros Hidle.
  assert (Forall settled (instances (play schedule s))) as Hs.
  { apply play_settled. eapply Forall_impl; [exact Hidle|]. apply idle_settled. }
  split; [|split; [|split]].
  - eapply Forall_impl; [exact Hs|]. intros inst Hinst. unfold settled in Hinst.
    rewrite Hinst. destruct (flag inst); lia.
  - intros k i inst r Hk Hi Hp Hone.
    pose proof (Forall_lookup_1 _ _ _ _ Hs Hk) as Hinst. unfold settled in Hinst.
    assert (flag inst = true) as Hflag by (destruct (flag inst); [done|lia]).
    unfold stepAt. rewrite Hk, Hi, Hp.
    rewrite advance_guard by done. simpl. by rewrite Hflag.
  - intros env env' w k rest. apply overlapping_runs.
  - intros env w id j u. apply processQueue_single_job.
Qed.

Lemma one_run_in_processing_per_instance_witness :
  Forall (fun inst => (activeCount (runs inst) <= 1)%nat)
    (instances (play [(0%nat, 0%nat)] SampleRace.oneProcess))
  /\ (instances (play [(0%nat, 0%nat)] SampleRace.oneProcess)
      = [mkInstance true [mkRun (Sample.at14 Sample.devService) Querying;
                          mkRun (Sample.at14 Sample.devService) Scheduled]]
      /\ shared (stepAt 0 1 (play [(0%nat, 0%nat)] SampleRace.oneProcess))
         = shared (play [(0%nat, 0%nat)] SampleRace.oneProcess)
      /\ transported (stepAt 0 1 (play [(0%nat, 0%nat)] SampleRace.oneProcess))
         = transported (play [(0%nat, 0%nat)] SampleRace.oneProcess)
      /\ instances (stepAt 0 1 (play [(0%nat, 0%nat)] SampleRace.oneProcess))
         = [mkInstance true [mkRun (Sample.at14 Sample.devService) Querying;
                             mkRun (Sample.at14 Sample.devService) Finished]])
  /\ play SampleRace.secondArrivesEarly SampleRace.oneProcess
     = twoRuns (Sample.at14 Sample.devService) (Sample.at14 Sample.devService)
         Finished
         (processQueue (Sample.at14 Sample.devService) SampleAttempt.defaultWorld)
         Finished
  /\ exists m,
       transported (play SampleRace.secondArrivesEarly SampleRace.oneProcess) = [m]
       /\ outTo m = Some "ann@example.com".
Proof.
  destruct (one_run_in_processing_per_instance [(0%nat, 0%nat)] SampleRace.oneProcess)
    as (Hone & Hnoop & Hover & Hsingle).
  { repeat constructor. }
  assert (play SampleRace.secondArrivesEarly SampleRace.oneProcess
          = twoRuns (Sample.at14 Sample.devService) (Sample.at14 Sample.devService)
              Finished
              (processQueue (Sample.at14 Sample.devService) SampleAttempt.defaultWorld)
              Finished) as Hplay.
  { apply (Hover (Sample.at14 Sample.devService) (Sample.at14 Sample.devService)
             SampleAttempt.defaultWorld 2%nat [(0%nat, 0%nat); (0%nat, 0%nat)]);
      reflexivity. }
  split; [exact Hone|]. split; [|split; [exact Hplay|]].
  - split; [reflexivity|].
    destruct (Hnoop 0%nat 1%nat
                (mkInstance true [mkRun (Sample.at14 Sample.devService) Querying;
                                  mkRun (Sample.at14 Sample.devService) Scheduled])
                (mkRun (Sample.at14 Sample.devService) Scheduled))
      as (Hdb & Hout & Hinst).
    { reflexivity. }
    { reflexivity. }
    { reflexivity. }
    { apply le_n. }
    split; [exact Hdb|]. split; [exact Hout|]. rewrite Hinst. reflexivity.
  - destruct (Hsingle (Sample.at14 Sample.devService) SampleAttempt.defaultWorld
                1%N (loaded SampleAttempt.doc1) Sample.ann)
      as (m & Hm & Hto); try reflexivity; try discriminate.
    { by left. }
    exists m. rewrite Hplay. split; [exact Hm|exact Hto].
Defined.

(** C5 fails as stated: two runs, one in each of two server processes, that
    both load the same pending job do not end with exactly one transport
    invocation; the later save is not refused. *)
Lemma double_send_counterexample :
  length (transported (play SampleRace.bothLoadFirst SampleRace.twoProcesses))
  <> 1%nat
  /\ status <$> (shared (play SampleRace.bothLoadFirst SampleRace.twoProcesses)).(EmailQueue) !! 1%N
     = Some sent.
Proof. split; [vm_compute; discriminate|reflexivity]. Qed.

(** ** Limits of the statements above *)

Lemma processEmailJob_split svc h clk d w :
  processEmailJob svc h clk d w = completeAttempt svc h clk d (markAttempt clk d w).
Proof. reflexivity. Qed.


(** The same happens between two server processes that have both loaded a
    job before its third attempt: the first fails and records the error,
    the second sends and saves [sent] over it. *)
Example stale_save_keeps_failure_reason :
  (shared (play SampleRace.bothLoadFirst SampleStale.twoProcesses)).(EmailQueue) !! 1%N
  = Some (setSentAt (Some (14 * Sample.hour + 2))
            (setStatus sent
               (setFailureReason (Some "connect ETIMEDOUT")
                  (setLastAttempt (Some (14 * Sample.hour))
                     (setAttempts 3 SampleStale.twice))))).
Proof. reflexivity. Qed.

(** Retry exhaustion: a job whose transport fails on every attempt is
    failed after exactly three attempts, and three messages were handed to
    the transport. *)
Example retry_exhaustion :
  queue (run SampleLife.threeFailures SampleLife.start) !! 0%N
  = Some SampleLife.exhausted
  /\ length (outbox (run SampleLife.threeFailures SampleLife.start)) = 3%nat
  /\ status <$> queue (run (take 3 SampleLife.threeFailures) SampleLife.start) !! 0%N
     = Some pending.
Proof. repeat split. Qed.

(** * Further properties of the code *)

(** ** A run of [processQueue] *)

Lemma sendEmail_calls svc a : (length (sendEmail svc a).2 <= 1)%nat.
Proof.
  unfold sendEmail. destruct (negb (truthy (to a))); [simpl; lia|].
  destruct (_ && _); [simpl; lia|].
  unfold dispatch. destruct (provider svc); simpl; try lia.
  - unfold sendWithSendGrid. destruct (sdkSend svc _); simpl; lia.
  - destruct (truthy _); simpl; lia.
Qed.

(** What an attempt changes: the stored job of its document, and the
    outbox, by at most one call. *)
Lemma processEmailJob_shape svc h clk d w :
  exists f calls,
    (processEmailJob svc h clk d w).1
    = withOutbox (outbox w ++ calls) (save (docId d) f w)
    /\ (length calls <= 1)%nat.
Proof.
  unfold processEmailJob.
  destruct (populated d) as [u|]; simpl.
  2:{ eexists _, []. rewrite app_nil_r. split; [by destruct w|simpl; lia]. }
  destruct (shouldSkipEmail _ _ _ _); simpl.
  { eexists _, []. rewrite save_save, app_nil_r. split; [by destruct w|simpl; lia]. }
  match goal with |- context [sendEmail svc ?a] =>
    pose proof (sendEmail_calls svc a) as Hc; destruct (sendEmail svc a) as [[r|msg] calls]
  end; simpl in *.
  { eexists _, calls. by rewrite save_withOutbox, save_save. }
  destruct (retryAttempts <=? _); simpl;
    eexists _, calls; by rewrite save_withOutbox, save_save.
Qed.

Lemma processAll_frame env docs w :
  Preferences (database (processAll env docs w)) = Preferences (database w)
  /\ Users (database (processAll env docs w)) = Users (database w)
  /\ isProcessing (processAll env docs w) = isProcessing w
  /\ exists calls,
       outbox (processAll env docs w) = outbox w ++ calls
       /\ (length calls <= length docs)%nat.
Proof.
  revert w. induction docs as [|d docs IH]; intros w; simpl.
  { repeat split; try done. exists []. by rewrite app_nil_r. }
  destruct (processEmailJob_shape (service env) (hostOffset env)
              (clockOf env (docId d)) d w) as (f & calls & Hw & Hlen).
  destruct (processEmailJob _ _ _ d w) as [w' c]. simpl in Hw. subst w'.
  destruct c.
  - destruct (IH (withOutbox (outbox w ++ calls) (save (docId d) f w)))
      as (Hp & Hu & Hf & calls' & Ho & Hlen').
    rewrite Hp, Hu, Hf, Ho. repeat split; try done.
    exists (calls ++ calls'). simpl. rewrite app_assoc, length_app. split; [done|lia].
  - repeat split; try done. exists calls. simpl. split; [done|lia].
Qed.

(** X1. A run of [processQueue] leaves the preferences, the users and the
    flag as they were, hands at most [batchSize] (10) messages to the
    transport, and writes to no job outside the batch its query returned. *)
Theorem processQueue_frame env w :
  Preferences (database (processQueue env w)) = Preferences (database w)
  /\ Users (database (processQueue env w)) = Users (database w)
  /\ isProcessing (processQueue env w) = isProcessing w
  /\ (exists calls,
        outbox (processQueue env w) = outbox w ++ calls
        /\ (length calls <= batchSize)%nat)
  /\ (forall id,
        id ∉ (findPending (queryTime env) (queue w)).*1 ->
        queue (processQueue env w) !! id = queue w !! id).
Proof.
  unfold processQueue. destruct (isProcessing w) eqn:Hflag.
  { repeat split; try done. exists []. rewrite app_nil_r. split; [done|simpl; lia]. }
  case_bool_decide as Hempty.
  { simpl. repeat split; try done. exists []. rewrite app_nil_r.
    split; [done|simpl; lia]. }
  set (docs := populate (Users (database (withProcessing true w)))
                 <$> findPending (queryTime env) (queue (withProcessing true w))) in *.
  destruct (processAll_frame env docs (withProcessing true w))
    as (Hp & Hu & _ & calls & Ho & Hlen).
  change (database (withProcessing false ?x)) with (database x).
  change (outbox (withProcessing false ?x)) with (outbox x).
  change (queue (withProcessing false ?x)) with (queue x).
  rewrite Hp, Hu, Ho. repeat split; try done.
  - exists calls. split; [done|]. unfold docs in Hlen. rewrite length_fmap in Hlen.
    pose proof (findPending_length (queryTime env) (queue (withProcessing true w))).
    lia.
  - intros id Hid. rewrite processAll_other; [done|].
    unfold docs. by rewrite <- list_fmap_compose.
Qed.

(** X2. When the flag is down and no stored job is due at the time of the
    query, a run of [processQueue] changes nothing at all. *)
Theorem processQueue_nothing_due env w :
  isProcessing w = false ->
  (forall id j, queue w !! id = Some j -> isDue (queryTime env) j = false) ->
  processQueue env w = w.
Proof.
  intros Hflag Hnone. unfold processQueue. rewrite Hflag.
  assert (findPending (queryTime env) (queue (withProcessing true w)) = []) as ->.
  { unfold findPending. rewrite queue_withProcessing.
    assert (filter (fun e : N * EmailJob => isDue (queryTime env) e.2 = true)
              (map_to_list (queue w)) = []) as ->; [|done].
    apply elem_of_nil_inv. intros [id j] [Hdue Hin]%list_elem_of_filter.
    apply elem_of_map_to_list in Hin. simpl in Hdue.
    by rewrite (Hnone id j Hin) in Hdue. }
  simpl. destruct w. simpl in *. by subst.
Qed.

(** An attempt on a job whose recipient exists returns, having counted
    itself and taken the job out of [processing]. *)
Lemma processEmailJob_populated svc h clk d w u :
  populated d = Some u ->
  exists f calls,
    processEmailJob svc h clk d w
    = (withOutbox (outbox w ++ calls) (save (docId d) f w), Returned)
    /\ forall j,
         attempts (f j) = attempts (loaded d) + 1
         /\ lastAttempt (f j) = Some (atMark clk)
         /\ status (f j) <> processing.
Proof.
  intros Hu. unfold processEmailJob. rewrite Hu.
  destruct (shouldSkipEmail _ _ _ _); simpl.
  { eexists _, []. rewrite save_save, app_nil_r. split; [by destruct w|].
    intros j. by unfold_setters. }
  destruct (sendEmail svc _) as [[r|msg] calls]; simpl.
  { eexists _, calls. rewrite save_withOutbox, save_save. split; [done|].
    intros j. by unfold_setters. }
  destruct (retryAttempts <=? _); simpl;
    eexists _, calls; rewrite save_withOutbox, save_save; (split; [done|]);
    intros j; by unfold_setters.
Qed.

Lemma processAll_attempted env now docs w d :
  coherent now docs (queue w) ->
  (forall d', d' ∈ docs -> is_Some (populated d')) ->
  d ∈ docs ->
  exists j',
    queue (processAll env docs w) !! docId d = Some j'
    /\ attempts j' = attempts (loaded d) + 1
    /\ lastAttempt j' = Some (atMark (clockOf env (docId d)))
    /\ status j' <> processing.
Proof.
  revert w. induction docs as [|d0 docs IH]; intros w [Hnd Hco] Hpop Hd.
  { by apply elem_of_nil in Hd. }
  apply NoDup_cons in Hnd as [Hnotin Hnd].
  destruct (Hpop d0) as [u Hu]; [left|].
  destruct (processEmailJob_populated (service env) (hostOffset env)
              (clockOf env (docId d0)) d0 w u Hu) as (f & calls & Hw & Hf).
  simpl. rewrite Hw.
  set (w1 := withOutbox (outbox w ++ calls) (save (docId d0) f w)).
  assert (coherent now docs (queue w1)) as Hco1.
  { split; [done|]. intros d' Hd'. unfold w1.
    rewrite queue_withOutbox, queue_save, lookup_alter_ne.
    - apply Hco. by right.
    - intros Heq. apply Hnotin. rewrite Heq. by apply list_elem_of_fmap_2. }
  apply elem_of_cons in Hd as [->|Hd].
  - rewrite processAll_other by done.
    destruct (Hco d0) as [Hst _]; [left|].
    exists (f (loaded d0)). split; [|apply Hf].
    unfold w1. by rewrite queue_withOutbox, queue_save, lookup_alter_eq, Hst.
  - apply IH; [done| |done]. intros d' Hd'. apply Hpop. by right.
Qed.

(** X3. When the flag is down and the recipients of the jobs in the batch
    all exist, a run of [processQueue] gives every job of the batch exactly
    one attempt: its [attempts] is one more than before, [lastAttempt] is
    the time it was marked, and it is not left in [processing]. *)
Theorem processQueue_attempts_its_batch env w id j :
  isProcessing w = false ->
  (forall e, e ∈ findPending (queryTime env) (queue w) ->
             is_Some (Users (database w) !! recipient e.2)) ->
  (id, j) ∈ findPending (queryTime env) (queue w) ->
  exists j',
    queue (processQueue env w) !! id = Some j'
    /\ attempts j' = attempts j + 1
    /\ lastAttempt j' = Some (atMark (clockOf env id))
    /\ status j' <> processing.
Proof.
  intros Hflag Hpop Hin. unfold processQueue. rewrite Hflag.
  case_bool_decide as Hempty.
  { apply length_zero_iff_nil, fmap_nil_inv in Hempty.
    rewrite queue_withProcessing in Hempty. rewrite Hempty in Hin.
    by apply elem_of_nil in Hin. }
  rewrite queue_withProcessing.
  apply (processAll_attempted env (queryTime env) _ _
           (populate (Users (database w)) (id, j))).
  - apply populate_coherent.
  - intros d' (e & -> & He)%list_elem_of_fmap. by apply Hpop.
  - by apply list_elem_of_fmap_2.
Qed.

Lemma processQueue_attempts_its_batch_witness :
  exists j',
    queue (processQueue (Sample.at14 Sample.failingService)
             SampleAttempt.defaultWorld) !! 1%N = Some j'
    /\ attempts j' = 0 + 1
    /\ lastAttempt j' = Some (14 * Sample.hour)
    /\ status j' <> processing.
Proof.
  apply (processQueue_attempts_its_batch (Sample.at14 Sample.failingService)
           SampleAttempt.defaultWorld 1%N (loaded SampleAttempt.doc1)).
  - reflexivity.
  - intros e He. vm_compute in He. apply list_elem_of_singleton in He as ->.
    by eexists.
  - vm_compute. apply list_elem_of_singleton. reflexivity.
Defined.

Lemma processQueue_nothing_due_witness :
  processQueue (Sample.at14 Sample.devService)
    (Sample.world {[ 1%N := Sample.job welcome "Later" high (15 * Sample.hour) ]} ∅)
  = Sample.world {[ 1%N := Sample.job welcome "Later" high (15 * Sample.hour) ]} ∅.
Proof.
  apply (processQueue_nothing_due (Sample.at14 Sample.devService)
           (Sample.world {[ 1%N := Sample.job welcome "Later" high (15 * Sample.hour) ]} ∅)).
  - reflexivity.
  - intros id j Hj.
    change (({[ 1%N := Sample.job welcome "Later" high (15 * Sample.hour) ]}
               : gmap N EmailJob) !! id = Some j) in Hj.
    apply lookup_singleton_Some in Hj as [_ <-]. reflexivity.
Defined.

(** ** A job whose recipient no longer exists *)

Lemma processing_perform op w k j :
  status j = processing ->
  queue w !! k = Some j ->
  match op with AdminCancel true emailId => emailId <> k | _ => True end ->
  queue (perform op w) !! k = Some j.
Proof.
  intros Hst Hk Hop. destruct op; simpl.
  - unfold enqueue. destruct (create _ _ _) as [[id q]|] eqn:E; [|done].
    rewrite queue_withQueue. by eapply create_lookup.
  - apply processQueue_not_due; [done|congruence].
  - apply generateDigests_lookup; [|done].
    intros; by eapply createDailyDigestEmail_lookup.
  - apply generateDigests_lookup; [|done].
    intros; by eapply createWeeklyDigestEmail_lookup.
  - unfold retryFailedEmail. destruct isAdmin; [|done]. simpl.
    destruct (queue w !! emailId) as [j'|] eqn:E; [|done].
    case_bool_decide as Hf; [|done]. simpl.
    rewrite queue_save, lookup_alter_ne; [done|].
    intros ->. rewrite Hk in E. injection E as ->. congruence.
  - unfold cancelEmail. destruct isAdmin; [|done]. simpl.
    destruct (queue w !! emailId) as [j'|] eqn:E; [|done].
    destruct (_ || _); [|done]. simpl.
    by rewrite queue_save, lookup_alter_ne.
  - unfold cleanupOldEmails. rewrite queue_withQueue.
    apply map_lookup_filter_Some_2; [done|]. simpl.
    unfold isExpired. by rewrite Hst.
  - done.
Qed.

(** X4. A due job whose recipient user does not exist is left in
    [processing] by its attempt, which has counted itself and called no
    transport; the exception that escapes ends the run, so the jobs behind
    it in the batch are not attempted; and nothing moves the job again:
    through any later operations other than an admin cancel of this very
    job, it stays exactly as the attempt left it. *)
Theorem missing_recipient_leaves_job_processing env d rest w ops :
  populated d = None ->
  queue w !! docId d = Some (loaded d) ->
  notCancelling (docId d) ops ->
  exists j',
    queue (processAll env (d :: rest) w) !! docId d = Some j'
    /\ status j' = processing
    /\ attempts j' = attempts (loaded d) + 1
    /\ outbox (processAll env (d :: rest) w) = outbox w
    /\ (forall k, k <> docId d ->
                  queue (processAll env (d :: rest) w) !! k = queue w !! k)
    /\ queue (run ops (processAll env (d :: rest) w)) !! docId d = Some j'.
Proof.
  intros Hu Hd Hops.
  assert (processAll env (d :: rest) w
          = save (docId d) (marked (clockOf env (docId d)) d) w) as ->.
  { simpl. unfold processEmailJob. by rewrite Hu. }
  exists (marked (clockOf env (docId d)) d (loaded d)).
  assert (queue (save (docId d) (marked (clockOf env (docId d)) d) w) !! docId d
          = Some (marked (clockOf env (docId d)) d (loaded d))) as Hj
    by by apply lookup_save.
  repeat split; try done.
  - intros k Hk. by rewrite queue_save, lookup_alter_ne.
  - clear Hd. revert Hops. unfold notCancelling.
    induction ops as [|op ops IH] using rev_ind; [done|].
    intros [Hops Hop]%Forall_app. rewrite Forall_singleton in Hop.
    rewrite run_snoc. apply processing_perform; auto.
Qed.

Lemma missing_recipient_leaves_job_processing_witness :
  exists j',
    queue (processAll (Sample.at14 Sample.devService)
             [SampleOrphan.orphanDoc; SampleOrphan.nextDoc] SampleOrphan.start) !! 1%N
    = Some j'
    /\ status j' = processing
    /\ attempts j' = 0 + 1
    /\ outbox (processAll (Sample.at14 Sample.devService)
                 [SampleOrphan.orphanDoc; SampleOrphan.nextDoc] SampleOrphan.start)
       = []
    /\ (forall k, k <> 1%N ->
          queue (processAll (Sample.at14 Sample.devService)
                   [SampleOrphan.orphanDoc; SampleOrphan.nextDoc] SampleOrphan.start) !! k
          = queue SampleOrphan.start !! k)
    /\ queue (run SampleOrphan.later
                (processAll (Sample.at14 Sample.devService)
                   [SampleOrphan.orphanDoc; SampleOrphan.nextDoc] SampleOrphan.start))
         !! 1%N = Some j'.
Proof.
  apply (missing_recipient_leaves_job_processing (Sample.at14 Sample.devService)
           SampleOrphan.orphanDoc [SampleOrphan.nextDoc] SampleOrphan.start
           SampleOrphan.later).
  - reflexivity.
  - reflexivity.
  - repeat constructor. discriminate.
Defined.

(** ** [getQueueStats] *)

Lemma foldl_assignStat q :
  getQueueStats q
  = mkQueueStats (countStatus pending (queue q)) (countStatus processing (queue q))
      (countStatus sent (queue q)) (countStatus failed (queue q))
      (countStatus cancelled (queue q)).
Proof.
  unfold getQueueStats, groupByStatus, allStatuses. simpl.
  rewrite !filter_cons, filter_nil. simpl.
  repeat case_decide; unfold assignStat; simpl; f_equal; lia.
Qed.

Lemma length_by_status (l : list (N * EmailJob)) :
  length l
  = (length (filter (fun e => status e.2 = pending) l)
     + length (filter (fun e => status e.2 = processing) l)
     + length (filter (fun e => status e.2 = sent) l)
     + length (filter (fun e => status e.2 = failed) l)
     + length (filter (fun e => status e.2 = cancelled) l))%nat.
Proof.
  induction l as [|[id j] l IH]; [done|].
  rewrite !filter_cons. simpl.
  destruct (status j); repeat case_decide; try congruence; simpl; lia.
Qed.

(** X5. The statistics [getQueueStats] reports are, for each of the five
    statuses, the number of stored jobs in that status (0 for a status
    that does not occur), and they add up to the size of the queue. *)
Theorem getQueueStats_counts_every_job w :
  statPending (getQueueStats w) = countStatus pending (queue w)
  /\ statProcessing (getQueueStats w) = countStatus processing (queue w)
  /\ statSent (getQueueStats w) = countStatus sent (queue w)
  /\ statFailed (getQueueStats w) = countStatus failed (queue w)
  /\ statCancelled (getQueueStats w) = countStatus cancelled (queue w)
  /\ (statPending (getQueueStats w) + statProcessing (getQueueStats w)
      + statSent (getQueueStats w) + statFailed (getQueueStats w)
      + statCancelled (getQueueStats w))%nat = size (queue w).
Proof.
  rewrite foldl_assignStat. simpl. repeat split.
  rewrite <- length_map_to_list. unfold countStatus.
  symmetry. apply length_by_status.
Qed.

(** ** [cleanupOldEmails] *)

Lemma isExpired_later now1 now2 j :
  now1 <= now2 -> isExpired now1 j = true -> isExpired now2 j = true.
Proof.
  unfold isExpired. intros Hle.
  destruct (status j); try done.
  - destruct (sentAt j); [|done]. rewrite !Z.ltb_lt. lia.
  - destruct (lastAttempt j); [|done]. rewrite !Z.ltb_lt. lia.
  - rewrite !Z.ltb_lt. lia.
Qed.

Lemma cleanupOldEmails_lookup now w id :
  queue (cleanupOldEmails now w) !! id
  = match queue w !! id with
    | Some j => if isExpired now j then None else Some j
    | None => None
    end.
Proof.
  unfold cleanupOldEmails. rewrite queue_withQueue.
  destruct (queue w !! id) as [j|] eqn:Hj.
  - destruct (isExpired now j) eqn:E.
    + apply map_lookup_filter_None_2. right. intros j' Hj'. simpl.
      rewrite Hj in Hj'. injection Hj' as <-. by rewrite E.
    + by apply map_lookup_filter_Some_2.
  - apply map_lookup_filter_None_2. by left.
Qed.

Lemma cleanupOldEmails_queue now w :
  cleanupOldEmails now w = withQueue (queue (cleanupOldEmails now w)) w.
Proof. unfold cleanupOldEmails. by rewrite queue_withQueue. Qed.

Lemma cleanupOldEmails_ext a b c w :
  queue (cleanupOldEmails a (cleanupOldEmails b w)) = queue (cleanupOldEmails c w) ->
  cleanupOldEmails a (cleanupOldEmails b w) = cleanupOldEmails c w.
Proof.
  intros Hq. rewrite (cleanupOldEmails_queue a), Hq, (cleanupOldEmails_queue c w).
  unfold cleanupOldEmails at 2. by destruct w.
Qed.

Lemma cleanupOldEmails_absorb now1 now2 w :
  (forall j, isExpired now1 j = true -> isExpired now2 j = true) ->
  cleanupOldEmails now2 (cleanupOldEmails now1 w) = cleanupOldEmails now2 w
  /\ cleanupOldEmails now1 (cleanupOldEmails now2 w) = cleanupOldEmails now2 w.
Proof.
  intros Hlater. split; apply cleanupOldEmails_ext; apply map_eq; intros id;
    rewrite !cleanupOldEmails_lookup; (destruct (queue w !! id) as [j|]; [|done]).
  - destruct (isExpired now1 j) eqn:E1; [|done].
    by rewrite (Hlater j E1).
  - destruct (isExpired now2 j) eqn:E2; [done|].
    destruct (isExpired now1 j) eqn:E1; [|by rewrite ?E2].
    by rewrite (Hlater j E1) in E2.
Qed.

(** X6. What a retention sweep deletes, every later sweep deletes as
    well; a sweep never deletes a pending or a processing job, whatever
    its age, and never changes a job it keeps; and of two sweeps, in
    either order, the later one alone decides the result (in particular,
    sweeping twice is sweeping once). *)
Theorem cleanupOldEmails_sweeps_only_expired now1 now2 w :
  now1 <= now2 ->
  (forall id j,
     queue w !! id = Some j ->
     queue (cleanupOldEmails now1 w) !! id = None ->
     queue (cleanupOldEmails now2 w) !! id = None)
  /\ (forall id j,
        queue w !! id = Some j ->
        status j = pending \/ status j = processing ->
        queue (cleanupOldEmails now2 w) !! id = Some j)
  /\ (forall id j,
        queue (cleanupOldEmails now2 w) !! id = Some j -> queue w !! id = Some j)
  /\ cleanupOldEmails now2 (cleanupOldEmails now1 w) = cleanupOldEmails now2 w
  /\ cleanupOldEmails now1 (cleanupOldEmails now2 w) = cleanupOldEmails now2 w.
Proof.
  intros Hle. split; [|split; [|split]].
  - intros id j Hj. rewrite !cleanupOldEmails_lookup, Hj.
    destruct (isExpired now1 j) eqn:E1; [|done].
    by rewrite (isExpired_later now1 now2 j Hle E1).
  - intros id j Hj Hst. rewrite cleanupOldEmails_lookup, Hj.
    unfold isExpired. by destruct Hst as [-> | ->].
  - intros id j. rewrite cleanupOldEmails_lookup.
    destruct (queue w !! id) as [j'|]; [|done].
    by destruct (isExpired now2 j').
  - apply cleanupOldEmails_absorb. intros j. by apply isExpired_later.
Qed.

Lemma cleanupOldEmails_sweeps_only_expired_witness :
  queue (cleanupOldEmails (200 * Sample.hour) SampleSweep.start) !! 1%N = None
  /\ queue (cleanupOldEmails (400 * Sample.hour) SampleSweep.start) !! 1%N = None
  /\ queue (cleanupOldEmails (400 * Sample.hour) SampleSweep.start) !! 2%N
     = Some SampleSweep.waiting
  /\ cleanupOldEmails (400 * Sample.hour)
       (cleanupOldEmails (200 * Sample.hour) SampleSweep.start)
     = cleanupOldEmails (400 * Sample.hour) SampleSweep.start.
Proof.
  destruct (cleanupOldEmails_sweeps_only_expired (200 * Sample.hour)
              (400 * Sample.hour) SampleSweep.start)
    as (Hlater & Hkeep & _ & Htwice & _).
  { vm_compute. discriminate. }
  split; [reflexivity|]. split; [|split].
  - apply (Hlater 1%N SampleSweep.sentEarly); reflexivity.
  - apply (Hkeep 2%N SampleSweep.waiting); [reflexivity|by left].
  - exact Htwice.
Defined.

(** ** Properties of jobs that every operation keeps *)

Section JobInvariants.

Variable P : EmailJob -> Prop.

Hypothesis P_created :
  forall r ty subj body prio sched now,
    P (mkEmailJob r ty subj body None prio pending sched 0 None None None now).

Hypothesis P_attempt :
  forall clk d f calls,
    AttemptEffect clk d f calls ->
    P (loaded d) -> status (loaded d) = pending ->
    attempts (loaded d) < retryAttempts ->
    P (f (loaded d)).

Hypothesis P_retry :
  forall now j,
    P j -> status j = failed ->
    P (setFailureReason None (setScheduledFor now (setAttempts 0 (setStatus pending j)))).

Hypothesis P_cancel :
  forall j,
    P j -> status j = pending \/ status j = processing ->
    P (setFailureReason (Some cancelledByAdmin) (setStatus cancelled j)).

Let holds (w : World) : Prop := map_Forall (fun _ j => P j) (queue w).

Lemma holds_alter id f w :
  holds w ->
  (forall j, queue w !! id = Some j -> P (f j)) ->
  map_Forall (fun _ j => P j) (alter f id (queue w)).
Proof.
  intros Hs Hf k j. rewrite lookup_alter. case_decide as Hk.
  - subst k. destruct (queue w !! id) eqn:E; simpl; [|done].
    intros [= <-]. by apply Hf.
  - apply Hs.
Qed.

Lemma holds_create now d w id q :
  holds w -> create now d (queue w) = Ok (id, q) -> holds (withQueue q w).
Proof.
  intros Hs. unfold create. repeat case_bool_decide; try discriminate.
  intros [= <- <-]. unfold holds. rewrite queue_withQueue.
  apply map_Forall_insert_2; [|done]. apply P_created.
Qed.

Lemma holds_processAll env now docs w :
  coherent now docs (queue w) -> holds w -> holds (processAll env docs w).
Proof.
  revert w. induction docs as [|d docs IH]; intros w [Hnd Hco] Hs; [done|].
  simpl.
  destruct (processEmailJob_effect (service env) (hostOffset env)
              (clockOf env (docId d)) d w) as (f & calls & Heff & Hw).
  destruct (processEmailJob _ _ _ d w) as [w' c]. simpl in Hw. subst w'.
  destruct (Hco d) as [Hd Hdue]; [left|].
  apply isDue_spec in Hdue as (Hst & _ & Hatt).
  assert (holds (withOutbox (outbox w ++ calls) (save (docId d) f w))) as Hs'.
  { unfold holds. rewrite queue_withOutbox, queue_save.
    apply holds_alter; [done|].
    intros j Hj. rewrite Hd in Hj. injection Hj as <-.
    eapply P_attempt; eauto. }
  destruct c; [|done].
  apply IH; [|done].
  apply NoDup_cons in Hnd as [Hnotin Hnd].
  split; [done|]. intros d' Hd'.
  rewrite queue_withOutbox, queue_save, lookup_alter_ne.
  - apply Hco. by right.
  - intros Heq. apply Hnotin. rewrite Heq. by apply list_elem_of_fmap_2.
Qed.

Lemma holds_generateDigests createOne users w :
  (forall u w w', holds w -> createOne u w = Ok w' -> holds w') ->
  holds w -> holds (generateDigests createOne users w).
Proof.
  intros Hone. revert w. induction users as [|u users IH]; intros w Hs; [done|].
  simpl. destruct (createOne u w) eqn:E; [|done].
  apply IH. by eapply Hone.
Qed.

Lemma holds_perform op w : holds w -> holds (perform op w).
Proof.
  intros Hs. destruct op; simpl.
  - unfold enqueue. destruct (create now d (queue w)) as [[id q]|] eqn:E; [|done].
    by eapply holds_create.
  - unfold processQueue. destruct (isProcessing w); [done|].
    case_bool_decide; [done|].
    unfold holds. rewrite queue_withProcessing.
    eapply holds_processAll; [apply populate_coherent|done].
  - apply holds_generateDigests; [|done].
    intros u w1 w2 H1. unfold createDailyDigestEmail.
    destruct (compileTemplate svc _); [|discriminate].
    destruct (create _ _ _) as [[id q]|] eqn:E; [|discriminate].
    intros [= <-]. by eapply holds_create.
  - apply holds_generateDigests; [|done].
    intros u w1 w2 H1. unfold createWeeklyDigestEmail.
    destruct (compileTemplate svc _); [|discriminate].
    destruct (create _ _ _) as [[id q]|] eqn:E; [|discriminate].
    intros [= <-]. by eapply holds_create.
  - unfold retryFailedEmail. destruct isAdmin; [|done]. simpl.
    destruct (queue w !! emailId) as [j|] eqn:E; [|done].
    case_bool_decide as Hf; [|done]. simpl.
    unfold holds. rewrite queue_save. apply holds_alter; [done|].
    intros j' Hj'. rewrite E in Hj'. injection Hj' as <-.
    apply P_retry; [by eapply Hs|done].
  - unfold cancelEmail. destruct isAdmin; [|done]. simpl.
    destruct (queue w !! emailId) as [j|] eqn:E; [|done].
    destruct (_ || _) eqn:Hc; [|done]. simpl.
    unfold holds. rewrite queue_save. apply holds_alter; [done|].
    intros j' Hj'. rewrite E in Hj'. injection Hj' as <-.
    apply P_cancel; [by eapply Hs|].
    apply orb_true_iff in Hc as [Hc|Hc]; apply bool_decide_eq_true in Hc; auto.
  - intros k j. unfold cleanupOldEmails. rewrite queue_withQueue.
    intros [Hj _]%map_lookup_filter_Some. by eapply Hs.
  - done.
Qed.

Lemma holds_run ops w0 id j :
  queue w0 = ∅ -> queue (run ops w0) !! id = Some j -> P j.
Proof.
  intros Hempty.
  assert (holds (run ops w0)) as Hs.
  { induction ops as [|op ops IH] using rev_ind.
    - unfold holds. simpl. rewrite Hempty. apply map_Forall_empty.
    - rewrite run_snoc. by apply holds_perform. }
  intros Hj. by eapply Hs.
Qed.

End JobInvariants.

Lemma jobTimed_run ops w0 id j :
  queue w0 = ∅ -> queue (run ops w0) !! id = Some j -> jobTimed j.
Proof.
  apply holds_run; unfold jobTimed, retryAttempts.
  - intros. simpl. repeat split; try done; try lia; discriminate.
  - intros clk d f calls Heff (H0 & Hp & Hproc & Hf & Hs) Hst Hatt.
    inversion Heff; subst; unfold_setters; unfold retryAttempts in *;
      repeat split; intros; try done; try lia; try discriminate; by eexists.
  - intros now j0 (H0 & Hp & Hproc & Hf & Hs) Hst.
    unfold_setters. repeat split; intros; try done; try lia; discriminate.
  - intros j0 (H0 & Hp & Hproc & Hf & Hs) Hst.
    unfold_setters. repeat split; intros; try done; try lia; discriminate.
Qed.

(** X7. No pending job is shut out by the query's bound on attempts: in
    any state reached from an empty queue, a pending job passes the filter
    of [processQueue] at every time from its [scheduledFor] on, and is in
    the batch whenever no more than [batchSize] jobs are due. *)
Theorem pending_job_is_selectable ops w0 id j now :
  queue w0 = ∅ ->
  queue (run ops w0) !! id = Some j ->
  status j = pending ->
  scheduledFor j <= now ->
  isDue now j = true
  /\ ((length (filter (fun e => isDue now e.2 = true)
                 (map_to_list (queue (run ops w0)))) <= batchSize)%nat ->
      (id, j) ∈ findPending now (queue (run ops w0))).
Proof.
  intros Hempty Hj Hst Hsched.
  destruct (jobTimed_run ops w0 id j Hempty Hj) as (_ & Hp & _).
  assert (isDue now j = true) as Hdue by (apply isDue_spec; auto).
  split; [done|]. intros Hlen. by apply findPending_complete.
Qed.

Lemma pending_job_is_selectable_witness :
  isDue (23 * Sample.hour) (Sample.job job_alert "New matches" medium 0) = true
  /\ ((length (filter (fun e => isDue (23 * Sample.hour) e.2 = true)
                 (map_to_list
                    (queue (run [Enqueue 0 (mkNewEmail 7 job_alert "New matches"
                                              "<p>Hello</p>" None None)]
                              SampleLife.start)))) <= batchSize)%nat ->
      (0%N, Sample.job job_alert "New matches" medium 0)
      ∈ findPending (23 * Sample.hour)
          (queue (run [Enqueue 0 (mkNewEmail 7 job_alert "New matches"
                                    "<p>Hello</p>" None None)]
                    SampleLife.start))).
Proof.
  apply (pending_job_is_selectable
           [Enqueue 0 (mkNewEmail 7 job_alert "New matches" "<p>Hello</p>" None None)]
           SampleLife.start 0%N (Sample.job job_alert "New matches" medium 0)
           (23 * Sample.hour)); first [reflexivity | vm_compute; discriminate].
Defined.

(** X8. No terminal job is kept for ever: in any state reached from an
    empty queue, a sent, failed or cancelled job carries the date the
    retention sweep looks at ([sentAt], [lastAttempt], [createdAt]), and
    every sweep run more than a week after that date deletes it. *)
Theorem terminal_job_is_swept ops w0 id j :
  queue w0 = ∅ ->
  queue (run ops w0) !! id = Some j ->
  status j = sent \/ status j = failed \/ status j = cancelled ->
  exists t,
    retentionDate j = Some t
    /\ forall now, t + oneWeek < now ->
                   queue (cleanupOldEmails now (run ops w0)) !! id = None.
Proof.
  intros Hempty Hj Hst.
  destruct (jobTimed_run ops w0 id j Hempty Hj) as (_ & _ & _ & Hf & Hs).
  assert (exists t, retentionDate j = Some t) as [t Ht].
  { unfold retentionDate.
    destruct Hst as [Hst|[Hst|Hst]]; rewrite Hst; [by apply Hs|by apply Hf|by eexists]. }
  exists t. split; [done|]. intros now Hnow.
  unfold cleanupOldEmails. rewrite queue_withQueue.
  apply map_lookup_filter_None_2. right. intros j' Hj'.
  rewrite Hj in Hj'. injection Hj' as <-. simpl.
  assert (isExpired now j = true) as ->; [|done].
  unfold isExpired, retentionDate, oneWeek in *.
  destruct Hst as [Hst|[Hst|Hst]]; rewrite Hst in *.
  - rewrite Ht. apply Z.ltb_lt. lia.
  - rewrite Ht. apply Z.ltb_lt. lia.
  - injection Ht as <-. apply Z.ltb_lt. lia.
Qed.

Lemma terminal_job_is_swept_witness :
  exists t,
    retentionDate SampleLife.exhausted = Some t
    /\ forall now, t + oneWeek < now ->
         queue (cleanupOldEmails now (run SampleLife.threeFailures SampleLife.start))
           !! 0%N = None.
Proof.
  apply (terminal_job_is_swept SampleLife.threeFailures SampleLife.start 0%N
           SampleLife.exhausted).
  - reflexivity.
  - reflexivity.
  - right. left. reflexivity.
Defined.

(** ** The admin actions *)

(** X9. [retryFailedEmail] succeeds exactly for an admin and a stored job
    that is failed; otherwise it changes nothing.  When it succeeds the
    job is pending with no attempts counted and no failure reason, it
    passes the processor's filter at the time of the retry, and every
    other job is as it was. *)
Theorem retryFailedEmail_requeues isAdmin now emailId w :
  ((retryFailedEmail isAdmin now emailId w).1 = Success <->
     isAdmin = true /\ exists j, queue w !! emailId = Some j /\ status j = failed)
  /\ ((retryFailedEmail isAdmin now emailId w).1 <> Success ->
      (retryFailedEmail isAdmin now emailId w).2 = w)
  /\ ((retryFailedEmail isAdmin now emailId w).1 = Success ->
      (exists j',
         queue (retryFailedEmail isAdmin now emailId w).2 !! emailId = Some j'
         /\ status j' = pending /\ attempts j' = 0 /\ failureReason j' = None
         /\ scheduledFor j' = now /\ isDue now j' = true)
      /\ forall k, k <> emailId ->
           queue (retryFailedEmail isAdmin now emailId w).2 !! k = queue w !! k).
Proof.
  unfold retryFailedEmail. destruct isAdmin; simpl.
  2:{ split; [split; [discriminate|intros [? _]; discriminate]|].
      split; [done|discriminate]. }
  destruct (queue w !! emailId) as [j|] eqn:E; simpl.
  2:{ split; [split; [discriminate|intros [_ (? & ? & _)]; discriminate]|].
      split; [done|discriminate]. }
  case_bool_decide as Hf; simpl.
  - split; [split; [intros _; split; [done|by exists j]|done]|].
    split; [done|]. intros _. split.
    + eexists. split; [by apply lookup_save|]. unfold_setters.
      repeat split. apply isDue_spec. unfold retryAttempts. simpl.
      repeat split; lia.
    + intros k Hk. by rewrite queue_save, lookup_alter_ne.
  - split; [split; [discriminate|]|split; [done|discriminate]].
    intros [_ (j' & [= <-] & Hst)]. done.
Qed.

Lemma retryFailedEmail_requeues_witness :
  (retryFailedEmail true 99 0 (Sample.world {[ 0%N := SampleLife.exhausted ]} ∅)).1
  = Success
  /\ exists j',
       queue (retryFailedEmail true 99 0
                (Sample.world {[ 0%N := SampleLife.exhausted ]} ∅)).2 !! 0%N = Some j'
       /\ status j' = pending /\ attempts j' = 0 /\ isDue 99 j' = true.
Proof.
  destruct (retryFailedEmail_requeues true 99 0%N
              (Sample.world {[ 0%N := SampleLife.exhausted ]} ∅))
    as (Hiff & _ & Hok).
  assert ((retryFailedEmail true 99 0
             (Sample.world {[ 0%N := SampleLife.exhausted ]} ∅)).1 = Success) as Hs.
  { apply Hiff. split; [reflexivity|]. exists SampleLife.exhausted. split; reflexivity. }
  split; [exact Hs|].
  destruct (Hok Hs) as ((j' & Hj & Hst & Hat & _ & _ & Hdue) & _).
  exists j'. repeat split; assumption.
Defined.

(** X10. A job an admin has cancelled is cancelled for good: it carries
    the admin's reason and its attempts as they were, a second cancel and
    a retry are both rejected and change nothing, and through any later
    operations it stays as it is until a retention sweep finds it
    expired. *)
Theorem cancelEmail_is_final emailId w j ops :
  queue w !! emailId = Some j ->
  status j = pending \/ status j = processing ->
  keptBySweeps (setFailureReason (Some cancelledByAdmin) (setStatus cancelled j)) ops ->
  (cancelEmail true emailId w).1 = Success
  /\ queue (cancelEmail true emailId w).2 !! emailId
     = Some (setFailureReason (Some cancelledByAdmin) (setStatus cancelled j))
  /\ cancelEmail true emailId (cancelEmail true emailId w).2
     = (Rejected, (cancelEmail true emailId w).2)
  /\ (forall now,
        retryFailedEmail true now emailId (cancelEmail true emailId w).2
        = (Rejected, (cancelEmail true emailId w).2))
  /\ queue (run ops (cancelEmail true emailId w).2) !! emailId
     = Some (setFailureReason (Some cancelledByAdmin) (setStatus cancelled j)).
Proof.
  intros Hj Hst Hkept.
  assert (cancelEmail true emailId w
          = (Success,
             save emailId
               (fun j => setFailureReason (Some cancelledByAdmin) (setStatus cancelled j))
               w)) as ->.
  { unfold cancelEmail. simpl. rewrite Hj.
    destruct Hst as [-> | ->]; by simpl. }
  simpl.
  assert (queue (save emailId
                   (fun j => setFailureReason (Some cancelledByAdmin)
                               (setStatus cancelled j)) w) !! emailId
          = Some (setFailureReason (Some cancelledByAdmin) (setStatus cancelled j)))
    as Hj'
    by exact (lookup_save emailId
                (fun j => setFailureReason (Some cancelledByAdmin)
                            (setStatus cancelled j)) w j Hj).
  repeat split; try done.
  - unfold cancelEmail. simpl. by rewrite Hj'.
  - intros now. unfold retryFailedEmail. simpl. by rewrite Hj'.
  - apply terminal_run; [by left|done|done].
Qed.

Lemma cancelEmail_is_final_witness :
  (cancelEmail true 1 SampleAttempt.defaultWorld).1 = Success
  /\ queue (cancelEmail true 1 SampleAttempt.defaultWorld).2 !! 1%N
     = Some (setFailureReason (Some cancelledByAdmin)
               (setStatus cancelled (loaded SampleAttempt.doc1)))
  /\ cancelEmail true 1 (cancelEmail true 1 SampleAttempt.defaultWorld).2
     = (Rejected, (cancelEmail true 1 SampleAttempt.defaultWorld).2)
  /\ (forall now,
        retryFailedEmail true now 1 (cancelEmail true 1 SampleAttempt.defaultWorld).2
        = (Rejected, (cancelEmail true 1 SampleAttempt.defaultWorld).2))
  /\ queue (run [Tick (Sample.at14 Sample.devService); Cleanup (24 * Sample.hour)]
              (cancelEmail true 1 SampleAttempt.defaultWorld).2) !! 1%N
     = Some (setFailureReason (Some cancelledByAdmin)
               (setStatus cancelled (loaded SampleAttempt.doc1))).
Proof.
  apply (cancelEmail_is_final 1%N SampleAttempt.defaultWorld
           (loaded SampleAttempt.doc1)
           [Tick (Sample.at14 Sample.devService); Cleanup (24 * Sample.hour)]).
  - reflexivity.
  - left. reflexivity.
  - repeat constructor.
Defined.

(** ** [sendEmail] and [sendTransactionalEmail] *)

(** X12. [sendEmail] hands at most one message to the transport, and none
    when it rejects the call (no recipient; neither subject, template nor
    template id) or the provider is not one it knows.  Under ['aws-ses']
    no call ever returns and nothing is handed to SES: the service has no
    SES client.  When a call returns, exactly one message went out,
    through the configured provider, which is the development mode or
    SendGrid, and to the recipient of the call; with SendGrid the sender
    of that message is never empty and the receipt carries the id the SDK
    returned. *)
Theorem sendEmail_delivers_once svc a :
  (length (sendEmail svc a).2 <= 1)%nat
  /\ (truthy (to a) = false ->
      sendEmail svc a = (Throw "Recipient email is required", []))
  /\ (truthy (to a) = true -> truthy (argSubject a) = false ->
      truthy (template a) = false -> truthy (templateId a) = false ->
      sendEmail svc a = (Throw "Subject or template is required", []))
  /\ (forall v, provider svc = unknownProvider v ->
        (sendEmail svc a).2 = [] /\ exists e, (sendEmail svc a).1 = Throw e)
  /\ (provider svc = aws_ses ->
      (sendEmail svc a).2 = [] /\ exists e, (sendEmail svc a).1 = Throw e)
  /\ (forall r, (sendEmail svc a).1 = Ok r ->
        exists m,
          (sendEmail svc a).2 = [m]
          /\ via m = provider svc /\ receiptProvider r = provider svc
          /\ outTo m = to a /\ truthy (to a) = true
          /\ (provider svc = development \/ provider svc = sendgrid)
          /\ (provider svc = sendgrid ->
              truthy (outFrom m) = true /\ sdkSend svc m = Ok (messageId r))).
Proof.
  split; [apply sendEmail_calls|].
  unfold sendEmail. split; [by intros ->|]. split.
  { intros -> -> -> ->. done. }
  split; [|split].
  - intros v Hv. destruct (negb (truthy (to a))); [by eauto|].
    destruct (_ && _); [by eauto|]. unfold dispatch. rewrite Hv. by eauto.
  - intros Hp. destruct (negb (truthy (to a))); [by eauto|].
    destruct (_ && _); [by eauto|]. unfold dispatch. rewrite Hp.
    destruct (truthy _); by eauto.
  - intros r. destruct (truthy (to a)) eqn:Hto; [|discriminate]. simpl.
    destruct (_ && _); [discriminate|].
    unfold dispatch, emailDataOf.
    destruct (match template a with
              | Some (String _ _ as t) => _
              | _ => _
              end) as [emailHtml emailText].
    destruct (provider svc) eqn:Hp; simpl.
    + intros [= <-]. eexists. repeat split; try done. by left.
    + unfold sendWithSendGrid. simpl.
      assert (truthy (orElse (from a) (orElse (fromEmail svc) (Some defaultFrom)))
              = true) as Hfrom.
      { unfold orElse. destruct (truthy (from a)) eqn:E1; [done|].
        by destruct (truthy (fromEmail svc)) eqn:E2. }
      destruct (truthy (templateId a));
        (destruct (sdkSend svc _) as [mid|e] eqn:Es; [|discriminate]);
        intros [= <-]; eexists; repeat split; first [done | by right].
    + destruct (truthy (templateId a)); discriminate.
    + discriminate.
Qed.

Lemma sendEmail_delivers_once_witness :
  (exists m,
     (sendEmail Sample.devService SampleSend.welcomeCall).2 = [m]
     /\ via m = development /\ outTo m = Some "ann@example.com")
  /\ (exists m,
        (sendEmail Sample.renderingService SampleSend.welcomeCall).2 = [m]
        /\ outHtml m = Some "<p>digest</p>")
  /\ (exists m r,
        sendEmail SampleFallback.sendgridService SampleSend.welcomeCall = (Ok r, [m])
        /\ via m = sendgrid /\ outFrom m = Some "noreply@jobportal.com"
        /\ messageId r = "sg-1")
  /\ sendEmail SampleFallback.sesService SampleSend.welcomeCall
     = (Throw sesClientMissing, []).
Proof.
  destruct (sendEmail_delivers_once Sample.devService SampleSend.welcomeCall)
    as (_ & _ & _ & _ & _ & Hdev).
  destruct (sendEmail_delivers_once Sample.renderingService SampleSend.welcomeCall)
    as (_ & _ & _ & _ & _ & Hren).
  destruct (sendEmail_delivers_once SampleFallback.sendgridService
              SampleSend.welcomeCall) as (_ & _ & _ & _ & _ & Hsg).
  destruct (sendEmail_delivers_once SampleFallback.sesService SampleSend.welcomeCall)
    as (_ & _ & _ & _ & Hses & _).
  split; [|split; [|split]].
  - edestruct Hdev as (m & Hm & Hvia & _ & Hto & _); [reflexivity|].
    exists m. repeat split; assumption.
  - edestruct Hren as (m & Hm & _); [reflexivity|].
    exists m. split; [assumption|].
    vm_compute in Hm. by injection Hm as <-.
  - edestruct Hsg as (m & Hm & Hvia & _ & _ & _ & _ & Hsend); [reflexivity|].
    destruct (Hsend eq_refl) as [Hfrom Hid].
    exists m, (mkReceipt "sg-1" sendgrid). split.
    + rewrite (surjective_pairing (sendEmail _ _)), Hm. reflexivity.
    + split; [assumption|]. split; [|reflexivity].
      vm_compute in Hm. by injection Hm as <-.
  - destruct (Hses eq_refl) as [Hnone [e He]].
    rewrite (surjective_pairing (sendEmail _ _)), Hnone. reflexivity.
Defined.

Lemma transactionalTemplates_truthy type subject template :
  transactionalTemplates type = Some (subject, template) ->
  truthy (Some subject) = true /\ truthy (Some template) = true.
Proof.
  unfold transactionalTemplates.
  repeat case_bool_decide; intros [= <- <-]; done.
Qed.

(** X13. [sendTransactionalEmail] sends nothing for a type that is not one
    of the ten keys of its table: it throws, and no transport is invoked
    (also for names the table only inherits, such as ["toString"]).  For a
    key of the table and a recipient, in development mode it always returns
    having handed over one message with the table's subject, which is not
    empty, and a body that is the rendered template or, when the template
    throws, the fallback built from that subject. *)
Theorem sendTransactionalEmail_by_table svc type recipientEmail :
  (transactionalTemplates type = None ->
   (sendTransactionalEmail svc type recipientEmail).2 = []
   /\ exists e, (sendTransactionalEmail svc type recipientEmail).1 = Throw e)
  /\ (forall subject template,
        transactionalTemplates type = Some (subject, template) ->
        truthy recipientEmail = true ->
        provider svc = development ->
        exists r m,
          sendTransactionalEmail svc type recipientEmail = (Ok r, [m])
          /\ outTo m = recipientEmail
          /\ outSubject m = Some subject /\ truthy (outSubject m) = true
          /\ outHtml m
             = Some (match compileTemplate svc template with
                     | Ok h => h
                     | Throw _ => fallbackHtml (Some subject)
                     end)
          /\ outText m
             = Some (match compileTemplate svc template with
                     | Ok h => htmlToText h
                     | Throw _ => fallbackText (Some subject)
                     end)).
Proof.
  unfold sendTransactionalEmail. split.
  - intros ->. case_bool_decide; [|by eauto].
    unfold sendEmail. simpl. destruct (truthy recipientEmail); simpl; by eauto.
  - intros subject template Ht Hto Hdev. rewrite Ht.
    destruct (transactionalTemplates_truthy _ _ _ Ht) as [Hs Htt].
    unfold sendEmail. simpl. rewrite Hto. simpl.
    destruct subject as [|c1 s1]; [discriminate|].
    destruct template as [|c2 s2]; [discriminate|]. simpl.
    unfold dispatch, emailDataOf. rewrite Hdev. simpl.
    destruct (compileTemplate svc (String c2 s2));
      eexists _, _; repeat split.
Qed.

Lemma sendTransactionalEmail_by_table_witness :
  (exists r m,
     sendTransactionalEmail Sample.devService "welcome" (Some "ann@example.com")
     = (Ok r, [m])
     /\ outSubject m = Some "Welcome to JobPortal!")
  /\ (sendTransactionalEmail Sample.devService "toString" (Some "ann@example.com")).2
     = [].
Proof.
  split.
  - destruct (sendTransactionalEmail_by_table Sample.devService "welcome"
                (Some "ann@example.com")) as (_ & Hkey).
    destruct (Hkey "Welcome to JobPortal!" "welcome")
      as (r & m & Hsend & _ & Hsubj & _); try reflexivity.
    exists r, m. split; assumption.
  - destruct (sendTransactionalEmail_by_table Sample.devService "toString"
                (Some "ann@example.com")) as (Hnone & _).
    apply Hnone. reflexivity.
Defined.

(** ** [htmlToText] *)

Lemma append_cons x (a b : string) : String x a +:+ b = String x (a +:+ b).
Proof. reflexivity. Qed.

Lemma append_nil_l (b : string) : "" +:+ b = b.
Proof. reflexivity. Qed.

Ltac append_simpl := rewrite ?append_cons, ?append_nil_l in *.

Lemma append_assoc (a b c : string) : (a +:+ b) +:+ c = a +:+ (b +:+ c).
Proof. induction a as [|x a IH]; append_simpl; [done|]. by f_equal. Qed.

Lemma append_nil_r (a : string) : a +:+ "" = a.
Proof. induction a as [|x a IH]; append_simpl; [done|]. by f_equal. Qed.

Lemma rev_app_spec (a b : string) : String.rev_app a b = String.rev a +:+ b.
Proof.
  revert b. induction a as [|x a IH]; intros b; [done|].
  change (String.rev (String x a)) with (String.rev_app a (String x "")).
  change (String.rev_app (String x a) b) with (String.rev_app a (String x b)).
  rewrite (IH (String x b)), (IH (String x "")). by rewrite append_assoc.
Qed.

Lemma rev_cons x (a : string) : String.rev (String x a) = String.rev a +:+ String x "".
Proof.
  change (String.rev (String x a)) with (String.rev_app a (String x "")).
  apply rev_app_spec.
Qed.

Lemma rev_append (a b : string) : String.rev (a +:+ b) = String.rev b +:+ String.rev a.
Proof.
  induction a as [|x a IH]; append_simpl.
  - change (String.rev "") with "". by rewrite append_nil_r.
  - by rewrite !rev_cons, IH, append_assoc.
Qed.

Lemma rev_involutive (a : string) : String.rev (String.rev a) = a.
Proof.
  induction a as [|x a IH]; [done|].
  rewrite rev_cons, rev_append, IH. done.
Qed.

Lemma skipWhite_suffix s : exists ws, s = ws +:+ skipWhite s.
Proof.
  induction s as [|c s [ws IH]]; simpl.
  - by exists "".
  - destruct (isWhite c); [|by exists ""].
    exists (String c ws). rewrite append_cons. by rewrite <- IH.
Qed.

Lemma skipWhite_startsWhite s : startsWhite (skipWhite s) = false.
Proof.
  induction s as [|c s IH]; simpl; [done|].
  destruct (isWhite c) eqn:E; [done|]. simpl. done.
Qed.

Lemma trim_prefix s : exists ws, skipWhite s = trim s +:+ ws.
Proof.
  unfold trim.
  destruct (skipWhite_suffix (String.rev (skipWhite s))) as [ws Hws].
  exists (String.rev ws).
  rewrite <- rev_append, <- Hws. by rewrite rev_involutive.
Qed.

Lemma startsWhite_prefix a b : startsWhite (a +:+ b) = false -> startsWhite a = false.
Proof. destruct a; [done|]. by rewrite append_cons. Qed.

Lemma hasGt_append a b : hasGt (a +:+ b) = hasGt a || hasGt b.
Proof.
  induction a as [|c a IH]; append_simpl; simpl; [done|]. by rewrite IH, orb_assoc.
Qed.

Lemma hasTag_append a b :
  hasTag (a +:+ b) = false -> hasTag a = false /\ hasTag b = false.
Proof.
  induction a as [|c a IH]; append_simpl; simpl; [done|].
  rewrite hasGt_append. intros [H1 H2]%orb_false_iff.
  destruct (IH H2) as [Ha Hb]. rewrite Ha. split; [|done].
  destruct (code c =? 60)%N; [|done]. simpl in *.
  apply orb_false_iff in H1 as [-> _]. done.
Qed.

Lemma isWhite_code c :
  isWhite c = true -> (code c =? 60)%N = false /\ (code c =? 62)%N = false.
Proof.
  unfold isWhite. intros H. split; apply N.eqb_neq; intros Heq; rewrite Heq in H;
    vm_compute in H; discriminate.
Qed.

Lemma hasGt_stripTags b s : hasGt s = false -> hasGt (stripTags b s) = false.
Proof.
  revert b. induction s as [|c s IH]; intros b; simpl; [done|].
  intros [Hc Hs]%orb_false_iff. destruct b.
  - by apply IH.
  - rewrite Hs, andb_false_r. simpl. by rewrite Hc, IH.
Qed.

Lemma hasTag_stripTags b s : hasTag (stripTags b s) = false.
Proof.
  revert b. induction s as [|c s IH]; intros b; simpl; [done|].
  destruct b; [apply IH|].
  destruct ((code c =? 60)%N && hasGt s) eqn:E; [apply IH|].
  simpl. rewrite IH, orb_false_r.
  destruct (code c =? 60)%N; [|done]. simpl in *.
  by rewrite hasGt_stripTags.
Qed.

Lemma hasGt_collapseSpaces b s : hasGt (collapseSpaces b s) = hasGt s.
Proof.
  revert b. induction s as [|c s IH]; intros b; simpl; [done|].
  destruct (isWhite c) eqn:E.
  - destruct (isWhite_code c E) as [_ ->]. simpl.
    destruct b; simpl; by rewrite IH.
  - simpl. by rewrite IH.
Qed.

Lemma hasTag_collapseSpaces b s : hasTag (collapseSpaces b s) = hasTag s.
Proof.
  revert b. induction s as [|c s IH]; intros b; simpl; [done|].
  destruct (isWhite c) eqn:E.
  - destruct (isWhite_code c E) as [-> _]. simpl.
    destruct b; simpl; by rewrite IH.
  - simpl. by rewrite IH, hasGt_collapseSpaces.
Qed.

(** X14. The text that [htmlToText] derives from an HTML body holds no
    complete tag (no ["<"] with a [">"] after it) and neither begins nor
    ends with white space. *)
Theorem htmlToText_strips_tags_and_trims h :
  hasTag (htmlToText h) = false
  /\ startsWhite (htmlToText h) = false
  /\ endsWhite (htmlToText h) = false.
Proof.
  unfold htmlToText.
  set (y := collapseSpaces false (stripTags false h)).
  assert (hasTag y = false) as Hy
    by (unfold y; by rewrite hasTag_collapseSpaces, hasTag_stripTags).
  destruct (skipWhite_suffix y) as [ws Hws].
  destruct (trim_prefix y) as [ws' Hws'].
  rewrite Hws in Hy. apply hasTag_append in Hy as [_ Hy].
  rewrite Hws' in Hy. apply hasTag_append in Hy as [Hy _].
  split; [done|]. split.
  - apply (startsWhite_prefix _ ws'). rewrite <- Hws'. apply skipWhite_startsWhite.
  - unfold endsWhite, trim. rewrite rev_involutive. apply skipWhite_startsWhite.
Qed.

(** ** Edges of the quiet-hours test *)

(** [parseInt] skips the white space outside ASCII as well (here a
    no-break space), and reads an integer beyond [2^53] as the nearest
    Number. *)
Example parseInt_no_break_space :
  hourOf (String (ascii_of_N 194) (String (ascii_of_N 160) "22:00")) = Some 22.
Proof. reflexivity. Qed.

Example parseInt_nearest_number : parseInt "9007199254740993" = Some 9007199254740992.
Proof. reflexivity. Qed.

Lemma splitColonHead_append a m :
  splitColonHead (a +:+ String ":"%char m) = splitColonHead a.
Proof.
  induction a as [|c a IH]; append_simpl; simpl; [done|].
  destruct (code c =? 58)%N; [done|]. by rewrite IH.
Qed.

Lemma getHours_range h now : 0 <= getHours h now < 24.
Proof. unfold getHours. apply Z.mod_pos_bound. lia. Qed.

(** X15. Only the hour parts of [startTime] and [endTime] count: whatever
    follows the first colon is ignored, so changing the minutes of the
    window never changes the filter's answer. *)
Theorem quiet_hours_ignore_minutes h now job prefs on startHour endHour m1 m2 m1' m2' zone :
  shouldSkipEmail h now job
    (Some (mkPreferences prefs
             (mkQuietHours on (startHour +:+ String ":"%char m1)
                (endHour +:+ String ":"%char m2) zone)))
  = shouldSkipEmail h now job
      (Some (mkPreferences prefs
               (mkQuietHours on (startHour +:+ String ":"%char m1')
                  (endHour +:+ String ":"%char m2') zone))).
Proof.
  unfold shouldSkipEmail, hourOf. simpl. by rewrite !splitColonHead_append.
Qed.

(** X16. The window includes the whole of its end hour, and a window
    whose start or end [parseInt] reads as [NaN] never suppresses
    anything: with e-mail enabled and the type not opted out, a job
    evaluated while the host's hour equals the end hour is skipped, and a
    job is never skipped when [startTime] or [endTime] does not parse. *)
Theorem quiet_hours_end_hour_and_unparsable_times h now job p :
  enabled (email p) = true ->
  (forall key, typePreferenceMap (emailType job) = Some key -> key (email p) = true) ->
  quietEnabled (quietHours p) = true ->
  (forall s,
     hourOf (startTime (quietHours p)) = Some s ->
     hourOf (endTime (quietHours p)) = Some (getHours h now) ->
     shouldSkipEmail h now job (Some p) = true)
  /\ (hourOf (startTime (quietHours p)) = None
      \/ hourOf (endTime (quietHours p)) = None ->
      shouldSkipEmail h now job (Some p) = false).
Proof.
  intros Hen Hkey Hq. split.
  - intros s Hs He.
    rewrite (shouldSkipEmail_window h now job p s (getHours h now)) by done.
    unfold specInWindow.
    destruct (Z.ltb_spec (getHours h now) s).
    + apply orb_true_iff. right. apply Z.leb_le. lia.
    + apply andb_true_iff. split; apply Z.leb_le; lia.
  - intros Hnan. unfold shouldSkipEmail. rewrite Hen, Hq. simpl.
    assert ((match typePreferenceMap (emailType job) with
             | Some prefKey => negb (prefKey (email p))
             | None => false
             end) = false) as ->.
    { destruct (typePreferenceMap (emailType job)) as [key|] eqn:Hk; [|done].
      by rewrite (Hkey key eq_refl). }
    destruct Hnan as [-> | ->]; simpl.
    + done.
    + destruct (hourOf (startTime (quietHours p))) as [z|]; simpl; [|done].
      by destruct (z <=? getHours h now).
Qed.

Lemma quiet_hours_end_hour_and_unparsable_times_witness :
  shouldSkipEmail 0 (8 * Sample.hour + 59 * 60000) (loaded SampleAttempt.doc1)
    (Some (Sample.quietFrom22To8 "UTC")) = true
  /\ (hourOf (startTime (quietHours SampleSweep.quietFromTenPm)) = None
      /\ shouldSkipEmail 0 (23 * Sample.hour) (loaded SampleAttempt.doc1)
           (Some SampleSweep.quietFromTenPm) = false).
Proof.
  split.
  - destruct (quiet_hours_end_hour_and_unparsable_times 0
                (8 * Sample.hour + 59 * 60000)
                (loaded SampleAttempt.doc1) (Sample.quietFrom22To8 "UTC"))
      as (Hend & _).
    + reflexivity.
    + intros key [= <-]. reflexivity.
    + reflexivity.
    + apply (Hend 22); reflexivity.
  - split; [reflexivity|].
    destruct (quiet_hours_end_hour_and_unparsable_times 0 (23 * Sample.hour)
                (loaded SampleAttempt.doc1) SampleSweep.quietFromTenPm)
      as (_ & Hnan).
    + reflexivity.
    + intros key [= <-]. reflexivity.
    + reflexivity.
    + apply Hnan. left. reflexivity.
Defined.

(** ** [queueEmailNotification] *)

(** X17. [queueEmailNotification] never throws and touches only the
    queue.  It queues nothing when the recipient has no preferences
    document, has e-mail disabled or has opted out of the notification's
    type, or when there is no active template with an e-mail body for the
    type.  Otherwise (and with a subject that is not empty) it stores
    exactly one new job under a fresh id: pending, due at once, of the
    e-mail type mapped from the notification's type, with the template's
    e-mail subject or else the notification's title, and of priority high
    for an urgent notification and medium for any other. *)
Theorem queueEmailNotification_gates templates now n w :
  (Preferences (database w) !! notifRecipient n = None ->
   queueEmailNotification templates now n w = w)
  /\ (forall p,
        Preferences (database w) !! notifRecipient n = Some p ->
        enabled (email p) = false \/ shouldSendEmailForType p (notifType n) = false ->
        queueEmailNotification templates now n w = w)
  /\ (templates (notifType n) = None
      \/ (exists t, templates (notifType n) = Some t
                    /\ (isActive t = false \/ truthy (emailTemplate t) = false)) ->
      queueEmailNotification templates now n w = w)
  /\ (forall p t body,
        Preferences (database w) !! notifRecipient n = Some p ->
        enabled (email p) = true ->
        shouldSendEmailForType p (notifType n) = true ->
        templates (notifType n) = Some t ->
        isActive t = true ->
        emailTemplate t = Some body -> body <> "" ->
        subject (notificationEmail now n t body) <> "" ->
        exists id,
          queue w !! id = None
          /\ queueEmailNotification templates now n w
             = withQueue (<[id := notificationEmail now n t body]> (queue w)) w).
Proof.
  unfold queueEmailNotification. split; [by intros ->|]. split.
  { intros p -> [-> | H]; [done|]. destruct (enabled (email p)); [|done].
    simpl. by rewrite H. }
  split.
  { intros Ht. destruct (Preferences (database w) !! notifRecipient n) as [p|]; [|done].
    destruct (negb (enabled (email p))); [done|].
    destruct (negb (shouldSendEmailForType p (notifType n))); [done|].
    destruct Ht as [-> | (t & -> & [-> | Hb])]; try done.
    destruct (negb (isActive t)); [done|].
    by destruct (emailTemplate t) as [[|c r]|]. }
  intros p t body -> -> -> -> -> -> Hbody Hsubj. simpl.
  destruct body as [|c r]; [done|].
  unfold create. simpl in *.
  rewrite bool_decide_eq_false_2 by done. simpl.
  exists (fresh (dom (queue w))). split; [apply not_elem_of_dom, is_fresh|done].
Qed.

Lemma queueEmailNotification_gates_witness :
  (exists id,
     queueEmailNotification SampleNotify.templates 5 SampleNotify.request
       SampleLife.start
     = withQueue
         (<[id := notificationEmail 5 SampleNotify.request
                    (mkNotificationTemplate None
                       (Some "<p>{{name}} wants to connect</p>") true)
                    "<p>{{name}} wants to connect</p>"]> ∅)
         SampleLife.start)
  /\ queueEmailNotification SampleNotify.templates 5 SampleNotify.request
       (Sample.world ∅ ∅)
     = Sample.world ∅ ∅.
Proof.
  split.
  - destruct (queueEmailNotification_gates SampleNotify.templates 5
                SampleNotify.request SampleLife.start) as (_ & _ & _ & Hq).
    destruct (Hq defaultPreferences
                (mkNotificationTemplate None
                   (Some "<p>{{name}} wants to connect</p>") true)
                "<p>{{name}} wants to connect</p>") as (id & _ & Hid);
      try reflexivity; try discriminate.
    exists id. exact Hid.
  - destruct (queueEmailNotification_gates SampleNotify.templates 5
                SampleNotify.request (Sample.world ∅ ∅)) as (Hnone & _).
    apply Hnone. reflexivity.
Defined.

(** X18. The filter applied when a notification's e-mail is queued and
    the filter applied when the job is processed look at different flags.
    A job that [queueEmailNotification] has queued under preferences that
    have not changed since (and without quiet hours) is skipped, hence
    cancelled, at processing time exactly when the user has switched off
    application updates and the notification is not a job match: so with
    application updates off, the e-mails of connection requests,
    endorsements, recommendations, assessments and interviews are queued
    and then cancelled. *)
Theorem queued_notification_skipped_for_application_updates h now p ty job :
  enabled (email p) = true ->
  shouldSendEmailForType p ty = true ->
  quietEnabled (quietHours p) = false ->
  emailType job = getEmailTypeForNotification ty ->
  (shouldSkipEmail h now job (Some p) = true <->
     applicationUpdates (email p) = false /\ ty <> job_match).
Proof.
  intros Hen Hsend Hq Hty. unfold shouldSkipEmail. rewrite Hen, Hq, Hty. simpl.
  unfold shouldSendEmailForType in Hsend.
  destruct ty; simpl in *; rewrite ?Hsend;
    destruct (applicationUpdates (email p)); simpl in *;
    (split; [intros Hskip|intros [Hoff Hne]]);
    first [done | discriminate | congruence | by split].
Qed.

Lemma queued_notification_skipped_for_application_updates_witness :
  shouldSkipEmail 0 (14 * Sample.hour)
    (notificationEmail 0 SampleNotify.request
       (mkNotificationTemplate None (Some "<p>{{name}} wants to connect</p>") true)
       "<p>{{name}} wants to connect</p>")
    (Some SampleNotify.noApplicationUpdates) = true <->
  applicationUpdates (email SampleNotify.noApplicationUpdates) = false
  /\ connection_request <> job_match.
Proof.
  apply (queued_notification_skipped_for_application_updates 0 (14 * Sample.hour)
           SampleNotify.noApplicationUpdates connection_request); reflexivity.
Defined.

(** ** Notifications: reading, archiving, deleting *)

Lemma findOwn_Some userId id ns n :
  findOwn userId id ns = Some n <-> ns !! id = Some n /\ notifRecipient n = userId.
Proof.
  unfold findOwn. destruct (ns !! id) as [m|].
  - case_bool_decide as Hu; split.
    + by intros [= <-].
    + by intros [[= <-] _].
    + done.
    + intros [[= <-] Hn]. by destruct Hu.
  - split; [done|by intros [? _]].
Qed.

Lemma performNotificationOp_stamped op ns :
  map_Forall (fun _ n => readStamped n) ns ->
  map_Forall (fun _ n => readStamped n) (performNotificationOp op ns).
Proof.
  intros Hs. destruct op; simpl.
  - unfold createNotificationDoc. repeat case_bool_decide; try done.
    apply map_Forall_insert_2; [|done]. intros ?. discriminate.
  - unfold markNotificationAsRead.
    destruct (findOwn userId notificationId ns) as [n|] eqn:E; [|done]. simpl.
    apply map_Forall_insert_2; [|done]. intros _. by eexists.
  - unfold markAllAsRead. intros k n. rewrite lookup_fmap.
    destruct (ns !! k) as [m|] eqn:E; [|done]. simpl. intros [= <-].
    destruct (_ && _); [intros _; by eexists|by eapply Hs].
  - unfold archiveNotification.
    destruct (findOwn userId notificationId ns) as [n|] eqn:E; [|done]. simpl.
    apply map_Forall_insert_2; [|done].
    apply findOwn_Some in E as [E _]. exact (Hs _ _ E).
  - unfold deleteNotification.
    destruct (findOwn userId notificationId ns) as [n|] eqn:E; [|done]. simpl.
    by apply map_Forall_delete.
  - unfold socketMarkRead. intros k n. rewrite lookup_alter. case_decide.
    + destruct (ns !! notificationId); [|done]. simpl. intros [= <-] _. by eexists.
    + apply Hs.
Qed.

(** X19. A notification that is read has the time it was read: starting
    from no notifications, after any sequence of creations, single and
    bulk mark-as-read requests, archive and delete requests and socket
    mark-as-read events, [isRead] implies that [readAt] is set. *)
Theorem read_notification_has_readAt ops id n :
  runNotificationOps ops ∅ !! id = Some n ->
  isRead n = true -> is_Some (readAt n).
Proof.
  assert (map_Forall (fun _ n => readStamped n) (runNotificationOps ops ∅)) as Hs.
  { induction ops as [|op ops IH] using rev_ind.
    - apply map_Forall_empty.
    - unfold runNotificationOps. rewrite foldl_app. simpl.
      by apply performNotificationOp_stamped. }
  intros Hn. exact (Hs _ _ Hn).
Qed.

Lemma read_notification_has_readAt_witness :
  is_Some (readAt (markAsRead 5 SampleNotify.request)).
Proof.
  apply (read_notification_has_readAt
           [CreateNotification 0 SampleNotify.newRequest; Archive 7 0; MarkAllRead 7 5]
           0%N
           (archive (markAsRead 5
              (mkNotification 7 (Some 8%N) connection_request "New connection request"
                 "Bob wants to connect" priorityMedium categoryNetwork false false
                 None 0 None)))); reflexivity.
Defined.

(** X20. [markAllAsRead] leaves the user with an unread count of zero,
    keeps every notification in place, and changes nothing but the
    notifications of that user that were unread: those of other users and
    those already read (with the time they were read) are as before. *)
Theorem markAllAsRead_clears_unread userId now ns :
  unreadCount userId (markAllAsRead userId now ns) = 0%nat
  /\ dom (markAllAsRead userId now ns) = dom ns
  /\ (forall id n,
        ns !! id = Some n ->
        notifRecipient n <> userId \/ isRead n = true ->
        markAllAsRead userId now ns !! id = Some n)
  /\ (forall id n,
        ns !! id = Some n ->
        notifRecipient n = userId -> isRead n = false ->
        markAllAsRead userId now ns !! id = Some (markAsRead now n)).
Proof.
  split; [|split; [|split]].
  - unfold unreadCount. apply map_size_empty_iff, map_empty_filter.
    intros id n Hn (Hu & Hr & _). simpl in *.
    unfold markAllAsRead in Hn. rewrite lookup_fmap in Hn.
    destruct (ns !! id) as [m|]; [|done]. simpl in Hn. injection Hn as <-.
    destruct (bool_decide (notifRecipient m = userId) && negb (isRead m)) eqn:E.
    + done.
    + apply andb_false_iff in E as [E|E].
      * apply bool_decide_eq_false in E. done.
      * rewrite Hr in E. done.
  - unfold markAllAsRead. apply dom_fmap_L.
  - intros id n Hn Hcase. unfold markAllAsRead. rewrite lookup_fmap, Hn. simpl.
    destruct Hcase as [Hu|Hr].
    + by rewrite bool_decide_eq_false_2.
    + by rewrite Hr, andb_false_r.
  - intros id n Hn Hu Hr. unfold markAllAsRead. rewrite lookup_fmap, Hn. simpl.
    by rewrite bool_decide_eq_true_2, Hr.
Qed.

(** X21. The requests that name one notification act only for its
    recipient: for any other user, marking as read, archiving and deleting
    answer "not found" and change nothing.  The socket event
    [mark_notification_read] looks the notification up by its id alone and
    marks it read whoever its recipient is. *)
Theorem notification_requests_are_owner_only userId id n now ns :
  ns !! id = Some n ->
  notifRecipient n <> userId ->
  markNotificationAsRead userId id now ns = (NotFound, ns)
  /\ archiveNotification userId id ns = (NotFound, ns)
  /\ deleteNotification userId id ns = (NotFound, ns)
  /\ socketMarkRead id now ns !! id = Some (markAsRead now n).
Proof.
  intros Hn Hu.
  assert (findOwn userId id ns = None) as Hnone.
  { unfold findOwn. rewrite Hn. by rewrite bool_decide_eq_false_2. }
  unfold markNotificationAsRead, archiveNotification, deleteNotification.
  rewrite Hnone. repeat split.
  unfold socketMarkRead. by rewrite lookup_alter_eq, Hn.
Qed.

Lemma notification_requests_are_owner_only_witness :
  markNotificationAsRead 8 0 5 {[ 0%N := SampleNotify.request ]}
  = (NotFound, {[ 0%N := SampleNotify.request ]})
  /\ archiveNotification 8 0 {[ 0%N := SampleNotify.request ]}
     = (NotFound, {[ 0%N := SampleNotify.request ]})
  /\ deleteNotification 8 0 {[ 0%N := SampleNotify.request ]}
     = (NotFound, {[ 0%N := SampleNotify.request ]})
  /\ socketMarkRead 0 5 {[ 0%N := SampleNotify.request ]} !! 0%N
     = Some (markAsRead 5 SampleNotify.request).
Proof.
  apply (notification_requests_are_owner_only 8%N 0%N SampleNotify.request 5
           {[ 0%N := SampleNotify.request ]}).
  - reflexivity.
  - discriminate.
Defined.

(** X22. [createNotification] stores the notification, unread, whenever
    its title and message pass the schema (not empty, at most 200 and 500
    UTF-16 code units, which is what [maxLength] counts), whether or not an
    e-mail can be queued; a recipient without preferences or with e-mail
    disabled gets the notification and no e-mail job.  The call throws
    only when the schema rejects the notification, and then nothing is
    stored. *)
Theorem createNotification_stores_notification templates now d p :
  (newTitle d <> "" -> (utf16Length (newTitle d) <= 200)%nat ->
   newMessage d <> "" -> (utf16Length (newMessage d) <= 500)%nat ->
   exists id n p',
     createNotification templates now d p = Ok (id, p')
     /\ notifications p !! id = None
     /\ notifications p' = <[id := n]> (notifications p)
     /\ notifRecipient n = newNotifRecipient d /\ isRead n = false
     /\ isArchived n = false /\ title n = newTitle d
     /\ ((Preferences (database (mail p)) !! newNotifRecipient d = None
          \/ exists prefs,
               Preferences (database (mail p)) !! newNotifRecipient d = Some prefs
               /\ enabled (email prefs) = false) ->
         mail p' = mail p))
  /\ (forall e, createNotification templates now d p = Throw e ->
        newTitle d = "" \/ (200 < utf16Length (newTitle d))%nat
        \/ newMessage d = "" \/ (500 < utf16Length (newMessage d))%nat).
Proof.
  unfold createNotification, createNotificationDoc. split.
  - intros Ht Htl Hm Hml.
    rewrite (bool_decide_eq_false_2 (newTitle d = "")) by done.
    rewrite (bool_decide_eq_false_2 (200 < _)%nat) by lia.
    rewrite (bool_decide_eq_false_2 (newMessage d = "")) by done.
    rewrite (bool_decide_eq_false_2 (500 < _)%nat) by lia.
    eexists _, _, _. split; [done|]. simpl.
    split; [apply not_elem_of_dom, is_fresh|]. repeat split.
    intros Hpref. unfold queueEmailNotification. simpl.
    destruct Hpref as [-> | (prefs & -> & ->)]; done.
  - intros e. repeat case_bool_decide; try discriminate; auto.
Qed.

Lemma createNotification_stores_notification_witness :
  (exists id n p',
     createNotification SampleNotify.templates 5 SampleNotify.newRequest
       (mkPortal ∅ (Sample.world ∅ ∅)) = Ok (id, p')
     /\ notifications p' = <[id := n]> ∅
     /\ isRead n = false
     /\ mail p' = Sample.world ∅ ∅)
  /\ (String.length (newTitle SampleNotify.accented) = 202%nat
      /\ exists id n p',
           createNotification SampleNotify.templates 5 SampleNotify.accented
             (mkPortal ∅ (Sample.world ∅ ∅)) = Ok (id, p')
           /\ notifications p' = <[id := n]> ∅
           /\ title n = newTitle SampleNotify.accented).
Proof.
  split.
  - destruct (createNotification_stores_notification SampleNotify.templates 5
                SampleNotify.newRequest (mkPortal ∅ (Sample.world ∅ ∅)))
      as (Hok & _).
    destruct Hok as (id & n & p' & Hc & _ & Hn & _ & Hr & _ & _ & Hmail).
    + discriminate.
    + vm_compute. lia.
    + discriminate.
    + vm_compute. lia.
    + exists id, n, p'. repeat split; try assumption.
      apply Hmail. left. reflexivity.
  - split; [reflexivity|].
    destruct (createNotification_stores_notification SampleNotify.templates 5
                SampleNotify.accented (mkPortal ∅ (Sample.world ∅ ∅)))
      as (Hok & _).
    destruct Hok as (id & n & p' & Hc & _ & Hn & _ & _ & _ & Ht & _).
    + discriminate.
    + vm_compute. lia.
    + discriminate.
    + vm_compute. lia.
    + exists id, n, p'. repeat split; assumption.
Defined.

(** ** Jobs of one batch, and the queueing helpers *)

(** What an attempt leaves in the job of its document depends on the
    world only through that job and the preferences. *)
Lemma processEmailJob_local svc h clk d w w' :
  Preferences (database w) = Preferences (database w') ->
  queue w !! docId d = queue w' !! docId d ->
  queue (processEmailJob svc h clk d w).1 !! docId d
  = queue (processEmailJob svc h clk d w').1 !! docId d.
Proof.
  intros Hp Hq. unfold processEmailJob.
  destruct (populated d) as [u|]; simpl.
  2:{ by rewrite !queue_save, !lookup_alter_eq, Hq. }
  change (Preferences (database (save ?i ?f w))) with (Preferences (database w)).
  change (Preferences (database (save ?i ?f w'))) with (Preferences (database w')).
  rewrite Hp.
  destruct (shouldSkipEmail _ _ _ _); simpl.
  { by rewrite !queue_save, !lookup_alter_eq, Hq. }
  destruct (sendEmail svc _) as [[r|msg] calls]; simpl.
  { by rewrite !queue_save, !queue_withOutbox, !queue_save, !lookup_alter_eq, Hq. }
  destruct (retryAttempts <=? _); simpl;
    by rewrite !queue_save, !queue_withOutbox, !queue_save, !lookup_alter_eq, Hq.
Qed.

Lemma processAll_independent env now docs w d :
  coherent now docs (queue w) ->
  (forall d', d' ∈ docs -> is_Some (populated d')) ->
  d ∈ docs ->
  queue (processAll env docs w) !! docId d
  = queue (processEmailJob (service env) (hostOffset env) (clockOf env (docId d)) d w).1
      !! docId d.
Proof.
  revert w. induction docs as [|d0 docs IH]; intros w [Hnd Hco] Hpop Hd.
  { by apply elem_of_nil in Hd. }
  apply NoDup_cons in Hnd as [Hnotin Hnd].
  destruct (Hpop d0) as [u Hu]; [left|].
  destruct (processEmailJob_populated (service env) (hostOffset env)
              (clockOf env (docId d0)) d0 w u Hu) as (f & calls & Hw & Hf).
  simpl. rewrite Hw.
  set (w1 := withOutbox (outbox w ++ calls) (save (docId d0) f w)).
  apply elem_of_cons in Hd as [->|Hd].
  - rewrite processAll_other by done. by rewrite Hw.
  - assert (docId d <> docId d0) as Hne.
    { intros Heq. apply Hnotin. rewrite <- Heq. by apply list_elem_of_fmap_2. }
    assert (coherent now docs (queue w1)) as Hco1.
    { split; [done|]. intros d' Hd'. unfold w1.
      rewrite queue_withOutbox, queue_save, lookup_alter_ne.
      - apply Hco. by right.
      - intros Heq. apply Hnotin. rewrite Heq. by apply list_elem_of_fmap_2. }
    rewrite IH; [|done|intros d' Hd'; apply Hpop; by right|done].
    apply processEmailJob_local.
    + unfold w1. by destruct w.
    + unfold w1. by rewrite queue_withOutbox, queue_save, lookup_alter_ne.
Qed.

(** X23. The jobs of one batch do not affect each other: when the flag is
    down and the recipients of the jobs in the batch all exist, a run of
    [processQueue] leaves each job of the batch as an attempt on that job
    alone would have left it, whatever happened to the jobs before it. *)
Theorem processQueue_attempts_are_independent env w id j :
  isProcessing w = false ->
  (forall e, e ∈ findPending (queryTime env) (queue w) ->
             is_Some (Users (database w) !! recipient e.2)) ->
  (id, j) ∈ findPending (queryTime env) (queue w) ->
  queue (processQueue env w) !! id
  = queue (processEmailJob (service env) (hostOffset env) (clockOf env id)
             (populate (Users (database w)) (id, j)) w).1 !! id.
Proof.
  intros Hflag Hpop Hin. unfold processQueue. rewrite Hflag.
  case_bool_decide as Hempty.
  { apply length_zero_iff_nil, fmap_nil_inv in Hempty.
    rewrite queue_withProcessing in Hempty. rewrite Hempty in Hin.
    by apply elem_of_nil in Hin. }
  rewrite queue_withProcessing.
  rewrite (processAll_independent env (queryTime env) _ _
             (populate (Users (database w)) (id, j))).
  - simpl. apply (processEmailJob_local _ _ _ (populate (Users (database w)) (id, j))).
    + by destruct w.
    + by destruct w.
  - apply populate_coherent.
  - intros d' (e & -> & He)%list_elem_of_fmap. by apply Hpop.
  - by apply list_elem_of_fmap_2.
Qed.

Lemma processQueue_attempts_are_independent_witness :
  queue (processQueue (Sample.at14 Sample.failingService)
           (Sample.world Sample.threePriorities {[ 7%N := defaultPreferences ]})) !! 1%N
  = queue (processEmailJob Sample.failingService
             (hostOffset (Sample.at14 Sample.failingService))
             (clockOf (Sample.at14 Sample.failingService) 1)
             (populate Sample.users (1%N, Sample.job welcome "high job" high 10))
             (Sample.world Sample.threePriorities {[ 7%N := defaultPreferences ]})).1
      !! 1%N.
Proof.
  apply (processQueue_attempts_are_independent (Sample.at14 Sample.failingService)
           (Sample.world Sample.threePriorities {[ 7%N := defaultPreferences ]})
           1%N (Sample.job welcome "high job" high 10)).
  - reflexivity.
  - intros e He. vm_compute in He.
    repeat (apply elem_of_cons in He as [->|He]; [by eexists|]).
    by apply elem_of_nil in He.
  - vm_compute. do 2 right. left.
Defined.

Lemma queueRendered_Ok svc now name d w w' :
  queueRendered svc now name d w = Ok w' ->
  exists htmlContent id,
    compileTemplate svc name = Ok htmlContent
    /\ queue w !! id = None
    /\ w' = withQueue
              (<[id := {| recipient := newRecipient (d htmlContent);
                          emailType := newEmailType (d htmlContent);
                          subject := newSubject (d htmlContent);
                          htmlContent := newHtmlContent (d htmlContent);
                          textContent := None;
                          priority := default medium (newPriority (d htmlContent));
                          status := pending;
                          scheduledFor := default now (newScheduledFor (d htmlContent));
                          attempts := 0;
                          lastAttempt := None;
                          sentAt := None;
                          failureReason := None;
                          createdAt := now |}]> (queue w)) w.
Proof.
  unfold queueRendered. destruct (compileTemplate svc name) as [html|]; [|done].
  destruct (create now (d html) (queue w)) as [[id q]|] eqn:Hc; [|done].
  intros [= <-]. exists html, id. unfold create in Hc.
  repeat case_bool_decide; try discriminate. injection Hc as <- <-.
  repeat split. apply not_elem_of_dom, is_fresh.
Qed.

Lemma queueRendered_Throw svc now name d w e :
  (forall htmlContent, newSubject (d htmlContent) <> "") ->
  (forall htmlContent, newHtmlContent (d htmlContent) = htmlContent) ->
  queueRendered svc now name d w = Throw e ->
  compileTemplate svc name = Throw e \/ compileTemplate svc name = Ok "".
Proof.
  intros Hs Hh. unfold queueRendered.
  destruct (compileTemplate svc name) as [html|]; [|intros [= <-]; by left].
  unfold create. rewrite (bool_decide_eq_false_2 _ (Hs html)), Hh.
  case_bool_decide; [subst; by right|done].
Qed.

(** X24. [queueWelcomeEmail] and [queuePasswordResetEmail] create one
    pending job of high priority that is due at once, and throw only when
    the template throws or renders to nothing.  No category flag of the
    recipient's preferences stops such a job: with e-mail enabled and quiet
    hours off it is not skipped.  The master switch and quiet hours do
    apply: with e-mail disabled, or inside the quiet-hours window, a
    welcome or password-reset e-mail is skipped (and so cancelled) like
    any other. *)
Theorem account_emails_ignore_category_flags svc now user w :
  (forall w',
     queueWelcomeEmail svc now user w = Ok w'
     \/ queuePasswordResetEmail svc now user w = Ok w' ->
     exists id j,
       queue w !! id = None
       /\ w' = withQueue (<[id := j]> (queue w)) w
       /\ recipient j = user /\ priority j = high /\ isDue now j = true
       /\ (forall h t p,
             enabled (email p) = true ->
             quietEnabled (quietHours p) = false ->
             shouldSkipEmail h t j (Some p) = false)
       /\ (forall h t p,
             enabled (email p) = false ->
             shouldSkipEmail h t j (Some p) = true)
       /\ (forall h t p s e,
             quietEnabled (quietHours p) = true ->
             hourOf (startTime (quietHours p)) = Some s ->
             hourOf (endTime (quietHours p)) = Some e ->
             specInWindow (getHours h t) s e = true ->
             shouldSkipEmail h t j (Some p) = true))
  /\ (forall e,
        queueWelcomeEmail svc now user w = Throw e ->
        compileTemplate svc "welcome" = Throw e
        \/ compileTemplate svc "welcome" = Ok "")
  /\ (forall e,
        queuePasswordResetEmail svc now user w = Throw e ->
        compileTemplate svc "password-reset" = Throw e
        \/ compileTemplate svc "password-reset" = Ok "").
Proof.
  split; [|split].
  - intros w' [Hq|Hq];
      apply queueRendered_Ok in Hq as (html & id & _ & Hfresh & ->);
      exists id; eexists; (split; [done|]); (split; [done|]);
      (split; [done|]); (split; [done|]);
      (split; [unfold isDue; simpl; rewrite Z.leb_refl; done|]);
      (split; [|split]).
    all: first
      [ intros h t p s e Hq Hs He Hin; by apply (shouldSkipEmail_inside h t _ p s e)
      | intros h t p Hen Hq; unfold shouldSkipEmail; simpl; by rewrite Hen, Hq
      | intros h t p Hen; unfold shouldSkipEmail; by rewrite Hen ].
  - intros e. apply queueRendered_Throw; done.
  - intros e. apply queueRendered_Throw; done.
Qed.

Lemma account_emails_ignore_category_flags_witness :
  exists id j,
    queue (Sample.world ∅ ∅) !! id = None
    /\ queuePasswordResetEmail Sample.renderingService 5 7 (Sample.world ∅ ∅)
       = Ok (withQueue (<[id := j]> ∅) (Sample.world ∅ ∅))
    /\ priority j = high
    /\ shouldSkipEmail 0 (23 * Sample.hour) j (Some SampleNotify.noApplicationUpdates)
       = false
    /\ shouldSkipEmail 0 (23 * Sample.hour) j (Some (Sample.quietFrom22To8 "UTC"))
       = true.
Proof.
  destruct (account_emails_ignore_category_flags Sample.renderingService 5 7%N
              (Sample.world ∅ ∅)) as (Hok & _).
  edestruct Hok as (id & j & Hfresh & Hw & _ & Hprio & _ & Hon & _ & Hquiet).
  { right. reflexivity. }
  exists id, j. split; [exact Hfresh|]. split.
  { unfold queuePasswordResetEmail, queueRendered, create. simpl.
    apply (f_equal Ok). exact Hw. }
  split; [exact Hprio|]. split.
  - apply Hon; reflexivity.
  - apply (Hquiet 0 (23 * Sample.hour) (Sample.quietFrom22To8 "UTC") 22 8);
      reflexivity.
Defined.

(** X25. [queueJobAlertEmail] creates one pending job of medium priority
    whatever the number of jobs (its subject is never empty), and throws
    only when the template throws or renders to nothing.  With e-mail
    enabled and quiet hours off, the job is skipped exactly when the
    recipient has turned job matches off. *)
Theorem job_alert_follows_jobMatches svc now user jobCount w :
  (forall w',
     queueJobAlertEmail svc now user jobCount w = Ok w' ->
     exists id j,
       queue w !! id = None
       /\ w' = withQueue (<[id := j]> (queue w)) w
       /\ recipient j = user /\ priority j = medium /\ isDue now j = true
       /\ subject j = jobAlertSubject jobCount
       /\ (forall h t p,
             enabled (email p) = true ->
             quietEnabled (quietHours p) = false ->
             shouldSkipEmail h t j (Some p) = negb (jobMatches (email p))))
  /\ (forall e,
        queueJobAlertEmail svc now user jobCount w = Throw e ->
        compileTemplate svc "job-alert" = Throw e
        \/ compileTemplate svc "job-alert" = Ok "").
Proof.
  split.
  - intros w' Hq.
    apply queueRendered_Ok in Hq as (html & id & _ & Hfresh & ->).
    exists id. eexists. repeat split; try done.
    + unfold isDue. simpl. by rewrite Z.leb_refl.
    + intros h t p Hen Hq. unfold shouldSkipEmail. simpl. rewrite Hen, Hq. simpl.
      by destruct (jobMatches (email p)).
  - intros e. apply queueRendered_Throw; [|done].
    intros html. unfold jobAlertSubject. discriminate.
Qed.

Lemma job_alert_follows_jobMatches_witness :
  exists id j,
    queueJobAlertEmail Sample.renderingService 5 7 12 (Sample.world ∅ ∅)
    = Ok (withQueue (<[id := j]> ∅) (Sample.world ∅ ∅))
    /\ subject j = jobAlertSubject 12
    /\ shouldSkipEmail 0 (14 * Sample.hour) j (Some defaultPreferences) = false.
Proof.
  destruct (job_alert_follows_jobMatches Sample.renderingService 5 7%N 12%nat
              (Sample.world ∅ ∅)) as (Hok & _).
  edestruct Hok as (id & j & _ & Hw & _ & _ & _ & Hsubj & Hskip).
  { reflexivity. }
  exists id, j. split.
  { unfold queueJobAlertEmail, queueRendered, create. simpl.
    apply (f_equal Ok). exact Hw. }
  split; [exact Hsubj|].
  rewrite Hskip; reflexivity.
Defined.
